(** * Flights-Posting: aggregate maintenance, ownership and soft delete

    A shallow embedding of the handler layer of the travel-posting REST
    backend ([app/handlers], [app/models], [app/schemas], and the routes
    that feed the handlers), with the properties of its city-review
    aggregates, like toggle, ownership checks, soft-delete state machine
    and authentication lookups.

    The relational store is a record of finite maps keyed by primary key;
    it is the SQLite store the engine is configured for, whose INTEGER
    columns hold 64-bit signed values. Python [float] is IEEE-754 binary64
    and is modelled by the primitive floats of the kernel, so every float
    computation below is the one the interpreter performs. *)

From Stdlib Require Import ZArith Floats Uint63 Ascii.
From stdpp Require Import base option list gmap strings sorting.

Open Scope Z_scope.

(** ** Python values and exceptions *)

(** Timestamps ([datetime]) as seconds on a discrete time line. *)
Definition datetime : Type := Z.

(** The exceptions the modelled code can raise. [HTTPException] carries
    the status code and the detail message given at the raise site. *)
Inductive exn : Type :=
  | HTTPException (status_code : Z) (detail : string)
  | TypeError (msg : string)
  | ZeroDivisionError
  | OverflowError
  | AttributeError
  | IntegrityError
  | ValidationError.

Inductive outcome (A : Type) : Type :=
  | Return (a : A)
  | Raise (e : exn).
Arguments Return {A} a.
Arguments Raise {A} e.

Definition HTTP_400_BAD_REQUEST : Z := 400.
Definition HTTP_401_UNAUTHORIZED : Z := 401.
Definition HTTP_403_FORBIDDEN : Z := 403.
Definition HTTP_404_NOT_FOUND : Z := 404.

(** *** Numbers

    The aggregate code mixes [int] and [float]: [(average or 0)] is the
    int [0] when the average is [None] or zero, and a float otherwise. *)
Inductive pynum : Type :=
  | PInt (z : Z)
  | PFloat (f : float).

(** The binary64 value of a natural number below 2^63 and of an integer
    of magnitude below 2^63, by the primitive conversion (exact below
    2^53, rounded to nearest, ties to even, above). *)
Abbreviation binary64 n := (PrimFloat.of_uint63 (Uint63.of_Z n)).
Abbreviation signed64 z :=
  (if z <? 0 then PrimFloat.opp (binary64 (- z)) else binary64 z).

(** The least magnitude that rounds past the largest finite binary64. *)
Definition FLOAT_OVERFLOW : Z := 2 ^ 1024 - 2 ^ 970.

(** [float(z)]: the binary64 nearest to an int of any size (ties to
    even), [OverflowError] when that is no finite number. *)
Definition nearest_binary64 (n : Z) : float :=
  SF2Prim (binary_normalize prec emax n 0 false).

Definition float_of_Z (z : Z) : outcome float :=
  if FLOAT_OVERFLOW <=? Z.abs z then Raise OverflowError
  else Return (if z <? 0 then PrimFloat.opp (nearest_binary64 (- z))
               else nearest_binary64 z).

Definition spec_of_Z (z : Z) : spec_float :=
  match z with
  | Z0 => S754_zero false
  | Zpos p => S754_finite false p 0
  | Zneg p => S754_finite true p 0
  end.

(** [a / b] for two ints: the exact quotient rounded once. As the
    interpreter does, operands below 2^53 are converted (exactly) and
    divided in binary64; larger ones are divided as integers and the
    quotient is rounded to nearest, ties to even. *)
Definition int_truediv (a b : Z) : outcome float :=
  if b =? 0 then Raise ZeroDivisionError
  else if (Z.abs a <? 2 ^ 53) && (Z.abs b <? 2 ^ 53) then
    Return (PrimFloat.div (signed64 a) (signed64 b))
  else if FLOAT_OVERFLOW * Z.abs b <=? Z.abs a then Raise OverflowError
  else Return (SF2Prim (SFdiv prec emax (spec_of_Z a) (spec_of_Z b))).

(** Truth value of a nullable float: [None], [0.0] and [-0.0] are falsy,
    everything else (NaN included) is truthy. *)
Definition float_truthy (x : option float) : option float :=
  match x with
  | None => None
  | Some f => if PrimFloat.eqb f PrimFloat.zero then None else Some f
  end.

(** [x or 0] *)
Definition or_zero (x : option float) : pynum :=
  match float_truthy x with
  | Some f => PFloat f
  | None => PInt 0
  end.

(** [x * n], [x + n] and [x / n] for an int [n]: int arithmetic when [x]
    is an int, and otherwise [n] is converted and the operation is the
    binary64 one. Float division by zero raises. *)
Definition py_mul (x : pynum) (n : Z) : outcome pynum :=
  match x with
  | PInt z => Return (PInt (z * n))
  | PFloat f =>
      match float_of_Z n with
      | Return g => Return (PFloat (PrimFloat.mul f g))
      | Raise e => Raise e
      end
  end.

Definition py_add (x : pynum) (n : Z) : outcome pynum :=
  match x with
  | PInt z => Return (PInt (z + n))
  | PFloat f =>
      match float_of_Z n with
      | Return g => Return (PFloat (PrimFloat.add f g))
      | Raise e => Raise e
      end
  end.

Definition py_truediv (x : pynum) (n : Z) : outcome float :=
  match x with
  | PInt z => int_truediv z n
  | PFloat f =>
      match float_of_Z n with
      | Return g =>
          if n =? 0 then Raise ZeroDivisionError
          else Return (PrimFloat.div f g)
      | Raise e => Raise e
      end
  end.

(** *** What the store can hold

    An INTEGER column holds a 64-bit signed value: binding a larger int
    raises [OverflowError] and the transaction is not committed. A REAL
    column holds every binary64 value but NaN, which is stored as NULL. *)
Definition INT64_MAX : Z := 2 ^ 63 - 1.

Definition sqlite_integer (z : Z) : bool :=
  (- 2 ^ 63 <=? z) && (z <=? INT64_MAX).

Definition sqlite_real (x : option float) : option float :=
  match x with
  | Some f => if PrimFloat.is_nan f then None else Some f
  | None => None
  end.

(** ** Models ([app/models])

    Every model inherits the columns of [Base]: [id], [created_at],
    [updated_at] and the nullable [deleted_at]. *)

Module City.
Record t : Type := mk {
  id : string;
  created_at : datetime;
  updated_at : datetime;
  deleted_at : option datetime;
  name : string;
  country : string;
  description : option string;
  latitude : option float;
  longitude : option float;
  average_rating : option float;
  review_count : Z
}.

Definition set_deleted_at (d : option datetime) (c : t) : t :=
  mk (id c) (created_at c) (updated_at c) d (name c) (country c)
     (description c) (latitude c) (longitude c) (average_rating c)
     (review_count c).

Definition set_updated_at (u : datetime) (c : t) : t :=
  mk (id c) (created_at c) u (deleted_at c) (name c) (country c)
     (description c) (latitude c) (longitude c) (average_rating c)
     (review_count c).

Definition set_aggregates (avg : option float) (n : Z) (c : t) : t :=
  mk (id c) (created_at c) (updated_at c) (deleted_at c) (name c)
     (country c) (description c) (latitude c) (longitude c) avg n.

(** Agreement on every column other than the three timestamps. *)
Definition same_fields (a b : t) : Prop :=
  id a = id b ∧ name a = name b ∧ country a = country b ∧
  description a = description b ∧ latitude a = latitude b ∧
  longitude a = longitude b ∧ average_rating a = average_rating b ∧
  review_count a = review_count b.
End City.

Module Review.
Record t : Type := mk {
  id : string;
  created_at : datetime;
  updated_at : datetime;
  deleted_at : option datetime;
  city_id : string;
  user_id : string;
  rating : Z;
  comment : option string
}.

Definition set_updated_at (u : datetime) (r : t) : t :=
  mk (id r) (created_at r) u (deleted_at r) (city_id r) (user_id r)
     (rating r) (comment r).

Definition set_rating (x : Z) (r : t) : t :=
  mk (id r) (created_at r) (updated_at r) (deleted_at r) (city_id r)
     (user_id r) x (comment r).

Definition set_comment (x : option string) (r : t) : t :=
  mk (id r) (created_at r) (updated_at r) (deleted_at r) (city_id r)
     (user_id r) (rating r) x.
End Review.

Inductive FlightStatus : Type :=
  | SCHEDULED | BOARDING | DEPARTED | ARRIVED | DELAYED | CANCELED.

Module Flight.
Record t : Type := mk {
  id : string;
  created_at : datetime;
  updated_at : datetime;
  deleted_at : option datetime;
  flight_number : string;
  airline : string;
  description : option string;
  origin_city_id : string;
  destination_city_id : string;
  status : FlightStatus;
  departure : datetime;
  arrival : datetime
}.

Definition set_deleted_at (d : option datetime) (f : t) : t :=
  mk (id f) (created_at f) (updated_at f) d (flight_number f) (airline f)
     (description f) (origin_city_id f) (destination_city_id f)
     (status f) (departure f) (arrival f).

Definition set_updated_at (u : datetime) (f : t) : t :=
  mk (id f) (created_at f) u (deleted_at f) (flight_number f) (airline f)
     (description f) (origin_city_id f) (destination_city_id f)
     (status f) (departure f) (arrival f).

Definition same_fields (a b : t) : Prop :=
  id a = id b ∧ flight_number a = flight_number b ∧
  airline a = airline b ∧ description a = description b ∧
  origin_city_id a = origin_city_id b ∧
  destination_city_id a = destination_city_id b ∧
  status a = status b ∧ departure a = departure b ∧
  arrival a = arrival b.
End Flight.

Module Post.
Record t : Type := mk {
  id : string;
  created_at : datetime;
  updated_at : datetime;
  deleted_at : option datetime;
  title : string;
  description : string;
  like_count : Z;
  user_id : string;
  flight_id : string
}.

Definition set_deleted_at (d : option datetime) (p : t) : t :=
  mk (id p) (created_at p) (updated_at p) d (title p) (description p)
     (like_count p) (user_id p) (flight_id p).

Definition set_updated_at (u : datetime) (p : t) : t :=
  mk (id p) (created_at p) u (deleted_at p) (title p) (description p)
     (like_count p) (user_id p) (flight_id p).

Definition set_title (x : string) (p : t) : t :=
  mk (id p) (created_at p) (updated_at p) (deleted_at p) x
     (description p) (like_count p) (user_id p) (flight_id p).

Definition set_description (x : string) (p : t) : t :=
  mk (id p) (created_at p) (updated_at p) (deleted_at p) (title p) x
     (like_count p) (user_id p) (flight_id p).

Definition set_like_count (n : Z) (p : t) : t :=
  mk (id p) (created_at p) (updated_at p) (deleted_at p) (title p)
     (description p) n (user_id p) (flight_id p).

Definition same_fields (a b : t) : Prop :=
  id a = id b ∧ title a = title b ∧ description a = description b ∧
  like_count a = like_count b ∧ user_id a = user_id b ∧
  flight_id a = flight_id b.
End Post.

Module Comment.
Record t : Type := mk {
  id : string;
  created_at : datetime;
  updated_at : datetime;
  deleted_at : option datetime;
  content : string;
  user_id : string;
  post_id : string
}.

Definition set_deleted_at (d : option datetime) (c : t) : t :=
  mk (id c) (created_at c) (updated_at c) d (content c) (user_id c)
     (post_id c).

Definition set_updated_at (u : datetime) (c : t) : t :=
  mk (id c) (created_at c) u (deleted_at c) (content c) (user_id c)
     (post_id c).

Definition set_content (x : string) (c : t) : t :=
  mk (id c) (created_at c) (updated_at c) (deleted_at c) x (user_id c)
     (post_id c).

Definition same_fields (a b : t) : Prop :=
  id a = id b ∧ content a = content b ∧ user_id a = user_id b ∧
  post_id a = post_id b.
End Comment.

(** [Like] has no [id] column; its primary key is [(user_id, post_id)]. *)
Module Like.
Record t : Type := mk {
  user_id : string;
  post_id : string;
  created_at : datetime;
  updated_at : datetime;
  deleted_at : option datetime
}.
End Like.

Module User.
Record t : Type := mk {
  id : string;
  created_at : datetime;
  updated_at : datetime;
  deleted_at : option datetime;
  email : string;
  hashed_password : string
}.
End User.

(** ** The store and the handler monad *)

Record Db : Type := mkDb {
  cities : gmap string City.t;
  reviews : gmap string Review.t;
  flights : gmap string Flight.t;
  posts : gmap string Post.t;
  comments : gmap string Comment.t;
  likes : gmap (string * string) Like.t;
  users : gmap string User.t
}.

Definition set_cities (f : gmap string City.t → gmap string City.t) (db : Db) : Db :=
  mkDb (f (cities db)) (reviews db) (flights db) (posts db) (comments db)
       (likes db) (users db).
Definition set_reviews (f : gmap string Review.t → gmap string Review.t) (db : Db) : Db :=
  mkDb (cities db) (f (reviews db)) (flights db) (posts db) (comments db)
       (likes db) (users db).
Definition set_flights (f : gmap string Flight.t → gmap string Flight.t) (db : Db) : Db :=
  mkDb (cities db) (reviews db) (f (flights db)) (posts db) (comments db)
       (likes db) (users db).
Definition set_posts (f : gmap string Post.t → gmap string Post.t) (db : Db) : Db :=
  mkDb (cities db) (reviews db) (flights db) (f (posts db)) (comments db)
       (likes db) (users db).
Definition set_comments (f : gmap string Comment.t → gmap string Comment.t) (db : Db) : Db :=
  mkDb (cities db) (reviews db) (flights db) (posts db) (f (comments db))
       (likes db) (users db).
Definition set_likes (f : gmap (string * string) Like.t → gmap (string * string) Like.t)
    (db : Db) : Db :=
  mkDb (cities db) (reviews db) (flights db) (posts db) (comments db)
       (f (likes db)) (users db).

(** What a request reads from outside the store: the interpreter's clock
    ([datetime.utcnow()]), the server's clock ([func.now()], used for
    [created_at] and on every UPDATE for [updated_at]) and the identifier
    drawn by [uuid.uuid4()] for a new row. *)
Record Env : Type := mkEnv {
  utcnow : datetime;
  db_now : datetime;
  uuid4 : string
}.

(** A handler runs against the committed store and yields a result or an
    exception together with the store as committed when it stops. *)
Definition handler (A : Type) : Type := Db → outcome A * Db.

Definition ret {A} (a : A) : handler A := λ db, (Return a, db).
Definition raise {A} (e : exn) : handler A := λ db, (Raise e, db).
Definition bind {A B} (m : handler A) (k : A → handler B) : handler B :=
  λ db, match m db with
        | (Return a, db') => k a db'
        | (Raise e, db') => (Raise e, db')
        end.
Definition query {A} (f : Db → A) : handler A := λ db, (Return (f db), db).
Definition commit (f : Db → Db) : handler unit := λ db, (Return tt, f db).
Definition lift {A} (o : outcome A) : handler A := λ db, (o, db).

Notation "'do' x <- m ; k" := (bind m (λ x, k))
  (at level 10, x name, m at level 100, k at level 200, only parsing).
Notation "'run' m ; k" := (bind m (λ _, k))
  (at level 10, m at level 100, k at level 200, only parsing).

(** [.filter(P).first()] on a table: some row satisfying [P], if any. *)
Definition first_where {K} `{Countable K} {V} (P : V → bool) (m : gmap K V) : option V :=
  head (filter (λ v, P v = true) (map_to_list m).*2).

(** ** Schemas ([app/schemas]) *)

(** [ReviewCreate]: [rating] (1 to 5) and an optional [comment]. *)
Record ReviewCreate : Type := mkReviewCreate {
  rc_rating : Z;
  rc_comment : option string
}.

(** [ReviewUpdate]: both fields optional, [None] meaning "leave as is". *)
Record ReviewUpdate : Type := mkReviewUpdate {
  ru_rating : option Z;
  ru_comment : option string
}.

Record ReviewRead : Type := mkReviewRead {
  rr_rating : Z;
  rr_comment : option string;
  rr_id : string;
  rr_city_id : string;
  rr_user_id : string;
  rr_created_at : datetime;
  rr_updated_at : datetime
}.

(** The constraints of [ReviewBase], checked whenever one of its
    subclasses is built: [ge=1, le=5] and [max_length=1000]. *)
Definition review_base_ok (rating : Z) (comment : option string) : bool :=
  (1 <=? rating) && (rating <=? 5) &&
  match comment with
  | None => true
  | Some s => (Z.of_nat (String.length s) <=? 1000)
  end.

(** [ReviewRead.model_validate(db_review)] *)
Definition ReviewRead_model_validate (r : Review.t) : outcome ReviewRead :=
  if review_base_ok (Review.rating r) (Review.comment r) then
    Return (mkReviewRead (Review.rating r) (Review.comment r) (Review.id r)
              (Review.city_id r) (Review.user_id r) (Review.created_at r)
              (Review.updated_at r))
  else Raise ValidationError.

(** [PostUpdate] and [CommentUpdate] are applied with
    [model_dump(exclude_unset=True)]: a field is absent ([None] here),
    or present with a value that may itself be null. *)
Record PostUpdate : Type := mkPostUpdate {
  pu_title : option (option string);
  pu_description : option (option string)
}.

Record CommentUpdate : Type := mkCommentUpdate {
  cu_content : option (option string)
}.

(** ** City handlers ([app/handlers/city.py]) *)

(** [db.add(db_city); db.commit(); db.refresh(db_city)] for a loaded
    city: the row is rewritten under its primary key and the server
    stamps [updated_at] ([onupdate=func.now()]). The stamp is modelled on
    every such commit; the properties below never read it. *)
Definition save_city (env : Env) (c : City.t) : handler City.t :=
  let c' := City.set_updated_at (db_now env) c in
  run commit (set_cities (insert (City.id c') c'));
  ret c'.

Definition get_city_by_id (city_id : string) : handler (option City.t) :=
  query (λ db,
    match cities db !! city_id with
    | Some c => if City.deleted_at c is None then Some c else None
    | None => None
    end).

Definition delete_city (env : Env) (db_city : City.t) : handler City.t :=
  if City.deleted_at db_city is None then
    save_city env (City.set_deleted_at (Some (utcnow env)) db_city)
  else ret db_city.

Definition restore_city (env : Env) (city_id : string) : handler (option City.t) :=
  do db_city <- query (λ db, cities db !! city_id);
  match db_city with
  | Some c =>
      if City.deleted_at c is Some _ then
        do c' <- save_city env (City.set_deleted_at None c);
        ret (Some c')
      else ret (Some c)
  | None => ret None
  end.

Definition reviewed_by (city_id user_id : string) (r : Review.t) : bool :=
  bool_decide (Review.city_id r = city_id) &&
  bool_decide (Review.user_id r = user_id).

(** The row of a city as the store holds it after its aggregates were
    assigned: a NaN average is stored as NULL. *)
Definition stored_city (env : Env) (c : City.t) : City.t :=
  City.set_updated_at (db_now env)
    (City.set_aggregates (sqlite_real (City.average_rating c))
       (City.review_count c) c).

(** The single commit of [add_review_to_city]: INSERT of the review under
    its fresh primary key and UPDATE of the city. A primary-key clash, or
    a rating or a count beyond the INTEGER range, aborts the transaction. *)
Definition insert_review_and_save_city (env : Env) (r : Review.t) (c : City.t)
    : handler Review.t :=
  do clash <- query (λ db, reviews db !! Review.id r);
  match clash with
  | Some _ => raise IntegrityError
  | None =>
      if sqlite_integer (Review.rating r) && sqlite_integer (City.review_count c)
      then
        let c' := stored_city env c in
        run commit (λ db, set_cities (insert (City.id c') c')
                            (set_reviews (insert (Review.id r) r) db));
        ret r
      else raise OverflowError
  end.

Definition add_review_to_city (env : Env) (city : City.t)
    (review_in : ReviewCreate) (user_id : string) : handler ReviewRead :=
  do existing <- query (λ db,
      first_where (reviewed_by (City.id city) user_id) (reviews db));
  match existing with
  | Some _ =>
      raise (HTTPException 400 "You have already reviewed this city")
  | None =>
      let db_review :=
        Review.mk (uuid4 env) (db_now env) (db_now env) None
          (City.id city) user_id (rc_rating review_in) (rc_comment review_in) in
      do current_total <- lift
        (py_mul (or_zero (City.average_rating city)) (City.review_count city));
      let new_count := City.review_count city + 1 in
      do new_total <- lift (py_add current_total (rc_rating review_in));
      do average <- lift (py_truediv new_total new_count);
      let city' := City.set_aggregates (Some average) new_count city in
      do db_review' <- insert_review_and_save_city env db_review city';
      lift (ReviewRead_model_validate db_review')
  end.

(** UPDATE of a review and of its city in one commit; a rating or a count
    beyond the INTEGER range aborts it. *)
Definition save_review_and_city (env : Env) (r : Review.t) (c : City.t)
    : handler Review.t :=
  if sqlite_integer (Review.rating r) && sqlite_integer (City.review_count c)
  then
    let r' := Review.set_updated_at (db_now env) r in
    let c' := stored_city env c in
    run commit (λ db, set_cities (insert (City.id c') c')
                        (set_reviews (insert (Review.id r') r') db));
    ret r'
  else raise OverflowError.

Definition update_review (env : Env) (review_id user_id : string)
    (review_in : ReviewUpdate) : handler ReviewRead :=
  do found <- query (λ db, reviews db !! review_id);
  match found with
  | None => raise (HTTPException 404 "Review not found")
  | Some db_review =>
      if bool_decide (Review.user_id db_review ≠ user_id) then
        raise (HTTPException 404 "Review not found")
      else
        let old_rating := Review.rating db_review in
        let new_rating := default old_rating (ru_rating review_in) in
        let delta := new_rating - old_rating in
        let db_review1 :=
          if ru_rating review_in is Some _
          then Review.set_rating new_rating db_review else db_review in
        let db_review2 :=
          if ru_comment review_in is Some s
          then Review.set_comment (Some s) db_review1 else db_review1 in
        do owner <- query (λ db, cities db !! Review.city_id db_review);
        match owner with
        | None => raise AttributeError
        | Some city =>
            do total_before <- lift
              (py_mul (or_zero (City.average_rating city))
                 (City.review_count city));
            do total_after <- lift (py_add total_before delta);
            do average <- lift (py_truediv total_after (City.review_count city));
            let city' :=
              City.set_aggregates (Some average) (City.review_count city) city in
            do db_review' <- save_review_and_city env db_review2 city';
            lift (ReviewRead_model_validate db_review')
        end
  end.

(** The route [POST /cities/{city_id}/reviews]. *)
Definition create_city_review (env : Env) (city_id : string)
    (review_in : ReviewCreate) (current_user : User.t) : handler ReviewRead :=
  do db_city <- get_city_by_id city_id;
  match db_city with
  | None => raise (HTTPException HTTP_404_NOT_FOUND "City not found")
  | Some c => add_review_to_city env c review_in (User.id current_user)
  end.

(** ** Like handler ([app/handlers/like.py])

    The like row and the post row are written in one commit; a counter
    beyond the INTEGER range makes the commit raise and nothing is
    written. *)

Definition toggle_like_post (env : Env) (db_post : Post.t) (user_id : string)
    : handler Post.t :=
  do existing_like <- query (λ db, likes db !! (user_id, Post.id db_post));
  let '(change_likes, db_post') :=
    match existing_like with
    | Some _ =>
        (delete (user_id, Post.id db_post),
         Post.set_like_count (Z.max 0 (Post.like_count db_post - 1)) db_post)
    | None =>
        let new_like :=
          Like.mk user_id (Post.id db_post) (db_now env) (db_now env) None in
        (insert (user_id, Post.id db_post) new_like,
         Post.set_like_count (Post.like_count db_post + 1) db_post)
    end in
  let saved := Post.set_updated_at (db_now env) db_post' in
  if sqlite_integer (Post.like_count saved) then
    run commit (λ db, set_posts (insert (Post.id saved) saved)
                        (set_likes change_likes db));
    ret saved
  else raise OverflowError.

(** ** Post handlers ([app/handlers/post.py]) *)

Definition save_post (env : Env) (p : Post.t) : handler Post.t :=
  let p' := Post.set_updated_at (db_now env) p in
  run commit (set_posts (insert (Post.id p') p'));
  ret p'.

Definition get_post_by_id (post_id : string) : handler (option Post.t) :=
  query (λ db,
    match posts db !! post_id with
    | Some p => if Post.deleted_at p is None then Some p else None
    | None => None
    end).

(** [setattr] of a dumped field: absent fields are skipped; a null written
    to a NOT NULL column is refused by the store at commit. *)
Definition apply_field {A} (set : string → A → A) (field : option (option string))
    (x : outcome A) : outcome A :=
  match x, field with
  | Return a, Some (Some v) => Return (set v a)
  | Return _, Some None => Raise IntegrityError
  | _, _ => x
  end.

Definition update_post (env : Env) (db_post : Post.t) (post_in : PostUpdate)
    (user_id : string) : handler Post.t :=
  if bool_decide (Post.user_id db_post ≠ user_id) then
    raise (HTTPException HTTP_403_FORBIDDEN "Not authorized to update this post")
  else
    do updated <- lift
      (apply_field Post.set_description (pu_description post_in)
         (apply_field Post.set_title (pu_title post_in) (Return db_post)));
    save_post env updated.

Definition soft_delete_post (env : Env) (db_post : Post.t) (user_id : string)
    : handler Post.t :=
  if bool_decide (Post.user_id db_post ≠ user_id) then
    raise (HTTPException HTTP_403_FORBIDDEN "Not authorized to delete this post")
  else if Post.deleted_at db_post is None then
    save_post env (Post.set_deleted_at (Some (utcnow env)) db_post)
  else ret db_post.

Definition restore_post (env : Env) (post_id user_id : string)
    : handler (option Post.t) :=
  do db_post <- query (λ db, posts db !! post_id);
  match db_post with
  | Some p =>
      if Post.deleted_at p is Some _ then
        if bool_decide (Post.user_id p ≠ user_id) then
          raise (HTTPException HTTP_403_FORBIDDEN
                   "Not authorized to restore this post")
        else
          do p' <- save_post env (Post.set_deleted_at None p);
          ret (Some p')
      else ret None
  | None => ret None
  end.

(** ** Comment handlers ([app/handlers/comment.py]) *)

Definition save_comment (env : Env) (c : Comment.t) : handler Comment.t :=
  let c' := Comment.set_updated_at (db_now env) c in
  run commit (set_comments (insert (Comment.id c') c'));
  ret c'.

Definition update_comment (env : Env) (db_comment : Comment.t)
    (comment_in : CommentUpdate) (user_id : string) : handler Comment.t :=
  if bool_decide (Comment.user_id db_comment ≠ user_id) then
    raise (HTTPException HTTP_403_FORBIDDEN
             "Not authorized to update this comment")
  else
    do updated <- lift
      (apply_field Comment.set_content (cu_content comment_in)
         (Return db_comment));
    save_comment env updated.

Definition soft_delete_comment (env : Env) (db_comment : Comment.t)
    (user_id : string) : handler Comment.t :=
  if bool_decide (Comment.user_id db_comment ≠ user_id) then
    raise (HTTPException HTTP_403_FORBIDDEN
             "Not authorized to delete this comment")
  else if Comment.deleted_at db_comment is None then
    save_comment env (Comment.set_deleted_at (Some (utcnow env)) db_comment)
  else ret db_comment.

Definition restore_comment (env : Env) (db_comment : Comment.t)
    (user_id : string) : handler Comment.t :=
  if bool_decide (Comment.user_id db_comment ≠ user_id) then
    raise (HTTPException HTTP_403_FORBIDDEN
             "Not authorized to restore this comment")
  else if Comment.deleted_at db_comment is Some _ then
    save_comment env (Comment.set_deleted_at None db_comment)
  else ret db_comment.

(** ** Flight handlers ([app/handlers/flight.py]) *)

Definition save_flight (env : Env) (f : Flight.t) : handler Flight.t :=
  let f' := Flight.set_updated_at (db_now env) f in
  run commit (set_flights (insert (Flight.id f') f'));
  ret f'.

Definition soft_delete_flight (env : Env) (db_flight : Flight.t)
    : handler Flight.t :=
  if Flight.deleted_at db_flight is None then
    save_flight env (Flight.set_deleted_at (Some (utcnow env)) db_flight)
  else ret db_flight.

Definition restore_flight (env : Env) (flight_id : string)
    : handler (option Flight.t) :=
  do db_flight <- query (λ db, flights db !! flight_id);
  match db_flight with
  | Some f =>
      if Flight.deleted_at f is Some _ then
        do f' <- save_flight env (Flight.set_deleted_at None f);
        ret (Some f')
      else ret None
  | None => ret None
  end.

(** ** Calls with keyword arguments

    The routes call the paginating handlers with keyword arguments only.
    A call binds each keyword to the parameter of that name; a keyword
    that names no parameter is a [TypeError] (neither handler declares
    [**kwargs]), as is a second value for a parameter or a parameter left
    without value and without default. *)

Inductive pyval : Type :=
  | PyNone
  | PyInt (z : Z)
  | PyStr (s : string)
  | PySession.

Inductive param_kind : Type := POSITIONAL_OR_KEYWORD | KEYWORD_ONLY.

Record param : Type := mkParam {
  p_name : string;
  p_kind : param_kind;
  p_default : option pyval
}.

Record pyfunction (A : Type) : Type := mkFunction {
  fn_name : string;
  fn_params : list param;
  fn_code : gmap string pyval → handler A
}.
Arguments mkFunction {A} _ _ _.
Arguments fn_name {A} _.
Arguments fn_params {A} _.
Arguments fn_code {A} _.

Definition has_param (params : list param) (k : string) : bool :=
  existsb (λ p, bool_decide (p_name p = k)) params.

Fixpoint bind_keywords (fname : string) (params : list param)
    (kwargs : list (string * pyval)) (locals : gmap string pyval)
    : outcome (gmap string pyval) :=
  match kwargs with
  | [] => Return locals
  | (k, v) :: rest =>
      if negb (has_param params k) then
        Raise (TypeError (fname +:+ "() got an unexpected keyword argument '"
                            +:+ k +:+ "'"))
      else if locals !! k is Some _ then
        Raise (TypeError (fname +:+ "() got multiple values for argument '"
                            +:+ k +:+ "'"))
      else bind_keywords fname params rest (<[k := v]> locals)
  end.

Fixpoint fill_defaults (fname : string) (params : list param)
    (locals : gmap string pyval) : outcome (gmap string pyval) :=
  match params with
  | [] => Return locals
  | p :: rest =>
      match locals !! p_name p, p_default p with
      | Some _, _ => fill_defaults fname rest locals
      | None, Some d => fill_defaults fname rest (<[p_name p := d]> locals)
      | None, None =>
          Raise (TypeError (fname +:+ "() missing 1 required argument: '"
                              +:+ p_name p +:+ "'"))
      end
  end.

Definition call {A} (f : pyfunction A) (kwargs : list (string * pyval))
    : handler A :=
  match bind_keywords (fn_name f) (fn_params f) kwargs ∅ with
  | Raise e => raise e
  | Return bound =>
      match fill_defaults (fn_name f) (fn_params f) bound with
      | Raise e => raise e
      | Return locals => fn_code f locals
      end
  end.

(** ** Pagination ([get_posts_paginated], [get_flights_paginated]) *)

(** The dict [{"items", "total", "page", "size"}] the handlers return. *)
Record page_data (A : Type) : Type := mkPage {
  items : list A;
  total : Z;
  page : Z;
  size : Z
}.
Arguments mkPage {A} _ _ _ _.

Definition int_arg (locals : gmap string pyval) (k : string) : outcome Z :=
  match locals !! k with
  | Some (PyInt z) => Return z
  | _ => Raise (TypeError "unsupported operand type(s)")
  end.

(** Truth value of an optional string filter: [None] and [''] are falsy. *)
Definition str_filter (locals : gmap string pyval) (k : string) : option string :=
  match locals !! k with
  | Some (PyStr s) => if bool_decide (s = "") then None else Some s
  | _ => None
  end.

(** [.offset(offset).limit(size)] for the non-negative values the routes
    let through ([page >= 1], [1 <= size <= 100]). *)
Definition offset_limit {A} (offset size : Z) (rows : list A) : list A :=
  take (Z.to_nat size) (drop (Z.to_nat offset) rows).

Definition newest_first (a b : Post.t) : Prop :=
  Post.created_at b ≤ Post.created_at a.
Definition earliest_departure (a b : Flight.t) : Prop :=
  Flight.departure a ≤ Flight.departure b.

#[local] Instance newest_first_dec : RelDecision newest_first.
Proof. intros a b. unfold newest_first. apply _. Defined.
#[local] Instance earliest_departure_dec : RelDecision earliest_departure.
Proof. intros a b. unfold earliest_departure. apply _. Defined.

Definition get_posts_paginated_code (locals : gmap string pyval)
    : handler (page_data Post.t) :=
  do page <- lift (int_arg locals "page");
  do size <- lift (int_arg locals "size");
  let offset := (page - 1) * size in
  do base_query <- query (λ db,
      filter (λ p : Post.t, Post.deleted_at p = None) (map_to_list (posts db)).*2);
  let base_query :=
    match str_filter locals "flight_id" with
    | Some fid => filter (λ p : Post.t, Post.flight_id p = fid) base_query
    | None => base_query
    end in
  let total := Z.of_nat (length base_query) in
  let items := offset_limit offset size (merge_sort newest_first base_query) in
  ret (mkPage items total page size).

(** [def get_posts_paginated(db, page, size, *, flight_id=None)] *)
Definition get_posts_paginated : pyfunction (page_data Post.t) :=
  mkFunction "get_posts_paginated"
    [ mkParam "db" POSITIONAL_OR_KEYWORD None;
      mkParam "page" POSITIONAL_OR_KEYWORD None;
      mkParam "size" POSITIONAL_OR_KEYWORD None;
      mkParam "flight_id" KEYWORD_ONLY (Some PyNone) ]
    get_posts_paginated_code.

Definition get_flights_paginated_code (locals : gmap string pyval)
    : handler (page_data Flight.t) :=
  do page <- lift (int_arg locals "page");
  do size <- lift (int_arg locals "size");
  let offset := (page - 1) * size in
  do base_query <- query (λ db,
      filter (λ f : Flight.t, Flight.deleted_at f = None)
        (map_to_list (flights db)).*2);
  let total := Z.of_nat (length base_query) in
  let items :=
    offset_limit offset size (merge_sort earliest_departure base_query) in
  ret (mkPage items total page size).

(** [def get_flights_paginated(db, page, size)] *)
Definition get_flights_paginated : pyfunction (page_data Flight.t) :=
  mkFunction "get_flights_paginated"
    [ mkParam "db" POSITIONAL_OR_KEYWORD None;
      mkParam "page" POSITIONAL_OR_KEYWORD None;
      mkParam "size" POSITIONAL_OR_KEYWORD None ]
    get_flights_paginated_code.

Definition opt_str (x : option string) : pyval :=
  match x with
  | Some s => PyStr s
  | None => PyNone
  end.

(** The route [GET /posts/] starts by calling the handler with its query
    parameters as keywords; the response model would be built from the
    dict the call returns. *)
Definition list_posts (page size : Z) (flight_id q author_id : option string)
    : handler (page_data Post.t) :=
  call get_posts_paginated
    [ ("db", PySession); ("page", PyInt page); ("size", PyInt size);
      ("flight_id", opt_str flight_id); ("q", opt_str q);
      ("author_id", opt_str author_id) ].

(** [get_flights_paginated] called with the keywords its signature has,
    as the route [GET /flights/] calls it. What the route then makes of
    the dict (the response model with the cities of each flight) is not
    part of this. *)
Definition flights_page (page size : Z) : handler (page_data Flight.t) :=
  call get_flights_paginated
    [ ("db", PySession); ("page", PyInt page); ("size", PyInt size) ].

(** ** Authentication ([app/handlers/auth.py], [app/config/auth.py]) *)

Section Auth.
(** The library calls: [pwd_context.verify] (bcrypt), [jwt.decode] with
    the public key ([None] when it raises [JWTError]: bad signature,
    malformed or expired token) and the [EmailStr] validator, which
    accepts an address or not and, for an address it accepts, yields its
    normal form (the domain in lower case). *)
Variable verify_password : string → string → bool.
Variable jwt_decode : string → option (gmap string pyval).
Variable valid_email : string → bool.
Variable normalize_email : string → string.

Definition email_is (email : string) (u : User.t) : bool :=
  bool_decide (User.email u = email).

Definition get_user_by_email (email : string) : handler (option User.t) :=
  query (λ db, first_where (email_is email) (users db)).

Definition authenticate_user (email password : string) : handler User.t :=
  do user <- get_user_by_email email;
  match user with
  | Some u =>
      if negb (verify_password password (User.hashed_password u)) then
        raise (HTTPException HTTP_401_UNAUTHORIZED "Incorrect email or password")
      else ret u
  | None =>
      raise (HTTPException HTTP_401_UNAUTHORIZED "Incorrect email or password")
  end.

(** [verify_token]; the result is the [email] of the [TokenData] built
    from the subject, that is the subject as [EmailStr] normalises it. *)
Definition verify_token (token : string) (credentials_exception : exn)
    : outcome string :=
  match jwt_decode token with
  | None => Raise credentials_exception
  | Some payload =>
      match payload !! "sub" with
      | None | Some PyNone => Raise credentials_exception
      | Some (PyStr email) =>
          if valid_email email then Return (normalize_email email)
          else Raise ValidationError
      | Some _ => Raise ValidationError
      end
  end.

Definition get_current_active_user (token : string) : handler User.t :=
  let credentials_exception :=
    HTTPException HTTP_401_UNAUTHORIZED "Could not validate credentials" in
  do email <- lift (verify_token token credentials_exception);
  do user <- get_user_by_email email;
  match user with
  | None => raise credentials_exception
  | Some u => ret u
  end.
End Auth.

(** ** Sequences of review submissions *)

(** One request to [POST /cities/{city_id}/reviews]: what the request
    reads from outside, the authenticated user and the payload. *)
Record submission : Type := mkSubmission {
  sub_env : Env;
  sub_user : User.t;
  sub_review : ReviewCreate
}.

Fixpoint submit_reviews (city_id : string) (subs : list submission)
    : handler (list ReviewRead) :=
  match subs with
  | [] => ret []
  | s :: rest =>
      do r <- create_city_review (sub_env s) city_id (sub_review s) (sub_user s);
      do rs <- submit_reviews city_id rest;
      ret (r :: rs)
  end.

Definition ratings (subs : list submission) : list Z :=
  map (λ s, rc_rating (sub_review s)) subs.

Definition sum_Z (l : list Z) : Z := foldr Z.add 0 l.

(** [mean(r1..rN)]: the sum of the ratings over their number, in
    binary64 (the correctly rounded quotient, both being exact). *)
Definition mean (rs : list Z) : float :=
  PrimFloat.div (binary64 (sum_Z rs)) (binary64 (Z.of_nat (length rs))).

(** The average [add_review_to_city] assigns, as a function of the stored
    fields and the new rating, and the one [update_review] assigns for a
    rating change of [delta]. *)
Definition average_after_add (average : option float) (review_count rating : Z)
    : outcome float :=
  match py_mul (or_zero average) review_count with
  | Return current_total =>
      match py_add current_total rating with
      | Return new_total => py_truediv new_total (review_count + 1)
      | Raise e => Raise e
      end
  | Raise e => Raise e
  end.

Definition average_after_update (average : option float) (review_count delta : Z)
    : outcome float :=
  match py_mul (or_zero average) review_count with
  | Return total_before =>
      match py_add total_before delta with
      | Return total_after => py_truediv total_after review_count
      | Raise e => Raise e
      end
  | Raise e => Raise e
  end.

(** *** The averages a sequence of ratings can leave

    The stored average after [k] reviews depends on the order of the
    ratings. The pairs (sum of the ratings, stored average) that [k]
    ratings between 1 and 5 can leave are few, and are enumerated level by
    level: [running_average] is the binary64 computation of one more
    review on a non-zero average. *)
Definition running_average (a : float) (k r : Z) : float :=
  PrimFloat.div (PrimFloat.add (PrimFloat.mul a (binary64 k)) (binary64 r))
    (binary64 (k + 1)).

Definition aggregate : Type := Z * float.

Definition aggregate_leb (x y : aggregate) : bool :=
  (x.1 <? y.1) || ((x.1 =? y.1) && PrimFloat.leb x.2 y.2).
Definition aggregate_le (x y : aggregate) : Prop := Is_true (aggregate_leb x y).
#[local] Instance aggregate_le_dec : RelDecision aggregate_le.
Proof. intros x y. unfold aggregate_le. apply _. Defined.

Definition same_aggregate (x y : aggregate) : bool :=
  (x.1 =? y.1) && PrimFloat.Leibniz.eqb x.2 y.2.

Fixpoint dedup_adjacent (l : list aggregate) : list aggregate :=
  match l with
  | x :: rest =>
      match rest with
      | y :: _ => if same_aggregate x y then dedup_adjacent rest
                  else x :: dedup_adjacent rest
      | [] => l
      end
  | [] => []
  end.

(** The ratings [ReviewCreate] lets through. *)
Definition RATINGS : list Z := [1; 2; 3; 4; 5].

Definition successors (k : Z) (st : aggregate) : list aggregate :=
  (λ r, (st.1 + r, running_average st.2 k r)) <$> RATINGS.

Definition next_level (k : Z) (sts : list aggregate) : list aggregate :=
  dedup_adjacent (merge_sort aggregate_le (sts ≫= successors k)).

(** What is checked of an average [a] stored after [k] ratings of sum
    [s]: it is a non-zero number, within [k * 2^-52] of the mean [s / k],
    and equal to it when [k] is at most 7. *)
Definition near_mean (k : Z) (st : aggregate) : bool :=
  let m := PrimFloat.div (binary64 st.1) (binary64 k) in
  negb (PrimFloat.is_nan st.2) && negb (PrimFloat.eqb st.2 0) &&
  PrimFloat.leb (PrimFloat.abs (PrimFloat.sub st.2 m))
    (PrimFloat.mul (binary64 k) 0x1p-52) &&
  ((7 <? k) || PrimFloat.Leibniz.eqb st.2 m).

Fixpoint explore (fuel : nat) (k : Z) (sts : list aggregate) : bool :=
  forallb (near_mean k) sts &&
  match fuel with
  | O => true
  | S n => explore n (k + 1) (next_level k sts)
  end.

(** After the first review of a city without average the average is the
    rating itself. *)
Definition first_level : list aggregate :=
  (λ r, (r, PrimFloat.div (binary64 r) (binary64 1))) <$> RATINGS.

Definition submitter (s : submission) : string := User.id (sub_user s).
Definition review_id_of (s : submission) : string := uuid4 (sub_env s).

(** What makes a sequence of submissions succeed on a store: distinct
    users none of whom has reviewed the city yet, distinct fresh review
    identifiers, and payloads that passed the [ReviewCreate] validation. *)
Definition may_submit (city_id : string) (db : Db) (s : submission) : Prop :=
  reviews db !! review_id_of s = None ∧
  review_base_ok (rc_rating (sub_review s)) (rc_comment (sub_review s)) = true ∧
  ∀ k r, reviews db !! k = Some r →
    Review.city_id r = city_id → Review.user_id r ≠ submitter s.

Definition submissions_ok (city_id : string) (db : Db) (subs : list submission)
    : Prop :=
  NoDup (map submitter subs) ∧ NoDup (map review_id_of subs) ∧
  Forall (may_submit city_id db) subs.

(** ** Composite operations the properties speak about *)

Definition toggle_like_twice (env1 env2 : Env) (db_post : Post.t)
    (user_id : string) : handler Post.t :=
  do once <- toggle_like_post env1 db_post user_id;
  toggle_like_post env2 once user_id.

Definition delete_then_restore_city (env1 env2 : Env) (c : City.t)
    : handler (option City.t) :=
  do deleted <- delete_city env1 c;
  restore_city env2 (City.id deleted).

Definition delete_then_restore_flight (env1 env2 : Env) (f : Flight.t)
    : handler (option Flight.t) :=
  do deleted <- soft_delete_flight env1 f;
  restore_flight env2 (Flight.id deleted).

Definition delete_then_restore_post (env1 env2 : Env) (p : Post.t)
    (user_id : string) : handler (option Post.t) :=
  do deleted <- soft_delete_post env1 p user_id;
  restore_post env2 (Post.id deleted) user_id.

(** ** Further handlers of the same modules

    The store has no foreign-key enforcement (the engine is configured for
    SQLite, which leaves it off), so an INSERT fails only on a primary-key
    clash. *)

Record PostCreate : Type := mkPostCreate {
  pc_title : string;
  pc_description : string;
  pc_flight_id : string
}.

Record CommentCreate : Type := mkCommentCreate {
  cc_content : string
}.

Definition get_flight_by_id (flight_id : string) : handler (option Flight.t) :=
  query (λ db,
    match flights db !! flight_id with
    | Some f => if Flight.deleted_at f is None then Some f else None
    | None => None
    end).

Definition get_comment_by_id (comment_id : string) : handler (option Comment.t) :=
  query (λ db,
    match comments db !! comment_id with
    | Some c => if Comment.deleted_at c is None then Some c else None
    | None => None
    end).

(** [db.add(db_post); db.commit(); db.refresh(db_post)] for a new post. *)
Definition insert_post (p : Post.t) : handler Post.t :=
  do clash <- query (λ db, posts db !! Post.id p);
  match clash with
  | Some _ => raise IntegrityError
  | None =>
      run commit (set_posts (insert (Post.id p) p));
      ret p
  end.

Definition create_post (env : Env) (post_in : PostCreate) (user_id : string)
    : handler Post.t :=
  do flight <- get_flight_by_id (pc_flight_id post_in);
  match flight with
  | None =>
      raise (HTTPException HTTP_404_NOT_FOUND
               ("Flight with ID " +:+ pc_flight_id post_in +:+ " not found."))
  | Some _ =>
      insert_post
        (Post.mk (uuid4 env) (db_now env) (db_now env) None
           (pc_title post_in) (pc_description post_in) 0 user_id
           (pc_flight_id post_in))
  end.

Definition create_comment (env : Env) (comment_in : CommentCreate)
    (post_id user_id : string) : handler Comment.t :=
  let db_comment :=
    Comment.mk (uuid4 env) (db_now env) (db_now env) None
      (cc_content comment_in) user_id post_id in
  do clash <- query (λ db, comments db !! Comment.id db_comment);
  match clash with
  | Some _ => raise IntegrityError
  | None =>
      run commit (set_comments (insert (Comment.id db_comment) db_comment));
      ret db_comment
  end.

(** ** Routes that answer with a message ([app/routes]) *)

Module CityRoutes.
(** [DELETE /cities/{city_id}] *)
Definition delete_city (env : Env) (city_id : string) : handler string :=
  do db_city <- get_city_by_id city_id;
  match db_city with
  | None => raise (HTTPException HTTP_404_NOT_FOUND "City not found")
  | Some c =>
      run delete_city env c;
      ret "City successfully deleted"
  end.
End CityRoutes.

Module FlightRoutes.
(** [DELETE /flights/{flight_id}] *)
Definition delete_flight (env : Env) (flight_id : string) : handler string :=
  do db_flight <- get_flight_by_id flight_id;
  match db_flight with
  | None => raise (HTTPException HTTP_404_NOT_FOUND "Flight not found")
  | Some f =>
      run soft_delete_flight env f;
      ret "Flight successfully deleted"
  end.
End FlightRoutes.

Module PostRoutes.
(** [DELETE /posts/{post_id}] *)
Definition delete_post (env : Env) (post_id : string) (current_user : User.t)
    : handler string :=
  do db_post <- get_post_by_id post_id;
  match db_post with
  | None => raise (HTTPException HTTP_404_NOT_FOUND "Post not found")
  | Some p =>
      run soft_delete_post env p (User.id current_user);
      ret "Post successfully deleted"
  end.

(** The lookup and the path check shared by the comment routes. *)
Definition comment_of_post (post_id comment_id : string) : handler Comment.t :=
  do db_comment <- get_comment_by_id comment_id;
  match db_comment with
  | None => raise (HTTPException HTTP_404_NOT_FOUND "Comment not found")
  | Some c =>
      if bool_decide (Comment.post_id c ≠ post_id) then
        raise (HTTPException HTTP_400_BAD_REQUEST
                 "Comment does not belong to the specified post")
      else ret c
  end.

(** [DELETE /posts/{post_id}/comments/{comment_id}/delete] *)
Definition delete_comment (env : Env) (post_id comment_id : string)
    (current_user : User.t) : handler string :=
  do c <- comment_of_post post_id comment_id;
  run soft_delete_comment env c (User.id current_user);
  ret "Comment successfully deleted".

(** [POST /posts/{post_id}/comments/{comment_id}/restore] *)
Definition restore_comment (env : Env) (post_id comment_id : string)
    (current_user : User.t) : handler string :=
  do c <- comment_of_post post_id comment_id;
  if Comment.deleted_at c is None then
    raise (HTTPException HTTP_400_BAD_REQUEST "Comment is not deleted")
  else
    run restore_comment env c (User.id current_user);
    ret "Comment successfully restored".
End PostRoutes.

(** ** Row counts behind the aggregates *)

(** Number of like rows of a post and of review rows of a city. *)
Definition like_rows (post_id : string) (db : Db) : nat :=
  base.size
    (filter (λ kv : (string * string) * Like.t, kv.1.2 = post_id) (likes db)).

Definition review_rows (city_id : string) (db : Db) : nat :=
  base.size
    (filter (λ kv : string * Review.t, Review.city_id kv.2 = city_id)
       (reviews db)).

(** At most one review row per user and city. *)
Definition one_review_per_user (db : Db) : Prop :=
  ∀ k1 k2 r1 r2,
    reviews db !! k1 = Some r1 → reviews db !! k2 = Some r2 →
    Review.city_id r1 = Review.city_id r2 →
    Review.user_id r1 = Review.user_id r2 → k1 = k2.

(** ** Creating and updating flights ([app/handlers/flight.py]) *)

Record FlightCreate : Type := mkFlightCreate {
  fc_flight_number : string;
  fc_airline : string;
  fc_description : option string;
  fc_origin_city_id : string;
  fc_destination_city_id : string;
  fc_status : FlightStatus;
  fc_departure : datetime;
  fc_arrival : datetime
}.

(** [FlightUpdate], dumped with [exclude_unset=True]: each field is
    absent, or present with a value that may be null. *)
Record FlightUpdate : Type := mkFlightUpdate {
  fu_flight_number : option (option string);
  fu_airline : option (option string);
  fu_description : option (option string);
  fu_origin_city_id : option (option string);
  fu_destination_city_id : option (option string);
  fu_status : option (option FlightStatus);
  fu_departure : option (option datetime);
  fu_arrival : option (option datetime)
}.

Module FlightCols.
Definition set_flight_number (x : string) (f : Flight.t) : Flight.t :=
  Flight.mk (Flight.id f) (Flight.created_at f) (Flight.updated_at f)
    (Flight.deleted_at f) x (Flight.airline f) (Flight.description f)
    (Flight.origin_city_id f) (Flight.destination_city_id f) (Flight.status f)
    (Flight.departure f) (Flight.arrival f).
Definition set_airline (x : string) (f : Flight.t) : Flight.t :=
  Flight.mk (Flight.id f) (Flight.created_at f) (Flight.updated_at f)
    (Flight.deleted_at f) (Flight.flight_number f) x (Flight.description f)
    (Flight.origin_city_id f) (Flight.destination_city_id f) (Flight.status f)
    (Flight.departure f) (Flight.arrival f).
Definition set_description (x : option string) (f : Flight.t) : Flight.t :=
  Flight.mk (Flight.id f) (Flight.created_at f) (Flight.updated_at f)
    (Flight.deleted_at f) (Flight.flight_number f) (Flight.airline f) x
    (Flight.origin_city_id f) (Flight.destination_city_id f) (Flight.status f)
    (Flight.departure f) (Flight.arrival f).
Definition set_origin_city_id (x : string) (f : Flight.t) : Flight.t :=
  Flight.mk (Flight.id f) (Flight.created_at f) (Flight.updated_at f)
    (Flight.deleted_at f) (Flight.flight_number f) (Flight.airline f)
    (Flight.description f) x (Flight.destination_city_id f) (Flight.status f)
    (Flight.departure f) (Flight.arrival f).
Definition set_destination_city_id (x : string) (f : Flight.t) : Flight.t :=
  Flight.mk (Flight.id f) (Flight.created_at f) (Flight.updated_at f)
    (Flight.deleted_at f) (Flight.flight_number f) (Flight.airline f)
    (Flight.description f) (Flight.origin_city_id f) x (Flight.status f)
    (Flight.departure f) (Flight.arrival f).
Definition set_status (x : FlightStatus) (f : Flight.t) : Flight.t :=
  Flight.mk (Flight.id f) (Flight.created_at f) (Flight.updated_at f)
    (Flight.deleted_at f) (Flight.flight_number f) (Flight.airline f)
    (Flight.description f) (Flight.origin_city_id f)
    (Flight.destination_city_id f) x (Flight.departure f) (Flight.arrival f).
Definition set_departure (x : datetime) (f : Flight.t) : Flight.t :=
  Flight.mk (Flight.id f) (Flight.created_at f) (Flight.updated_at f)
    (Flight.deleted_at f) (Flight.flight_number f) (Flight.airline f)
    (Flight.description f) (Flight.origin_city_id f)
    (Flight.destination_city_id f) (Flight.status f) x (Flight.arrival f).
Definition set_arrival (x : datetime) (f : Flight.t) : Flight.t :=
  Flight.mk (Flight.id f) (Flight.created_at f) (Flight.updated_at f)
    (Flight.deleted_at f) (Flight.flight_number f) (Flight.airline f)
    (Flight.description f) (Flight.origin_city_id f)
    (Flight.destination_city_id f) (Flight.status f) (Flight.departure f) x.
End FlightCols.

(** [check_cities_exist]: the two ids are put in a set, the primary keys
    of the cities among them are selected, and the two sizes compared. An
    id may be [None] when an update sets it to null; no primary key is
    null. Soft-deleted cities are selected like the others. *)
Definition check_cities_exist (origin_city_id destination_city_id : option string)
    : handler unit :=
  let city_ids : gset (option string) :=
    {[ origin_city_id ]} ∪ {[ destination_city_id ]} in
  do found_cities <- query (λ db,
      filter (λ k, Some k ∈ city_ids) (map_to_list (cities db)).*1);
  if bool_decide (length found_cities ≠ base.size city_ids) then
    raise (HTTPException HTTP_404_NOT_FOUND
             "Origin or destination city not found.")
  else ret tt.

Definition has_flight_number (n : string) (f : Flight.t) : bool :=
  bool_decide (Flight.flight_number f = n).

Definition create_flight (env : Env) (flight_in : FlightCreate)
    : handler Flight.t :=
  do existing_flight <- query (λ db,
      first_where (has_flight_number (fc_flight_number flight_in)) (flights db));
  match existing_flight with
  | Some _ =>
      raise (HTTPException HTTP_400_BAD_REQUEST
               "Flight with this flight number already exists.")
  | None =>
      run check_cities_exist (Some (fc_origin_city_id flight_in))
            (Some (fc_destination_city_id flight_in));
      let db_flight :=
        Flight.mk (uuid4 env) (db_now env) (db_now env) None
          (fc_flight_number flight_in) (fc_airline flight_in)
          (fc_description flight_in) (fc_origin_city_id flight_in)
          (fc_destination_city_id flight_in) (fc_status flight_in)
          (fc_departure flight_in) (fc_arrival flight_in) in
      do clash <- query (λ db, flights db !! Flight.id db_flight);
      match clash with
      | Some _ => raise IntegrityError
      | None =>
          run commit (set_flights (insert (Flight.id db_flight) db_flight));
          ret db_flight
      end
  end.

(** [setattr] of a dumped field on a NOT NULL column, and on the nullable
    [description]. *)
Definition apply_column {A V} (set : V → A → A) (field : option (option V))
    (x : outcome A) : outcome A :=
  match x, field with
  | Return a, Some (Some v) => Return (set v a)
  | Return _, Some None => Raise IntegrityError
  | _, _ => x
  end.

Definition apply_nullable {A V} (set : option V → A → A)
    (field : option (option V)) (x : outcome A) : outcome A :=
  match x, field with
  | Return a, Some v => Return (set v a)
  | _, _ => x
  end.

Definition apply_flight_update (flight_in : FlightUpdate) (f : Flight.t)
    : outcome Flight.t :=
  apply_column FlightCols.set_arrival (fu_arrival flight_in)
    (apply_column FlightCols.set_departure (fu_departure flight_in)
       (apply_column FlightCols.set_status (fu_status flight_in)
          (apply_column FlightCols.set_destination_city_id
             (fu_destination_city_id flight_in)
             (apply_column FlightCols.set_origin_city_id
                (fu_origin_city_id flight_in)
                (apply_nullable FlightCols.set_description
                   (fu_description flight_in)
                   (apply_column FlightCols.set_airline (fu_airline flight_in)
                      (apply_column FlightCols.set_flight_number
                         (fu_flight_number flight_in) (Return f)))))))).

Definition update_flight (env : Env) (db_flight : Flight.t)
    (flight_in : FlightUpdate) : handler Flight.t :=
  do existing <- query (λ db,
      match fu_flight_number flight_in with
      | Some (Some n) =>
          if bool_decide (n ≠ Flight.flight_number db_flight)
          then first_where (has_flight_number n) (flights db) else None
      | _ => None
      end);
  match existing with
  | Some _ =>
      raise (HTTPException HTTP_400_BAD_REQUEST
               "Flight with this flight number already exists.")
  | None =>
      run (if bool_decide (is_Some (fu_origin_city_id flight_in)) ||
              bool_decide (is_Some (fu_destination_city_id flight_in))
           then
             check_cities_exist
               (default (Some (Flight.origin_city_id db_flight))
                  (fu_origin_city_id flight_in))
               (default (Some (Flight.destination_city_id db_flight))
                  (fu_destination_city_id flight_in))
           else ret tt);
      do updated <- lift (apply_flight_update flight_in db_flight);
      save_flight env updated
  end.

(** The value a dumped field leaves in a column when the update goes
    through. *)
Definition patch_column {A V} (set : V → A → A) (field : option (option V))
    (a : A) : A :=
  match field with
  | Some (Some v) => set v a
  | _ => a
  end.

Definition patch_nullable {A V} (set : option V → A → A)
    (field : option (option V)) (a : A) : A :=
  match field with
  | Some v => set v a
  | None => a
  end.

(** The title and description a post update asks for. *)
Definition patched_title (post_in : PostUpdate) (p : Post.t) : string :=
  if pu_title post_in is Some (Some t) then t else Post.title p.
Definition patched_description (post_in : PostUpdate) (p : Post.t) : string :=
  if pu_description post_in is Some (Some d) then d else Post.description p.

(** ** Creating and updating cities ([app/handlers/city.py])

    Cities own photos, which live in a table of their own beside the
    tables above. *)

Module Photo.
Record t : Type := mk {
  id : string;
  created_at : datetime;
  updated_at : datetime;
  deleted_at : option datetime;
  city_id : string;
  url : string;
  caption : option string;
  position : Z
}.
End Photo.

Record Store : Type := mkStore {
  st_db : Db;
  st_photos : gmap string Photo.t
}.

Record PhotoBase : Type := mkPhotoBase {
  pb_url : string;
  pb_caption : option string;
  pb_position : Z
}.

(** [CityCreate]; [photos] may be sent as null. *)
Record CityCreate : Type := mkCityCreate {
  cic_name : string;
  cic_country : string;
  cic_description : option string;
  cic_latitude : option float;
  cic_longitude : option float;
  cic_photos : option (list PhotoBase)
}.

(** [CityUpdate] as received: each field is absent, or present with a
    value that may be null. *)
Record CityUpdate : Type := mkCityUpdate {
  ciu_name : option (option string);
  ciu_country : option (option string);
  ciu_description : option (option string);
  ciu_latitude : option (option float);
  ciu_longitude : option (option float);
  ciu_photos : option (option (list PhotoBase))
}.

(** The attribute [city_in.photos]: the field is declared with
    [default_factory=list], so it is the empty list when the request does
    not mention photos, and [None] only for an explicit null. *)
Definition photos_attr (city_in : CityUpdate) : option (list PhotoBase) :=
  default (Some []) (ciu_photos city_in).

(** The attribute [city_in.name]: [None] when absent or null. *)
Definition name_attr (city_in : CityUpdate) : option string :=
  default None (ciu_name city_in).

(** The columns as the store holds them once the row is written: a
    coordinate that is not a number is stored as NULL. *)
Module CityCols.
Definition set_name (x : string) (c : City.t) : City.t :=
  City.mk (City.id c) (City.created_at c) (City.updated_at c)
    (City.deleted_at c) x (City.country c) (City.description c)
    (City.latitude c) (City.longitude c) (City.average_rating c)
    (City.review_count c).
Definition set_country (x : string) (c : City.t) : City.t :=
  City.mk (City.id c) (City.created_at c) (City.updated_at c)
    (City.deleted_at c) (City.name c) x (City.description c)
    (City.latitude c) (City.longitude c) (City.average_rating c)
    (City.review_count c).
Definition set_description (x : option string) (c : City.t) : City.t :=
  City.mk (City.id c) (City.created_at c) (City.updated_at c)
    (City.deleted_at c) (City.name c) (City.country c) x
    (City.latitude c) (City.longitude c) (City.average_rating c)
    (City.review_count c).
Definition set_latitude (x : option float) (c : City.t) : City.t :=
  City.mk (City.id c) (City.created_at c) (City.updated_at c)
    (City.deleted_at c) (City.name c) (City.country c) (City.description c)
    (sqlite_real x) (City.longitude c) (City.average_rating c)
    (City.review_count c).
Definition set_longitude (x : option float) (c : City.t) : City.t :=
  City.mk (City.id c) (City.created_at c) (City.updated_at c)
    (City.deleted_at c) (City.name c) (City.country c) (City.description c)
    (City.latitude c) (sqlite_real x) (City.average_rating c)
    (City.review_count c).
End CityCols.

Definition has_name (n : string) (c : City.t) : bool :=
  bool_decide (City.name c = n).

(** The photo rows built for a city from the payload; [fresh i] is the
    identifier drawn for the [i]-th of them. *)
Definition new_photos (env : Env) (fresh : nat → string) (city_id : string)
    (photos : list PhotoBase) : list Photo.t :=
  imap (λ i ph,
          Photo.mk (fresh i) (db_now env) (db_now env) None city_id
            (pb_url ph) (pb_caption ph) (pb_position ph)) photos.

Definition insert_photos (rows : list Photo.t) (table : gmap string Photo.t)
    : gmap string Photo.t :=
  foldr (λ ph m, <[Photo.id ph := ph]> m) table rows.

(** Whether the INSERT of the rows can go through: their primary keys
    are distinct and none is in the table. *)
Definition photos_insertable (rows : list Photo.t) (table : gmap string Photo.t)
    : Prop :=
  NoDup (Photo.id <$> rows) ∧ Forall (λ ph, table !! Photo.id ph = None) rows.

#[local] Instance photos_insertable_dec rows table :
  Decision (photos_insertable rows table).
Proof. unfold photos_insertable. apply _. Defined.

(** Whether the rows can be bound to the INSERT: a position beyond the
    INTEGER range raises [OverflowError] (the schema only asks for a
    position of at least 0). *)
Definition photos_storable (rows : list Photo.t) : bool :=
  forallb (λ ph, sqlite_integer (Photo.position ph)) rows.

Definition create_city (env : Env) (fresh : nat → string) (city_in : CityCreate)
    (st : Store) : outcome City.t * Store :=
  match first_where (has_name (cic_name city_in)) (cities (st_db st)) with
  | Some _ =>
      (Raise (HTTPException 400 "City with this name already exists"), st)
  | None =>
      let db_city :=
        City.mk (uuid4 env) (db_now env) (db_now env) None (cic_name city_in)
          (cic_country city_in) (cic_description city_in)
          (sqlite_real (cic_latitude city_in))
          (sqlite_real (cic_longitude city_in)) (Some 0%float) 0 in
      let rows :=
        new_photos env fresh (City.id db_city) (default [] (cic_photos city_in)) in
      if negb (photos_storable rows) then (Raise OverflowError, st)
      else if bool_decide (cities (st_db st) !! City.id db_city = None ∧
                           photos_insertable rows (st_photos st)) then
        (Return db_city,
         mkStore (set_cities (insert (City.id db_city) db_city) (st_db st))
           (insert_photos rows (st_photos st)))
      else (Raise IntegrityError, st)
  end.

Definition apply_city_update (city_in : CityUpdate) (c : City.t)
    : outcome City.t :=
  apply_nullable CityCols.set_longitude (ciu_longitude city_in)
    (apply_nullable CityCols.set_latitude (ciu_latitude city_in)
       (apply_nullable CityCols.set_description (ciu_description city_in)
          (apply_column CityCols.set_country (ciu_country city_in)
             (apply_column CityCols.set_name (ciu_name city_in) (Return c))))).

Record PhotoRead : Type := mkPhotoRead {
  pr_url : string;
  pr_caption : option string;
  pr_position : Z;
  pr_id : string;
  pr_city_id : string;
  pr_created_at : datetime;
  pr_updated_at : datetime
}.

Record CityRead : Type := mkCityRead {
  cr_name : string;
  cr_country : string;
  cr_description : option string;
  cr_latitude : option float;
  cr_longitude : option float;
  cr_id : string;
  cr_average_rating : option float;
  cr_review_count : Z;
  cr_created_at : datetime;
  cr_updated_at : datetime;
  cr_deleted_at : option datetime;
  cr_reviews : list ReviewRead;
  cr_photos : list PhotoRead
}.

(** [x for x in xs] where building any [x] may raise. *)
Fixpoint collect {A} (xs : list (outcome A)) : outcome (list A) :=
  match xs with
  | [] => Return []
  | Return a :: rest =>
      match collect rest with
      | Return l => Return (a :: l)
      | Raise e => Raise e
      end
  | Raise e :: _ => Raise e
  end.

Definition text_fits (limit : Z) (s : string) : bool :=
  Z.of_nat (String.length s) <=? limit.

Definition PhotoRead_model_validate (ph : Photo.t) : outcome PhotoRead :=
  if 0 <=? Photo.position ph then
    Return (mkPhotoRead (Photo.url ph) (Photo.caption ph) (Photo.position ph)
              (Photo.id ph) (Photo.city_id ph) (Photo.created_at ph)
              (Photo.updated_at ph))
  else Raise ValidationError.

Definition by_position (a b : Photo.t) : Prop :=
  Photo.position a ≤ Photo.position b.
#[local] Instance by_position_dec : RelDecision by_position.
Proof. intros a b. unfold by_position. apply _. Defined.

(** [CityRead.model_validate(db_city)]: the columns under the limits of
    [CityBase], the reviews of the city and its photos by position. *)
Definition CityRead_model_validate (c : City.t) (st : Store) : outcome CityRead :=
  if text_fits 100 (City.name c) && text_fits 100 (City.country c) &&
     (if City.description c is Some d then text_fits 500 d else true) then
    match
      collect (ReviewRead_model_validate <$>
                 filter (λ r, Review.city_id r = City.id c)
                   (map_to_list (reviews (st_db st))).*2),
      collect (PhotoRead_model_validate <$>
                 merge_sort by_position
                   (filter (λ ph, Photo.city_id ph = City.id c)
                      (map_to_list (st_photos st)).*2))
    with
    | Return rs, Return phs =>
        Return (mkCityRead (City.name c) (City.country c) (City.description c)
                  (City.latitude c) (City.longitude c) (City.id c)
                  (City.average_rating c) (City.review_count c)
                  (City.created_at c) (City.updated_at c) (City.deleted_at c)
                  rs phs)
    | Raise e, _ | _, Raise e => Raise e
    end
  else Raise ValidationError.

Definition update_city (env : Env) (fresh : nat → string) (db_city : City.t)
    (city_in : CityUpdate) (st : Store) : outcome CityRead * Store :=
  let existing :=
    match name_attr city_in with
    | Some n =>
        if bool_decide (n ≠ City.name db_city)
        then first_where (has_name n) (cities (st_db st)) else None
    | None => None
    end in
  match existing with
  | Some _ =>
      (Raise (HTTPException 400 "City with this name already exists"), st)
  | None =>
      let rows :=
        match photos_attr city_in with
        | Some photos => new_photos env fresh (City.id db_city) photos
        | None => []
        end in
      let kept :=
        match photos_attr city_in with
        | Some _ =>
            filter (λ kv : string * Photo.t, Photo.city_id kv.2 ≠ City.id db_city)
              (st_photos st)
        | None => st_photos st
        end in
      match apply_city_update city_in db_city with
      | Raise e => (Raise e, st)
      | Return updated =>
          if negb (photos_storable rows) then (Raise OverflowError, st)
          else if bool_decide (photos_insertable rows (st_photos st)) then
            let saved := City.set_updated_at (db_now env) updated in
            let st' :=
              mkStore (set_cities (insert (City.id saved) saved) (st_db st))
                (insert_photos rows kept) in
            (CityRead_model_validate saved st', st')
          else (Raise IntegrityError, st)
      end
  end.

(** No two city rows share a name. *)
Definition city_names_unique (db : Db) : Prop :=
  ∀ k1 k2 c1 c2,
    cities db !! k1 = Some c1 → cities db !! k2 = Some c2 →
    City.name c1 = City.name c2 → k1 = k2.

(** No two flight rows share a flight number. *)
Definition flight_numbers_unique (db : Db) : Prop :=
  ∀ k1 k2 f1 f2,
    flights db !! k1 = Some f1 → flights db !! k2 = Some f2 →
    Flight.flight_number f1 = Flight.flight_number f2 → k1 = k2.

(** [get_posts_paginated] called with the keywords its signature has. *)
Definition posts_page (page size : Z) (flight_id : option string)
    : handler (page_data Post.t) :=
  call get_posts_paginated
    [ ("db", PySession); ("page", PyInt page); ("size", PyInt size);
      ("flight_id", opt_str flight_id) ].

(** The posts a listing request selects: the active ones, of the given
    flight when the filter is a non-empty string. *)
Definition selected_post (flight_id : option string) (p : Post.t) : Prop :=
  Post.deleted_at p = None ∧
  match flight_id with
  | Some fid => fid = "" ∨ Post.flight_id p = fid
  | None => True
  end.

(** ** Registration and login ([app/handlers/auth.py]) *)

Record UserCreate : Type := mkUserCreate {
  uc_email : string;
  uc_password : string
}.

Record LoginRequest : Type := mkLoginRequest {
  lr_email : string;
  lr_password : string
}.

Record Token : Type := mkToken {
  access_token : string;
  refresh_token : option string;
  token_type : string
}.

Record UserOut : Type := mkUserOut {
  uo_email : string;
  uo_id : string;
  uo_created_at : datetime
}.

Record AuthResponse : Type := mkAuthResponse {
  ar_token : Token;
  ar_user : UserOut
}.

Section Accounts.
(** The library calls and settings: [pwd_context.hash] and
    [pwd_context.verify], [jwt.encode] with the private key, the
    [EmailStr] validator with its normal form and the [uuid.UUID]
    validator of the response schema, and the two token lifetimes in
    minutes. *)
Variable get_password_hash : string → string.
Variable verify_password : string → string → bool.
Variable jwt_encode : gmap string pyval → string.
Variable valid_email : string → bool.
Variable normalize_email : string → string.
Variable valid_uuid : string → bool.
Variable ACCESS_TOKEN_EXPIRE_MINUTES : Z.
Variable REFRESH_TOKEN_EXPIRE_MINUTES : Z.

(** The claims of a token: the data given plus ["exp"], the issue time
    plus the lifetime. *)
Definition token_claims (env : Env) (data : gmap string pyval) (minutes : Z)
    : gmap string pyval :=
  <["exp" := PyInt (utcnow env + 60 * minutes)]> data.

Definition create_access_token (env : Env) (data : gmap string pyval) : string :=
  jwt_encode (token_claims env data ACCESS_TOKEN_EXPIRE_MINUTES).

Definition create_refresh_token (env : Env) (data : gmap string pyval) : string :=
  jwt_encode (token_claims env data REFRESH_TOKEN_EXPIRE_MINUTES).

(** INSERT of a user: the primary key and the unique [email] column are
    enforced by the store. *)
Definition create_user (env : Env) (user : UserCreate) : handler User.t :=
  let hashed_password := get_password_hash (uc_password user) in
  let db_user :=
    User.mk (uuid4 env) (db_now env) (db_now env) None (uc_email user)
      hashed_password in
  do clash <- query (λ db, users db !! User.id db_user);
  do taken <- query (λ db, first_where (email_is (uc_email user)) (users db));
  match clash, taken with
  | None, None =>
      run commit (λ db,
        mkDb (cities db) (reviews db) (flights db) (posts db) (comments db)
          (likes db) (<[User.id db_user := db_user]> (users db)));
      ret db_user
  | _, _ => raise IntegrityError
  end.

(** Building the [user] field of an [AuthResponse] from a user row; its
    [email] is an [EmailStr]. *)
Definition UserOut_model_validate (u : User.t) : outcome UserOut :=
  if valid_email (User.email u) && valid_uuid (User.id u) then
    Return (mkUserOut (normalize_email (User.email u)) (User.id u)
              (User.created_at u))
  else Raise ValidationError.

Definition issue_tokens (env : Env) (u : User.t) : Token :=
  let token_payload : gmap string pyval := {[ "sub" := PyStr (User.email u) ]} in
  let access := create_access_token env token_payload in
  let refresh := create_refresh_token env token_payload in
  mkToken access (Some refresh) "bearer".

(** The row a successful registration stores, and the store with it. *)
Definition registered_user (env : Env) (user_data : UserCreate) : User.t :=
  User.mk (uuid4 env) (db_now env) (db_now env) None (uc_email user_data)
    (get_password_hash (uc_password user_data)).

Definition with_user (u : User.t) (db : Db) : Db :=
  mkDb (cities db) (reviews db) (flights db) (posts db) (comments db)
    (likes db) (<[User.id u := u]> (users db)).

Definition register_new_user (env : Env) (user_data : UserCreate)
    : handler AuthResponse :=
  do existing_user <- get_user_by_email (uc_email user_data);
  match existing_user with
  | Some _ =>
      raise (HTTPException HTTP_400_BAD_REQUEST
               "An account with this email already exists.")
  | None =>
      do new_user <- create_user env user_data;
      let token := issue_tokens env new_user in
      do user <- lift (UserOut_model_validate new_user);
      ret (mkAuthResponse token user)
  end.

Definition login_user (env : Env) (login_data : LoginRequest)
    : handler AuthResponse :=
  do user <- authenticate_user verify_password (lr_email login_data)
               (lr_password login_data);
  let token_model := issue_tokens env user in
  do out <- lift (UserOut_model_validate user);
  ret (mkAuthResponse token_model out).

Definition login_for_token (env : Env) (email password : string)
    : handler Token :=
  do user <- authenticate_user verify_password email password;
  ret (issue_tokens env user).
End Accounts.

(** No two user rows share an email. *)
Definition emails_unique (db : Db) : Prop :=
  ∀ k1 k2 u1 u2,
    users db !! k1 = Some u1 → users db !! k2 = Some u2 →
    User.email u1 = User.email u2 → k1 = k2.

(** Rows are stored under their own primary key. *)
Definition cities_keyed (db : Db) : Prop :=
  ∀ k c, cities db !! k = Some c → City.id c = k.
Definition reviews_keyed (db : Db) : Prop :=
  ∀ k r, reviews db !! k = Some r → Review.id r = k.
Definition posts_keyed (db : Db) : Prop :=
  ∀ k p, posts db !! k = Some p → Post.id p = k.

(** The aggregates agree with the rows they summarise. *)
Definition like_counts_ok (db : Db) : Prop :=
  ∀ k p, posts db !! k = Some p →
    Post.like_count p = Z.of_nat (like_rows k db).

Definition review_counts_ok (db : Db) : Prop :=
  ∀ k c, cities db !! k = Some c →
    City.review_count c = Z.of_nat (review_rows k db).

(** Whether a run ended with a result rather than an exception. *)
Definition returned {A} (o : outcome A) : bool :=
  match o with
  | Return _ => true
  | Raise _ => false
  end.

(** ** Sample data *)

Module Sample.
Definition paris : City.t :=
  City.mk "c1" 0 0 None "Paris" "France" None None None (Some 0%float) 0.

Definition user (n : string) : User.t :=
  User.mk n 0 0 None (n +:+ "@example.com") ("bcrypt:" +:+ n).

Definition env (t : Z) (fresh : string) : Env := mkEnv t t fresh.

Definition sub (t : Z) (u : string) (rating : Z) : submission :=
  mkSubmission (env t ("review-" +:+ u)) (user u) (mkReviewCreate rating None).

Definition empty_db : Db := mkDb ∅ ∅ ∅ ∅ ∅ ∅ ∅.

(** User A rates a city 4, then user B rates it 2. *)
Definition two : list submission := [ sub 1 "A" 4; sub 2 "B" 2 ].

(** Eight users rating one city 1, 3, 5, 5, 5, 5, 5, 1. *)
Definition eight : list submission :=
  [ sub 1 "A" 1; sub 2 "B" 3; sub 3 "C" 5; sub 4 "D" 5;
    sub 5 "E" 5; sub 6 "F" 5; sub 7 "G" 5; sub 8 "H" 1 ].

Definition db_paris : Db := set_cities (insert "c1" paris) empty_db.

(** Paris after user A rated it 4. *)
Definition review_A : Review.t := Review.mk "review-A" 1 1 None "c1" "A" 4 None.
Definition paris_rated : City.t :=
  City.mk "c1" 0 1 None "Paris" "France" None None None (Some 4%float) 1.
Definition db_rated : Db :=
  set_reviews (insert "review-A" review_A)
    (set_cities (insert "c1" paris_rated) empty_db).

(** Paris after B rated it 2 as well: two reviews, 3.0 on average. *)
Definition review_B : Review.t := Review.mk "review-B" 2 2 None "c1" "B" 2 None.
Definition paris_twice : City.t :=
  City.mk "c1" 0 2 None "Paris" "France" None None None (Some 3%float) 2.
Definition db_rated_twice : Db :=
  set_reviews (insert "review-B" review_B)
    (set_reviews (insert "review-A" review_A)
       (set_cities (insert "c1" paris_twice) empty_db)).

Definition flight : Flight.t :=
  Flight.mk "f1" 0 0 None "AZ100" "ITA" None "c1" "c2" SCHEDULED 10 20.
Definition post : Post.t :=
  Post.mk "p1" 0 0 None "Take-off" "Smooth" 0 "A" "f1".
Definition post_deleted : Post.t := Post.set_deleted_at (Some 5) post.
Definition comment : Comment.t := Comment.mk "k1" 0 0 None "Nice" "A" "p1".
Definition comment_deleted : Comment.t := Comment.set_deleted_at (Some 6) comment.
Definition like_A : Like.t := Like.mk "A" "p1" 1 1 None.

Definition db_posts : Db :=
  set_comments (insert "k1" comment)
    (set_posts (insert "p1" post)
       (set_flights (insert "f1" flight) db_paris)).

(** The same store once post and comment are soft-deleted. *)
Definition db_posts_deleted : Db :=
  set_comments (insert "k1" comment_deleted)
    (set_posts (insert "p1" post_deleted) db_posts).

(** A store where A's like row exists while the counter of the post
    reads zero. *)
Definition db_liked_uncounted : Db := set_likes (insert ("A", "p1") like_A) db_posts.

(** A store where the counter of the post is at the top of the INTEGER
    range and A has no like row. *)
Definition post_popular : Post.t := Post.set_like_count (2 ^ 63 - 1) post.
Definition db_popular : Db := set_posts (insert "p1" post_popular) db_posts.

(** A registered user whose row carries a [deleted_at] stamp. *)
Definition ghost : User.t :=
  User.mk "u9" 0 3 (Some 3) "ghost@example.com" "bcrypt:secret".
Definition db_ghost : Db :=
  mkDb ∅ ∅ ∅ ∅ ∅ ∅ {[ "u9" := ghost ]}.

(** Stand-ins for the library calls on the sample data: two tokens for
    the same mailbox, the second with the domain in capitals, and a
    normal form that puts what follows the first [@] in lower case. *)
Definition verify_password (plain hashed : string) : bool :=
  bool_decide (hashed = "bcrypt:" +:+ plain).
Definition jwt_decode (token : string) : option (gmap string pyval) :=
  if bool_decide (token = "token-of-ghost")
  then Some {[ "sub" := PyStr "ghost@example.com" ]}
  else if bool_decide (token = "token-of-GHOST")
  then Some {[ "sub" := PyStr "ghost@EXAMPLE.COM" ]}
  else None.
Definition valid_email (s : string) : bool := true.
Definition lower (c : ascii) : ascii :=
  let n := nat_of_ascii c in
  if (65 <=? n)%nat && (n <=? 90)%nat then ascii_of_nat (n + 32) else c.
Fixpoint lower_domain (in_domain : bool) (s : string) : string :=
  match s with
  | EmptyString => EmptyString
  | String c rest =>
      if in_domain then String (lower c) (lower_domain true rest)
      else String c (lower_domain (Ascii.eqb c "@"%char) rest)
  end.
Definition normalize_email (s : string) : string := lower_domain false s.
End Sample.

(** Stand-ins for the library calls used on the sample accounts. *)
Module Fixture.
Definition get_password_hash (plain : string) : string := "bcrypt:" +:+ plain.
Definition verify_password (plain hashed : string) : bool :=
  bool_decide (hashed = "bcrypt:" +:+ plain).
Definition jwt_encode (claims : gmap string pyval) : string :=
  match claims !! "sub" with
  | Some (PyStr s) => "signed:" +:+ s
  | _ => "signed:"
  end.
Definition jwt_decode (token : string) : option (gmap string pyval) :=
  if bool_decide (token = "signed:ada@example.com")
  then Some {[ "sub" := PyStr "ada@example.com" ]} else None.
Definition valid_email (s : string) : bool := true.
Definition normalize_email (s : string) : string := Sample.normalize_email s.
Definition valid_uuid (s : string) : bool := true.
Definition ada : UserCreate := mkUserCreate "ada@example.com" "lovelace".

(** A second flight beside the sample one. *)
Definition flight2 : Flight.t :=
  Flight.mk "f2" 0 0 None "AZ200" "ITA" None "c1" "c1" SCHEDULED 30 40.
Definition db_two_flights : Db :=
  set_flights (insert "f2" flight2) Sample.db_posts.
Definition renumber (n : string) : FlightUpdate :=
  mkFlightUpdate (Some (Some n)) None None None None None None None.

(** Paris with one photo, a new city with one photo, and an update that
    only carries a description. *)
Definition fresh (i : nat) : string :=
  match i with
  | O => "photo-a"
  | S O => "photo-b"
  | _ => "photo-c"
  end.
Definition old_photo : Photo.t :=
  Photo.mk "photo-0" 0 0 None "c1" "https://img.example/paris.jpg" None 0.
Definition store_paris : Store :=
  mkStore Sample.db_paris {[ "photo-0" := old_photo ]}.
Definition lyon : CityCreate :=
  mkCityCreate "Lyon" "France" None None None
    (Some [ mkPhotoBase "https://img.example/lyon.jpg" None 0 ]).
Definition describe : CityUpdate :=
  mkCityUpdate None None (Some (Some "City of light")) None None None.
End Fixture.

(** * Properties *)

(** ** Generic facts *)

Ltac unfold_handler :=
  unfold bind, ret, raise, query, commit, lift in *.

Lemma first_where_Some {K} `{Countable K} {V} (P : V → bool) (m : gmap K V) v :
  first_where P m = Some v → P v = true ∧ ∃ k, m !! k = Some v.
Proof.
  unfold first_where. intros Hh.
  apply head_Some_elem_of in Hh as Hin.
  apply list_elem_of_filter in Hin as [HP Hin]. split; [done|].
  apply list_elem_of_fmap in Hin as [[k v'] [-> Hin]].
  exists k. by apply elem_of_map_to_list.
Qed.

Lemma first_where_None {K} `{Countable K} {V} (P : V → bool) (m : gmap K V) k v :
  first_where P m = None → m !! k = Some v → P v = false.
Proof.
  unfold first_where. intros Hh Hk.
  apply head_None in Hh.
  destruct (P v) eqn:HP; [|done].
  assert (v ∈ filter (λ v, P v = true) (map_to_list m).*2) as Hin.
  { apply list_elem_of_filter. split; [done|].
    apply list_elem_of_fmap. exists (k, v). split; [done|].
    by apply elem_of_map_to_list. }
  rewrite Hh in Hin. by apply not_elem_of_nil in Hin.
Qed.

Lemma first_where_is_Some {K} `{Countable K} {V} (P : V → bool) (m : gmap K V) k v :
  m !! k = Some v → P v = true → is_Some (first_where P m).
Proof.
  intros Hk HP. destruct (first_where P m) eqn:E; [by eexists|].
  rewrite (first_where_None P m k v E Hk) in HP. done.
Qed.

(** ** Reviews: one per user and city *)

Lemma reviewed_by_true city_id user_id r :
  Review.city_id r = city_id → Review.user_id r = user_id →
  reviewed_by city_id user_id r = true.
Proof.
  intros <- <-. unfold reviewed_by.
  by rewrite !bool_decide_eq_true_2.
Qed.

Lemma add_review_existing env city review_in user_id db :
  is_Some (first_where (reviewed_by (City.id city) user_id) (reviews db)) →
  add_review_to_city env city review_in user_id db
  = (Raise (HTTPException 400 "You have already reviewed this city"), db).
Proof.
  intros [r Hr]. unfold add_review_to_city. unfold_handler.
  by rewrite Hr.
Qed.

(** C4. When the user already has a review row for the city, a further
    [add_review_to_city] for the same user and city raises the 400
    "already reviewed" conflict and the store (city aggregates and review
    rows included) is exactly as before. *)
Theorem add_review_again_conflict env city review_in user_id db k r :
  reviews db !! k = Some r →
  Review.city_id r = City.id city →
  Review.user_id r = user_id →
  add_review_to_city env city review_in user_id db
  = (Raise (HTTPException HTTP_400_BAD_REQUEST
              "You have already reviewed this city"), db).
Proof.
  intros Hk Hc Hu. apply add_review_existing.
  eapply first_where_is_Some; [exact Hk|].
  by apply reviewed_by_true.
Qed.

Lemma add_review_again_conflict_witness :
  add_review_to_city (Sample.env 2 "review-A2") Sample.paris_rated
    (mkReviewCreate 5 None) "A" Sample.db_rated
  = (Raise (HTTPException 400 "You have already reviewed this city"),
     Sample.db_rated).
Proof.
  apply (add_review_again_conflict _ _ _ _ _ "review-A" Sample.review_A);
    reflexivity.
Defined.

(** ** Ownership *)

(** C5, as the handler is written: a caller who is not the author of an
    existing review gets the same 404 "Review not found" as for a missing
    review, and nothing is written. *)
Theorem update_review_non_author_not_found env review_id user_id review_in db r :
  reviews db !! review_id = Some r →
  Review.user_id r ≠ user_id →
  update_review env review_id user_id review_in db
  = (Raise (HTTPException HTTP_404_NOT_FOUND "Review not found"), db).
Proof.
  intros Hr Hne. unfold update_review. unfold_handler.
  rewrite Hr. by rewrite bool_decide_eq_true_2.
Qed.

Lemma update_review_non_author_not_found_witness :
  update_review (Sample.env 2 "") "review-A" "B" (mkReviewUpdate (Some 1) None)
    Sample.db_rated
  = (Raise (HTTPException 404 "Review not found"), Sample.db_rated).
Proof.
  apply (update_review_non_author_not_found _ _ _ _ _ Sample.review_A);
    [reflexivity | discriminate].
Defined.

(** C5 as stated fails: user B updating A's review does not get 403. *)
Lemma update_review_non_author_not_forbidden :
  reviews Sample.db_rated !! "review-A" = Some Sample.review_A ∧
  Review.user_id Sample.review_A ≠ "B" ∧
  ∀ detail,
    (update_review (Sample.env 2 "") "review-A" "B"
       (mkReviewUpdate (Some 1) None) Sample.db_rated).1
    ≠ Raise (HTTPException HTTP_403_FORBIDDEN detail).
Proof.
  split; [reflexivity|]. split; [discriminate|].
  intros detail. vm_compute. discriminate.
Qed.

(** C6. A caller who is not the author of a post or comment gets 403
    Forbidden from [update_post], [soft_delete_post], [update_comment] and
    [soft_delete_comment], and the store, hence the post or comment, is
    left as it was. *)
Theorem non_author_forbidden env db user_id :
  (∀ p post_in, Post.user_id p ≠ user_id →
     update_post env p post_in user_id db
     = (Raise (HTTPException 403 "Not authorized to update this post"), db) ∧
     soft_delete_post env p user_id db
     = (Raise (HTTPException 403 "Not authorized to delete this post"), db)) ∧
  (∀ c comment_in, Comment.user_id c ≠ user_id →
     update_comment env c comment_in user_id db
     = (Raise (HTTPException 403 "Not authorized to update this comment"), db) ∧
     soft_delete_comment env c user_id db
     = (Raise (HTTPException 403 "Not authorized to delete this comment"), db)).
Proof.
  split.
  - intros p post_in Hne.
    unfold update_post, soft_delete_post.
    rewrite !bool_decide_eq_true_2 by done. done.
  - intros c comment_in Hne.
    unfold update_comment, soft_delete_comment.
    rewrite !bool_decide_eq_true_2 by done. done.
Qed.

Lemma non_author_forbidden_witness :
  (update_post (Sample.env 7 "") Sample.post
     (mkPostUpdate (Some (Some "Mine now")) None) "B" Sample.db_posts
   = (Raise (HTTPException 403 "Not authorized to update this post"),
      Sample.db_posts) ∧
   soft_delete_post (Sample.env 7 "") Sample.post "B" Sample.db_posts
   = (Raise (HTTPException 403 "Not authorized to delete this post"),
      Sample.db_posts)) ∧
  (update_comment (Sample.env 7 "") Sample.comment
     (mkCommentUpdate (Some (Some "Edited"))) "B" Sample.db_posts
   = (Raise (HTTPException 403 "Not authorized to update this comment"),
      Sample.db_posts) ∧
   soft_delete_comment (Sample.env 7 "") Sample.comment "B" Sample.db_posts
   = (Raise (HTTPException 403 "Not authorized to delete this comment"),
      Sample.db_posts)).
Proof.
  destruct (non_author_forbidden (Sample.env 7 "") Sample.db_posts "B")
    as [Hp Hc].
  split.
  - apply Hp. discriminate.
  - apply Hc. discriminate.
Defined.

(** ** Soft delete and restore *)

(** C7. Deleting an entity that is already deleted and restoring one that
    is active change nothing and raise nothing: for cities and flights
    whoever calls, and for posts and comments, where delete and restore
    are gated to the owner, when the owner calls ([restore_post] on an
    active post: whoever calls). [restore_flight] and [restore_post]
    answer [None] for an active row. *)
Theorem delete_restore_noop env db :
  (∀ c t, City.deleted_at c = Some t → delete_city env c db = (Return c, db)) ∧
  (∀ c, cities db !! City.id c = Some c → City.deleted_at c = None →
     restore_city env (City.id c) db = (Return (Some c), db)) ∧
  (∀ f t, Flight.deleted_at f = Some t →
     soft_delete_flight env f db = (Return f, db)) ∧
  (∀ f, flights db !! Flight.id f = Some f → Flight.deleted_at f = None →
     restore_flight env (Flight.id f) db = (Return None, db)) ∧
  (∀ p t, Post.deleted_at p = Some t →
     soft_delete_post env p (Post.user_id p) db = (Return p, db)) ∧
  (∀ p user_id, posts db !! Post.id p = Some p → Post.deleted_at p = None →
     restore_post env (Post.id p) user_id db = (Return None, db)) ∧
  (∀ c t, Comment.deleted_at c = Some t →
     soft_delete_comment env c (Comment.user_id c) db = (Return c, db)) ∧
  (∀ c, Comment.deleted_at c = None →
     restore_comment env c (Comment.user_id c) db = (Return c, db)).
Proof.
  repeat split.
  - intros c t Hd. unfold delete_city. by rewrite Hd.
  - intros c Hc Hd. unfold restore_city. unfold_handler. by rewrite Hc, Hd.
  - intros f t Hd. unfold soft_delete_flight. by rewrite Hd.
  - intros f Hf Hd. unfold restore_flight. unfold_handler. by rewrite Hf, Hd.
  - intros p t Hd. unfold soft_delete_post.
    rewrite bool_decide_eq_false_2 by (intros Hne; by apply Hne).
    by rewrite Hd.
  - intros p u Hp Hd. unfold restore_post. unfold_handler. by rewrite Hp, Hd.
  - intros c t Hd. unfold soft_delete_comment.
    rewrite bool_decide_eq_false_2 by (intros Hne; by apply Hne).
    by rewrite Hd.
  - intros c Hd. unfold restore_comment.
    rewrite bool_decide_eq_false_2 by (intros Hne; by apply Hne).
    by rewrite Hd.
Qed.

Lemma delete_restore_noop_witness :
  soft_delete_post (Sample.env 9 "") Sample.post_deleted "A"
    Sample.db_posts_deleted
  = (Return Sample.post_deleted, Sample.db_posts_deleted) ∧
  restore_post (Sample.env 9 "") "p1" "B" Sample.db_posts
  = (Return None, Sample.db_posts) ∧
  restore_city (Sample.env 9 "") "c1" Sample.db_posts
  = (Return (Some Sample.paris), Sample.db_posts) ∧
  restore_comment (Sample.env 9 "") Sample.comment "A" Sample.db_posts
  = (Return Sample.comment, Sample.db_posts).
Proof.
  destruct (delete_restore_noop (Sample.env 9 "") Sample.db_posts)
    as (_ & Hrc & _ & _ & _ & Hrp & _ & Hrk).
  destruct (delete_restore_noop (Sample.env 9 "") Sample.db_posts_deleted)
    as (_ & _ & _ & _ & Hdp & _).
  split; [|split; [|split]].
  - apply (Hdp Sample.post_deleted 5). reflexivity.
  - apply (Hrp Sample.post "B"); reflexivity.
  - apply (Hrc Sample.paris); reflexivity.
  - apply (Hrk Sample.comment). reflexivity.
Defined.

(** C8. Deleting an active city, flight or post and then restoring it (the
    post: by its author) succeeds and yields the entity with every column
    other than the timestamps as before the deletion, active again. A
    comment does not come back: once its author has deleted it through
    the route, the restore route looks it up among the active comments
    and answers 404, and the comment stays deleted. *)
Theorem delete_then_restore_round_trip env1 env2 db :
  (∀ c, City.deleted_at c = None →
     ∃ c' db', delete_then_restore_city env1 env2 c db = (Return (Some c'), db') ∧
       cities db' !! City.id c = Some c' ∧
       City.same_fields c c' ∧ City.deleted_at c' = None) ∧
  (∀ f, Flight.deleted_at f = None →
     ∃ f' db', delete_then_restore_flight env1 env2 f db = (Return (Some f'), db') ∧
       flights db' !! Flight.id f = Some f' ∧
       Flight.same_fields f f' ∧ Flight.deleted_at f' = None) ∧
  (∀ p, Post.deleted_at p = None →
     ∃ p' db',
       delete_then_restore_post env1 env2 p (Post.user_id p) db
       = (Return (Some p'), db') ∧
       posts db' !! Post.id p = Some p' ∧
       Post.same_fields p p' ∧ Post.deleted_at p' = None) ∧
  (∀ k author,
     comments db !! Comment.id k = Some k → Comment.deleted_at k = None →
     User.id author = Comment.user_id k →
     ∃ k' db',
       PostRoutes.delete_comment env1 (Comment.post_id k) (Comment.id k) author db
       = (Return "Comment successfully deleted", db') ∧
       comments db' !! Comment.id k = Some k' ∧
       Comment.same_fields k k' ∧
       Comment.deleted_at k' = Some (utcnow env1) ∧
       PostRoutes.restore_comment env2 (Comment.post_id k) (Comment.id k) author db'
       = (Raise (HTTPException 404 "Comment not found"), db')).
Proof.
  repeat split.
  - intros c Hd.
    unfold delete_then_restore_city, delete_city, restore_city, save_city.
    unfold_handler. rewrite Hd. cbn.
    rewrite lookup_insert_eq. cbn.
    eexists _, _. split; [reflexivity|]. cbn.
    rewrite lookup_insert_eq. repeat split.
  - intros f Hd.
    unfold delete_then_restore_flight, soft_delete_flight, restore_flight,
      save_flight.
    unfold_handler. rewrite Hd. cbn.
    rewrite lookup_insert_eq. cbn.
    eexists _, _. split; [reflexivity|]. cbn.
    rewrite lookup_insert_eq. repeat split.
  - intros p Hd.
    unfold delete_then_restore_post, soft_delete_post, restore_post, save_post.
    unfold_handler.
    rewrite bool_decide_eq_false_2 by (intros Hne; by apply Hne).
    rewrite Hd. cbn.
    rewrite lookup_insert_eq. cbn.
    rewrite bool_decide_eq_false_2 by (intros Hne; by apply Hne).
    eexists _, _. split; [reflexivity|]. cbn.
    rewrite lookup_insert_eq. repeat split.
  - intros k author Hk Hd Hauthor.
    unfold PostRoutes.delete_comment, PostRoutes.restore_comment,
      PostRoutes.comment_of_post, get_comment_by_id, soft_delete_comment,
      save_comment.
    unfold_handler. rewrite Hk, Hd.
    rewrite bool_decide_eq_false_2 by (intros Hne; by apply Hne).
    cbn. rewrite Hauthor.
    rewrite bool_decide_eq_false_2 by (intros Hne; by apply Hne).
    rewrite Hd. cbn.
    eexists _, _. split; [reflexivity|]. cbn.
    rewrite lookup_insert_eq. cbn. repeat split.
Qed.

Lemma delete_then_restore_round_trip_witness :
  (∃ c' db',
     delete_then_restore_city (Sample.env 5 "") (Sample.env 8 "") Sample.paris
       Sample.db_posts = (Return (Some c'), db') ∧
     cities db' !! "c1" = Some c' ∧
     City.same_fields Sample.paris c' ∧ City.deleted_at c' = None) ∧
  (∃ p' db',
     delete_then_restore_post (Sample.env 5 "") (Sample.env 8 "") Sample.post
       "A" Sample.db_posts = (Return (Some p'), db') ∧
     posts db' !! "p1" = Some p' ∧
     Post.same_fields Sample.post p' ∧ Post.deleted_at p' = None) ∧
  (∃ k' db',
     PostRoutes.delete_comment (Sample.env 5 "") "p1" "k1" (Sample.user "A")
       Sample.db_posts = (Return "Comment successfully deleted", db') ∧
     comments db' !! "k1" = Some k' ∧
     Comment.same_fields Sample.comment k' ∧
     Comment.deleted_at k' = Some 5 ∧
     PostRoutes.restore_comment (Sample.env 8 "") "p1" "k1" (Sample.user "A") db'
     = (Raise (HTTPException 404 "Comment not found"), db')).
Proof.
  destruct (delete_then_restore_round_trip
              (Sample.env 5 "") (Sample.env 8 "") Sample.db_posts)
    as (Hc & _ & Hp & Hk).
  split; [|split].
  - apply (Hc Sample.paris). reflexivity.
  - apply (Hp Sample.post). reflexivity.
  - apply (Hk Sample.comment (Sample.user "A")); reflexivity.
Defined.

(** ** The public post listing *)

Lemma bind_keywords_unexpected fname params before k v after :
  ∀ locals,
    NoDup before.*1 →
    Forall (λ kv, has_param params kv.1 = true ∧ locals !! kv.1 = None) before →
    has_param params k = false →
    bind_keywords fname params (before ++ (k, v) :: after) locals
    = Raise (TypeError (fname +:+ "() got an unexpected keyword argument '"
                          +:+ k +:+ "'")).
Proof.
  induction before as [|[k0 v0] before IH]; intros locals Hnd Hall Hk.
  - cbn. by rewrite Hk.
  - cbn [fmap list_fmap fst] in Hnd.
    apply NoDup_cons in Hnd as [Hk0 Hnd].
    apply Forall_cons in Hall as [[Hp0 Hl0] Hall]. cbn in Hp0, Hl0.
    cbn [app bind_keywords]. rewrite Hp0, Hl0. cbn [negb].
    apply IH; [done| |done].
    rewrite Forall_forall in Hall |- *. intros [k1 v1] Hin.
    destruct (Hall _ Hin) as [Hp1 Hl1]. split; [done|]. cbn in *.
    rewrite lookup_insert_ne; [done|].
    intros ->. apply Hk0. apply list_elem_of_fmap. by exists (k1, v1).
Qed.

(** A call raises [TypeError] at the first keyword that names no
    parameter, the keywords before it being distinct parameters. *)
Lemma call_unexpected_keyword {A} (f : pyfunction A) before k v after db :
  NoDup before.*1 →
  Forall (λ kv, has_param (fn_params f) kv.1 = true) before →
  has_param (fn_params f) k = false →
  call f (before ++ (k, v) :: after) db
  = (Raise (TypeError (fn_name f +:+ "() got an unexpected keyword argument '"
                         +:+ k +:+ "'")), db).
Proof.
  intros Hnd Hall Hk. unfold call.
  rewrite (bind_keywords_unexpected _ _ _ _ _ _ ∅ Hnd); [done| |done].
  eapply Forall_impl; [exact Hall|].
  intros kv Hp. split; [done|]. apply lookup_empty.
Qed.

(** C10. Whatever the page, size and filters, the call the route
    [list_posts] makes to [get_posts_paginated] raises [TypeError]: the
    keywords [q] and [author_id] name no parameter of the handler, and the
    first of them is rejected. No listing is returned and the store is
    untouched. *)
Theorem list_posts_type_error page size flight_id q author_id db :
  list_posts page size flight_id q author_id db
  = (Raise (TypeError
       "get_posts_paginated() got an unexpected keyword argument 'q'"), db).
Proof.
  unfold list_posts.
  apply (call_unexpected_keyword get_posts_paginated
           [ ("db", PySession); ("page", PyInt page); ("size", PyInt size);
             ("flight_id", opt_str flight_id) ]
           "q" (opt_str q) [ ("author_id", opt_str author_id) ]).
  - apply (bool_decide_unpack _). vm_compute. exact I.
  - repeat constructor.
  - reflexivity.
Qed.

(** The call of the flight listing, which matches its handler, does
    bind. *)
Example flights_page_binds pg sz db :
  ∃ listing, flights_page pg sz db = (Return listing, db) ∧
    page _ listing = pg ∧ size _ listing = sz.
Proof.
  unfold flights_page, call. cbn.
  unfold get_flights_paginated_code. unfold_handler. cbn.
  eexists. split; [reflexivity|]. split; reflexivity.
Qed.

(** ** Authentication lookups *)

Lemma get_user_by_email_unique db uid u :
  users db !! uid = Some u →
  (∀ uid' u', users db !! uid' = Some u' → User.email u' = User.email u → u' = u) →
  get_user_by_email (User.email u) db = (Return (Some u), db).
Proof.
  intros Hu Huniq. unfold get_user_by_email. unfold_handler.
  destruct (first_where_is_Some (email_is (User.email u)) (users db) uid u Hu)
    as [u' Hu'].
  { unfold email_is. by rewrite bool_decide_eq_true_2. }
  rewrite Hu'. apply first_where_Some in Hu' as [He [k Hk]].
  unfold email_is in He. apply bool_decide_eq_true_1 in He.
  by rewrite (Huniq k u' Hk He).
Qed.

(** C9, as the handlers are written: the user lookup of the
    authentication path does not look at [deleted_at]. For a user row
    whose [deleted_at] is set (its email being unique in the table and
    stored in the normal form [EmailStr] gives), [authenticate_user]
    returns the user when the password verifies, and
    [get_current_active_user] returns the user for a token that decodes
    to this email as subject. *)
Theorem auth_resolves_soft_deleted_user
    (verify_password : string → string → bool)
    (jwt_decode : string → option (gmap string pyval))
    (valid_email : string → bool)
    (normalize_email : string → string)
    db uid u t password token payload :
  users db !! uid = Some u →
  User.deleted_at u = Some t →
  (∀ uid' u', users db !! uid' = Some u' → User.email u' = User.email u → u' = u) →
  verify_password password (User.hashed_password u) = true →
  jwt_decode token = Some payload →
  payload !! "sub" = Some (PyStr (User.email u)) →
  valid_email (User.email u) = true →
  normalize_email (User.email u) = User.email u →
  authenticate_user verify_password (User.email u) password db = (Return u, db) ∧
  get_current_active_user jwt_decode valid_email normalize_email token db
  = (Return u, db).
Proof.
  intros Hu _ Huniq Hpw Hjwt Hsub Hvalid Hnormal.
  pose proof (get_user_by_email_unique db uid u Hu Huniq) as Hget.
  split.
  - unfold authenticate_user, bind. rewrite Hget. by rewrite Hpw.
  - unfold get_current_active_user, verify_token, bind, lift.
    rewrite Hjwt, Hsub, Hvalid, Hnormal. by rewrite Hget.
Qed.

Lemma auth_resolves_soft_deleted_user_witness :
  authenticate_user Sample.verify_password "ghost@example.com" "secret"
    Sample.db_ghost = (Return Sample.ghost, Sample.db_ghost) ∧
  get_current_active_user Sample.jwt_decode Sample.valid_email
    Sample.normalize_email "token-of-ghost" Sample.db_ghost
  = (Return Sample.ghost, Sample.db_ghost).
Proof.
  apply (auth_resolves_soft_deleted_user Sample.verify_password
           Sample.jwt_decode Sample.valid_email Sample.normalize_email
           Sample.db_ghost "u9" Sample.ghost 3 "secret" "token-of-ghost"
           {[ "sub" := PyStr "ghost@example.com" ]});
    try reflexivity.
  intros uid' u' Hu' _. unfold Sample.db_ghost in Hu'. cbn in Hu'.
  apply lookup_singleton_Some in Hu' as [_ Hu']. by symmetry.
Defined.

(** C9 as stated fails: a user whose [deleted_at] is set logs in with the
    right password, and a valid token for that email resolves to the
    user; neither call answers 401. *)
Lemma soft_deleted_user_not_rejected :
  users Sample.db_ghost !! "u9" = Some Sample.ghost ∧
  User.deleted_at Sample.ghost = Some 3 ∧
  Sample.verify_password "secret" (User.hashed_password Sample.ghost) = true ∧
  Sample.jwt_decode "token-of-ghost"
  = Some {[ "sub" := PyStr (User.email Sample.ghost) ]} ∧
  (authenticate_user Sample.verify_password (User.email Sample.ghost) "secret"
     Sample.db_ghost).1 = Return Sample.ghost ∧
  (get_current_active_user Sample.jwt_decode Sample.valid_email
     Sample.normalize_email "token-of-ghost" Sample.db_ghost).1
  = Return Sample.ghost.
Proof. repeat split; vm_compute; reflexivity. Qed.

(** ** Like toggle *)

Lemma sqlite_integer_spec z :
  sqlite_integer z = true ↔ - 2 ^ 63 ≤ z ≤ 2 ^ 63 - 1.
Proof. unfold sqlite_integer, INT64_MAX. lia. Qed.

Lemma toggle_like_absent env p user_id db :
  likes db !! (user_id, Post.id p) = None →
  sqlite_integer (Post.like_count p + 1) = true →
  toggle_like_post env p user_id db
  = (Return (Post.set_updated_at (db_now env)
               (Post.set_like_count (Post.like_count p + 1) p)),
     set_posts (insert (Post.id p)
                  (Post.set_updated_at (db_now env)
                     (Post.set_like_count (Post.like_count p + 1) p)))
       (set_likes (insert (user_id, Post.id p)
                     (Like.mk user_id (Post.id p) (db_now env) (db_now env) None))
          db)).
Proof.
  intros Hl Hfits. unfold toggle_like_post. unfold_handler. rewrite Hl.
  cbn. by rewrite Hfits.
Qed.

Lemma toggle_like_present env p user_id db l :
  likes db !! (user_id, Post.id p) = Some l →
  sqlite_integer (Z.max 0 (Post.like_count p - 1)) = true →
  toggle_like_post env p user_id db
  = (Return (Post.set_updated_at (db_now env)
               (Post.set_like_count (Z.max 0 (Post.like_count p - 1)) p)),
     set_posts (insert (Post.id p)
                  (Post.set_updated_at (db_now env)
                     (Post.set_like_count (Z.max 0 (Post.like_count p - 1)) p)))
       (set_likes (delete (user_id, Post.id p)) db)).
Proof.
  intros Hl Hfits. unfold toggle_like_post. unfold_handler. rewrite Hl.
  cbn. by rewrite Hfits.
Qed.

(** A counter that would leave the INTEGER range makes the commit raise:
    nothing is written. *)
Lemma toggle_like_overflow env p user_id db :
  sqlite_integer
    (if likes db !! (user_id, Post.id p) is Some _
     then Z.max 0 (Post.like_count p - 1) else Post.like_count p + 1) = false →
  toggle_like_post env p user_id db = (Raise OverflowError, db).
Proof.
  intros Hfits. unfold toggle_like_post. unfold_handler.
  destruct (likes db !! (user_id, Post.id p)); cbn; by rewrite Hfits.
Qed.

(** C2, for the states in which the counter can absorb the round trip:
    between 1 and 2^63 - 1 when the caller's like row exists, between 0
    and 2^63 - 2 when it does not. Two toggles in succession by the same
    user then succeed, give the post its original [like_count] back, and
    leave the same set of (user, post) like keys; when the user had no
    like row, the whole like table is as before. *)
Theorem toggle_like_twice_restores env1 env2 p user_id db :
  (if likes db !! (user_id, Post.id p) is Some _
   then 1 ≤ Post.like_count p ≤ 2 ^ 63 - 1
   else 0 ≤ Post.like_count p ≤ 2 ^ 63 - 2) →
  ∃ p' db',
    toggle_like_twice env1 env2 p user_id db = (Return p', db') ∧
    posts db' !! Post.id p = Some p' ∧
    Post.like_count p' = Post.like_count p ∧
    dom (likes db') = dom (likes db) ∧
    (likes db !! (user_id, Post.id p) = None → likes db' = likes db).
Proof.
  intros Hcount. unfold toggle_like_twice, bind.
  destruct (likes db !! (user_id, Post.id p)) as [l|] eqn:Hl.
  - rewrite (toggle_like_present _ _ _ _ l Hl)
      by (apply sqlite_integer_spec; lia).
    rewrite toggle_like_absent
      by (cbn; first [apply lookup_delete_eq | apply sqlite_integer_spec; lia]).
    eexists _, _. split; [reflexivity|]. cbn.
    rewrite lookup_insert_eq. repeat split.
    + f_equal. lia.
    + rewrite dom_insert_L, dom_delete_L.
      assert ((user_id, Post.id p) ∈ dom (likes db)) as Hin
        by (apply elem_of_dom; eauto).
      apply set_eq. intros x.
      rewrite elem_of_union, elem_of_singleton, elem_of_difference,
        elem_of_singleton.
      split.
      * intros [->|[Hx _]]; done.
      * intros Hx.
        destruct (decide (x = (user_id, Post.id p))); [by left | by right].
    + done.
  - rewrite (toggle_like_absent _ _ _ _ Hl)
      by (apply sqlite_integer_spec; lia).
    erewrite toggle_like_present
      by (cbn; first [apply lookup_insert_eq | apply sqlite_integer_spec; lia]).
    eexists _, _. split; [reflexivity|]. cbn.
    rewrite lookup_insert_eq.
    assert (delete (user_id, Post.id p)
              (<[(user_id, Post.id p) :=
                   Like.mk user_id (Post.id p) (db_now env1) (db_now env1) None]>
                 (likes db)) = likes db) as Hsame.
    { rewrite delete_insert_eq. by apply delete_id. }
    repeat split.
    + f_equal. lia.
    + by rewrite Hsame.
    + by rewrite Hsame.
Qed.

Lemma toggle_like_twice_restores_witness :
  ∃ p' db',
    toggle_like_twice (Sample.env 3 "") (Sample.env 4 "") Sample.post "A"
      Sample.db_posts = (Return p', db') ∧
    posts db' !! "p1" = Some p' ∧
    Post.like_count p' = 0 ∧
    dom (likes db') = dom (likes Sample.db_posts) ∧
    (likes Sample.db_posts !! ("A", "p1") = None →
     likes db' = likes Sample.db_posts).
Proof.
  apply (toggle_like_twice_restores (Sample.env 3 "") (Sample.env 4 "")
           Sample.post "A" Sample.db_posts).
  vm_compute. split; discriminate.
Defined.

(** C2 as stated fails at both ends of the counter. Where the like row
    exists while the counter reads zero, the first toggle floors the
    counter at zero and the second brings it to one. Where the counter is
    at the top of the INTEGER range and the user has no like row, the
    first toggle cannot be committed: it raises [OverflowError], nothing
    is written, and the sequence ends there. *)
Lemma toggle_like_twice_not_restoring :
  (likes Sample.db_liked_uncounted !! ("A", "p1") = Some Sample.like_A ∧
   posts Sample.db_liked_uncounted !! "p1" = Some Sample.post ∧
   Post.like_count Sample.post = 0 ∧
   ∃ p' db',
     toggle_like_twice (Sample.env 3 "") (Sample.env 4 "") Sample.post "A"
       Sample.db_liked_uncounted = (Return p', db') ∧
     Post.like_count p' = 1) ∧
  (likes Sample.db_popular !! ("A", "p1") = None ∧
   posts Sample.db_popular !! "p1" = Some Sample.post_popular ∧
   Post.like_count Sample.post_popular = 2 ^ 63 - 1 ∧
   toggle_like_twice (Sample.env 3 "") (Sample.env 4 "") Sample.post_popular "A"
     Sample.db_popular = (Raise OverflowError, Sample.db_popular)).
Proof.
  split.
  - repeat split. eexists _, _. split; [vm_compute; reflexivity|]. reflexivity.
  - repeat split.
Qed.

(** ** Review aggregates *)

(** *** The arithmetic of the interpreter on the values the store holds *)

Lemma sqlite_integer_below z :
  sqlite_integer z = true → Z.abs z < FLOAT_OVERFLOW.
Proof.
  intros Hz. apply sqlite_integer_spec in Hz.
  assert (2 ^ 63 < FLOAT_OVERFLOW) as Hbig by (vm_compute; reflexivity).
  lia.
Qed.

Lemma nearest_binary64_small n :
  0 ≤ n < 2 ^ 63 → nearest_binary64 n = binary64 n.
Proof.
  intros Hn. unfold nearest_binary64.
  rewrite <- (SF2Prim_Prim2SF (binary64 n)).
  rewrite of_uint63_spec. do 2 f_equal.
  rewrite Uint63.of_Z_spec. symmetry. apply Z.mod_small.
  change wB with (2 ^ 63). lia.
Qed.

(** Below 2^63 in magnitude, [float(z)] is the primitive conversion. *)
Lemma float_of_Z_signed z :
  - 2 ^ 63 < z < 2 ^ 63 → float_of_Z z = Return (signed64 z).
Proof.
  intros Hz. unfold float_of_Z.
  assert (2 ^ 63 < FLOAT_OVERFLOW) as Hbig by (vm_compute; reflexivity).
  rewrite (proj2 (Z.leb_gt _ _)) by lia.
  destruct (z <? 0) eqn:Hneg.
  - apply Z.ltb_lt in Hneg. by rewrite nearest_binary64_small by lia.
  - apply Z.ltb_ge in Hneg. by rewrite nearest_binary64_small by lia.
Qed.

Lemma float_of_Z_small z :
  0 ≤ z < 2 ^ 63 → float_of_Z z = Return (binary64 z).
Proof.
  intros Hz. rewrite float_of_Z_signed by lia.
  by rewrite (proj2 (Z.ltb_ge _ _)) by lia.
Qed.

Lemma int_truediv_small a b :
  b ≠ 0 → Z.abs a < 2 ^ 53 → Z.abs b < 2 ^ 53 →
  int_truediv a b = Return (PrimFloat.div (signed64 a) (signed64 b)).
Proof.
  intros Hb Ha Hb'. unfold int_truediv.
  rewrite (proj2 (Z.eqb_neq _ _)) by done.
  by rewrite (proj2 (Z.ltb_lt (Z.abs a) _)), (proj2 (Z.ltb_lt (Z.abs b) _)) by done.
Qed.

(** A quotient of magnitude at most that of its numerator, when this is
    small, is returned. *)
Lemma int_truediv_returns a b :
  b ≠ 0 → Z.abs a < 2 ^ 63 → ∃ f, int_truediv a b = Return f.
Proof.
  intros Hb Ha. unfold int_truediv.
  rewrite (proj2 (Z.eqb_neq _ _)) by done.
  destruct (_ && _); [eauto|].
  assert (2 ^ 63 < FLOAT_OVERFLOW) as Hbig by (vm_compute; reflexivity).
  rewrite (proj2 (Z.leb_gt _ _)); [eauto|]. nia.
Qed.

(** Beyond that the conversion rounds to nearest, ties to even, and
    raises where no finite number is near; and the quotient of two ints
    is rounded once, which above 2^53 is not the binary64 quotient of the
    converted operands. *)
Example float_of_Z_large :
  float_of_Z (2 ^ 53 + 1) = Return 0x1p+53%float ∧
  float_of_Z (2 ^ 53 + 3) = Return 0x1.0000000000002p+53%float ∧
  float_of_Z (- 2 ^ 63) = Return (-0x1p+63)%float ∧
  float_of_Z (2 ^ 63 + 1025) = Return 0x1.0000000000001p+63%float ∧
  float_of_Z (2 ^ 1024 - 2 ^ 970 - 1) = Return 0x1.fffffffffffffp+1023%float ∧
  float_of_Z (2 ^ 1024 - 2 ^ 970) = Raise OverflowError.
Proof. repeat split; vm_compute; reflexivity. Qed.

Example int_truediv_large :
  int_truediv 1 (2 ^ 53 + 1) = Return 0x1.fffffffffffffp-54%float ∧
  PrimFloat.div (binary64 1) (binary64 (2 ^ 53 + 1)) = 0x1p-53%float ∧
  int_truediv (2 ^ 63 - 1) 3 = Return 0x1.5555555555555p+61%float ∧
  int_truediv (- 5) (2 ^ 62 + 12345) = Return (-0x1.3fffffffffff1p-60)%float ∧
  int_truediv 0 (- 2 ^ 60) = Return (-0)%float ∧
  int_truediv (10 ^ 330) 3 = Raise OverflowError ∧
  int_truediv 7 0 = Raise ZeroDivisionError.
Proof. repeat split; vm_compute; reflexivity. Qed.

(** *** Rating updates *)

Lemma average_after_update_float a n d :
  PrimFloat.eqb a 0 = false →
  1 ≤ n ≤ 2 ^ 63 - 1 → - 2 ^ 63 < d < 2 ^ 63 →
  average_after_update (Some a) n d
  = Return (PrimFloat.div
              (PrimFloat.add (PrimFloat.mul a (binary64 n)) (signed64 d))
              (binary64 n)).
Proof.
  intros Ha Hn Hd. unfold average_after_update, or_zero, float_truthy.
  change PrimFloat.zero with 0%float. rewrite Ha. cbn [py_mul].
  rewrite (float_of_Z_small n) by lia. cbn [py_add].
  rewrite (float_of_Z_signed d) by lia. cbn [py_truediv].
  rewrite (float_of_Z_small n) by lia.
  by rewrite (proj2 (Z.eqb_neq n 0)) by lia.
Qed.

Lemma average_after_update_int average n d :
  float_truthy average = None →
  1 ≤ n < 2 ^ 53 → - 2 ^ 53 < d < 2 ^ 53 →
  average_after_update average n d
  = Return (PrimFloat.div (signed64 d) (binary64 n)).
Proof.
  intros Ha Hn Hd. unfold average_after_update, or_zero. rewrite Ha.
  cbn [py_mul py_add py_truediv]. rewrite Z.mul_0_l, Z.add_0_l.
  rewrite int_truediv_small by lia.
  by rewrite (proj2 (Z.ltb_ge n 0)) by lia.
Qed.

(** The store after an update by the author, when the city of the review
    exists, the arithmetic on its aggregates goes through and the new
    rating and the count fit their columns. *)
Lemma update_review_by_author_store env review_id review_in db r c a :
  reviews db !! review_id = Some r →
  cities db !! Review.city_id r = Some c →
  sqlite_integer (default (Review.rating r) (ru_rating review_in)) = true →
  sqlite_integer (City.review_count c) = true →
  average_after_update (City.average_rating c) (City.review_count c)
    (default (Review.rating r) (ru_rating review_in) - Review.rating r)
  = Return a →
  ∃ r',
    Review.id r' = Review.id r ∧
    Review.rating r' = default (Review.rating r) (ru_rating review_in) ∧
    (update_review env review_id (Review.user_id r) review_in db).2
    = set_cities
        (insert (City.id c)
           (City.set_updated_at (db_now env)
              (City.set_aggregates (sqlite_real (Some a))
                 (City.review_count c) c)))
        (set_reviews (insert (Review.id r) r') db).
Proof.
  intros Hr Hc Hrating Hcount Ha.
  unfold update_review, bind, query. rewrite Hr.
  rewrite bool_decide_eq_false_2 by (intros Hne; by apply Hne).
  rewrite Hc. unfold average_after_update in Ha. unfold lift at 1.
  destruct (py_mul _ _) as [total_before|]; [|done]. unfold lift at 1.
  destruct (py_add _ _) as [total_after|]; [|done]. unfold lift at 1.
  rewrite Ha.
  unfold save_review_and_city. cbn [City.review_count City.set_aggregates].
  set (r1 := if ru_comment review_in is Some _ then _ else _).
  assert (Review.rating r1 = default (Review.rating r) (ru_rating review_in))
    as Hrate1
    by (subst r1; destruct (ru_rating review_in), (ru_comment review_in); done).
  rewrite Hrate1, Hrating, Hcount. cbn [andb].
  unfold bind, commit, ret, lift.
  set (r2 := Review.set_updated_at _ _).
  assert (Review.id r2 = Review.id r) as Hid
    by (subst r2 r1; destruct (ru_rating review_in), (ru_comment review_in); done).
  assert (Review.rating r2 = default (Review.rating r) (ru_rating review_in))
    as Hrate by (subst r2; done).
  exists r2. split; [done|]. split; [done|]. rewrite <- Hid.
  by destruct (ReviewRead_model_validate r2).
Qed.

(** C3. When the author of an existing review sets its rating to [r_new]
    and the city of the review counts at least one review (count and new
    rating being values an INTEGER column holds, and the rating change
    below 2^53 in magnitude), the store after [update_review] holds the
    review with the new rating and the city with the same [review_count]
    and, for an average [a] other than zero, with [average_rating] the
    binary64 value of
    [(a * review_count + (r_new - r_old)) / review_count]. Where the
    city has no average or a zero one, the total is the rating change
    alone and the average is its quotient by the count (for a count below
    2^53, where the count is a binary64 number). A value that is not a
    number would be stored as NULL. *)
Theorem update_review_delta_average env review_id user_id review_in db r c r_new :
  reviews db !! review_id = Some r →
  Review.user_id r = user_id →
  ru_rating review_in = Some r_new →
  cities db !! Review.city_id r = Some c →
  1 ≤ City.review_count c ≤ 2 ^ 63 - 1 →
  - 2 ^ 63 ≤ r_new ≤ 2 ^ 63 - 1 →
  - 2 ^ 53 < r_new - Review.rating r < 2 ^ 53 →
  let n := binary64 (City.review_count c) in
  let delta := signed64 (r_new - Review.rating r) in
  let stored v := if PrimFloat.is_nan v then None else Some v in
  ∃ c' r',
    cities (update_review env review_id user_id review_in db).2 !! City.id c
    = Some c' ∧
    City.review_count c' = City.review_count c ∧
    (∀ a, City.average_rating c = Some a → PrimFloat.eqb a 0 = false →
       City.average_rating c'
       = stored (PrimFloat.div (PrimFloat.add (PrimFloat.mul a n) delta) n)) ∧
    (City.average_rating c = None ∨
     (∃ a, City.average_rating c = Some a ∧ PrimFloat.eqb a 0 = true) →
     City.review_count c < 2 ^ 53 →
     City.average_rating c' = stored (PrimFloat.div delta n)) ∧
    reviews (update_review env review_id user_id review_in db).2 !! Review.id r
    = Some r' ∧
    Review.rating r' = r_new.
Proof.
  intros Hr Hu Hnew Hc Hn Hfits Hd. cbv zeta. subst user_id.
  assert (∃ a, average_after_update (City.average_rating c)
                 (City.review_count c) (r_new - Review.rating r) = Return a ∧
               (∀ x, City.average_rating c = Some x → PrimFloat.eqb x 0 = false →
                  a = PrimFloat.div
                        (PrimFloat.add
                           (PrimFloat.mul x (binary64 (City.review_count c)))
                           (signed64 (r_new - Review.rating r)))
                        (binary64 (City.review_count c))) ∧
               (City.average_rating c = None ∨
                (∃ x, City.average_rating c = Some x ∧ PrimFloat.eqb x 0 = true) →
                City.review_count c < 2 ^ 53 →
                a = PrimFloat.div (signed64 (r_new - Review.rating r))
                      (binary64 (City.review_count c))))
    as (a & Ha & Hfloat & Hint).
  { destruct (float_truthy (City.average_rating c)) as [x|] eqn:Htruthy.
    - assert (City.average_rating c = Some x ∧ PrimFloat.eqb x 0 = false)
        as [Hx Hnz].
      { unfold float_truthy in Htruthy.
        destruct (City.average_rating c) as [y|]; [|done].
        change PrimFloat.zero with 0%float in Htruthy.
        destruct (PrimFloat.eqb y 0) eqn:Hy; [done|].
        by injection Htruthy as ->. }
      eexists. split; [|split].
      + rewrite Hx. apply average_after_update_float; [done|lia|lia].
      + intros y Hy _. rewrite Hx in Hy. by injection Hy as <-.
      + intros [Hnone|(y & Hy & Hzero)] _; [congruence|].
        rewrite Hx in Hy. injection Hy as <-. congruence.
    - assert (∀ y, City.average_rating c = Some y → PrimFloat.eqb y 0 = true)
        as Hzero.
      { intros y Hy. unfold float_truthy in Htruthy. rewrite Hy in Htruthy.
        change PrimFloat.zero with 0%float in Htruthy.
        by destruct (PrimFloat.eqb y 0). }
      destruct (decide (City.review_count c < 2 ^ 53)) as [Hsmall|Hlarge].
      + eexists. split; [|split].
        * apply average_after_update_int; [done|lia|lia].
        * intros y Hy Hnz. by rewrite (Hzero y Hy) in Hnz.
        * done.
      + unfold average_after_update, or_zero. rewrite Htruthy.
        cbn [py_mul py_add py_truediv]. rewrite Z.mul_0_l, Z.add_0_l.
        destruct (int_truediv_returns (r_new - Review.rating r)
                    (City.review_count c)) as [f Hf]; [lia|lia|].
        exists f. split; [done|]. split.
        * intros y Hy Hnz. by rewrite (Hzero y Hy) in Hnz.
        * intros _ Hsmall. lia. }
  destruct (update_review_by_author_store env review_id review_in db r c a Hr Hc)
    as (r' & Hid & Hrate & ->).
  { rewrite Hnew. by apply sqlite_integer_spec. }
  { apply sqlite_integer_spec. lia. }
  { by rewrite Hnew. }
  eexists _, r'. cbn. rewrite !lookup_insert_eq.
  split; [reflexivity|]. cbn. split; [done|].
  split; [|split; [|split]].
  - intros x Hx Hnz. by rewrite (Hfloat x Hx Hnz).
  - intros Hfalsy Hsmall. by rewrite (Hint Hfalsy Hsmall).
  - done.
  - by rewrite Hrate, Hnew.
Qed.

(** B raises a rating of 2 to 5 on a city that two reviews rate 3.0 on
    average: the average becomes (3.0 * 2 + 3) / 2 = 4.5. *)
Lemma update_review_delta_average_witness :
  ∃ c' r',
    cities (update_review (Sample.env 3 "") "review-B" "B"
              (mkReviewUpdate (Some 5) None) Sample.db_rated_twice).2 !! "c1"
    = Some c' ∧
    City.review_count c' = 2 ∧
    City.average_rating c' = Some 4.5%float ∧
    reviews (update_review (Sample.env 3 "") "review-B" "B"
               (mkReviewUpdate (Some 5) None) Sample.db_rated_twice).2
      !! "review-B" = Some r' ∧
    Review.rating r' = 5.
Proof.
  assert (1 ≤ City.review_count Sample.paris_twice ≤ 2 ^ 63 - 1) as Hn
    by (cbn; lia).
  assert (- 2 ^ 63 ≤ 5 ≤ 2 ^ 63 - 1) as Hfits by lia.
  assert (- 2 ^ 53 < 5 - Review.rating Sample.review_B < 2 ^ 53) as Hd
    by (cbn; lia).
  destruct (update_review_delta_average (Sample.env 3 "") "review-B" "B"
              (mkReviewUpdate (Some 5) None) Sample.db_rated_twice
              Sample.review_B Sample.paris_twice 5
              eq_refl eq_refl eq_refl eq_refl Hn Hfits Hd)
    as (c' & r' & Hc' & Hcount & Hfloat & _ & Hr' & Hrate).
  exists c', r'.
  split; [exact Hc'|]. split; [exact Hcount|].
  split; [exact (Hfloat 3%float eq_refl eq_refl)|].
  split; [exact Hr'|exact Hrate].
Defined.

(** *** Sequences of submissions *)

Lemma first_where_None_iff {K} `{Countable K} {V} (P : V → bool) (m : gmap K V) :
  first_where P m = None ↔ ∀ k v, m !! k = Some v → P v = false.
Proof.
  split.
  - intros Hn k v. by apply first_where_None.
  - intros Hall. destruct (first_where P m) as [v|] eqn:E; [|done].
    apply first_where_Some in E as [HP [k Hk]].
    rewrite (Hall k v Hk) in HP. done.
Qed.

(** One successful submission through the route: the city row found
    under [city_id] is rewritten with the incremented count and the
    average rebuilt from the stored fields, and one review row is added. *)
Lemma create_city_review_step env city_id review_in u db c a :
  cities db !! city_id = Some c →
  City.id c = city_id →
  City.deleted_at c = None →
  average_after_add (City.average_rating c) (City.review_count c)
    (rc_rating review_in) = Return a →
  sqlite_integer (City.review_count c + 1) = true →
  (∀ k r, reviews db !! k = Some r →
     Review.city_id r = city_id → Review.user_id r ≠ User.id u) →
  reviews db !! uuid4 env = None →
  review_base_ok (rc_rating review_in) (rc_comment review_in) = true →
  let r := Review.mk (uuid4 env) (db_now env) (db_now env) None city_id
             (User.id u) (rc_rating review_in) (rc_comment review_in) in
  let c' := City.set_updated_at (db_now env)
              (City.set_aggregates (sqlite_real (Some a))
                 (City.review_count c + 1) c) in
  ∃ out,
    create_city_review env city_id review_in u db
    = (Return out,
       set_cities (insert city_id c') (set_reviews (insert (uuid4 env) r) db)).
Proof.
  intros Hc Hid Hd Ha Hfits Hnone Hfresh Hok r c'. subst city_id.
  unfold create_city_review, get_city_by_id, bind, query.
  rewrite Hc, Hd.
  unfold add_review_to_city, bind, query.
  assert (first_where (reviewed_by (City.id c) (User.id u)) (reviews db) = None)
    as ->.
  { apply first_where_None_iff. intros k r0 Hk. unfold reviewed_by.
    destruct (decide (Review.city_id r0 = City.id c)) as [Hcity|Hcity].
    - rewrite (bool_decide_eq_false_2 (Review.user_id r0 = User.id u)).
      + by rewrite andb_false_r.
      + by apply (Hnone k r0 Hk).
    - by rewrite (bool_decide_eq_false_2 _ Hcity). }
  unfold average_after_add in Ha. unfold lift at 1.
  destruct (py_mul _ _) as [current_total|]; [|done]. unfold lift at 1.
  destruct (py_add _ _) as [new_total|]; [|done]. unfold lift at 1.
  rewrite Ha.
  unfold insert_review_and_save_city, bind, query. cbn [Review.id].
  rewrite Hfresh. cbn [City.review_count City.set_aggregates Review.rating].
  assert (sqlite_integer (rc_rating review_in) = true) as ->
    by (apply sqlite_integer_spec; unfold review_base_ok in Hok; lia).
  rewrite Hfits. cbn [andb].
  unfold commit, ret, lift.
  unfold ReviewRead_model_validate. cbn [Review.rating Review.comment].
  rewrite Hok. eexists. reflexivity.
Qed.

Lemma review_base_ok_rating rating comment :
  review_base_ok rating comment = true → 1 ≤ rating ≤ 5.
Proof. unfold review_base_ok. lia. Qed.

(** With a count and a rating the store and the schema allow, the
    average is computed whatever the stored average is. *)
Lemma average_after_add_returns average n r :
  0 ≤ n < 2 ^ 63 - 1 → 1 ≤ r ≤ 5 →
  ∃ a, average_after_add average n r = Return a.
Proof.
  intros Hn Hr. unfold average_after_add, or_zero.
  destruct (float_truthy average) as [x|].
  - cbn [py_mul]. rewrite (float_of_Z_small n) by lia. cbn [py_add].
    rewrite (float_of_Z_small r) by lia. cbn [py_truediv].
    rewrite (float_of_Z_small (n + 1)) by lia.
    rewrite (proj2 (Z.eqb_neq (n + 1) 0)) by lia. eauto.
  - cbn [py_mul py_add py_truediv]. apply int_truediv_returns; lia.
Qed.

Lemma may_submit_after_step city_id db env u review_in c' s :
  may_submit city_id db s →
  uuid4 env ≠ review_id_of s →
  User.id u ≠ submitter s →
  may_submit city_id
    (set_cities (insert city_id c')
       (set_reviews
          (insert (uuid4 env)
             (Review.mk (uuid4 env) (db_now env) (db_now env) None city_id
                (User.id u) (rc_rating review_in) (rc_comment review_in))) db)) s.
Proof.
  intros (Hfresh & Hok & Hprior) Hid Hu. unfold may_submit. cbn.
  split; [by rewrite lookup_insert_ne|]. split; [done|].
  intros k r Hk Hcity.
  destruct (decide (uuid4 env = k)) as [<-|Hne].
  - rewrite lookup_insert_eq in Hk. injection Hk as <-. cbn. done.
  - rewrite lookup_insert_ne in Hk by done. by eapply Hprior.
Qed.

Lemma submissions_ok_after_step city_id db s0 rest c' :
  submissions_ok city_id db (s0 :: rest) →
  submissions_ok city_id
    (set_cities (insert city_id c')
       (set_reviews
          (insert (uuid4 (sub_env s0))
             (Review.mk (uuid4 (sub_env s0)) (db_now (sub_env s0))
                (db_now (sub_env s0)) None city_id (User.id (sub_user s0))
                (rc_rating (sub_review s0)) (rc_comment (sub_review s0)))) db))
    rest.
Proof.
  intros (Hu & Hi & Hall). cbn [map] in Hu, Hi.
  apply NoDup_cons in Hu as [Hu0 Hu], Hi as [Hi0 Hi].
  apply Forall_cons in Hall as [_ Hall].
  split; [done|]. split; [done|].
  rewrite Forall_forall in Hall |- *. intros x Hx.
  apply may_submit_after_step; [by apply Hall| |].
  - intros Heq. apply Hi0.
    change (review_id_of s0 = review_id_of x) in Heq. rewrite Heq.
    apply list_elem_of_fmap. by exists x.
  - intros Heq. apply Hu0.
    change (submitter s0 = submitter x) in Heq. rewrite Heq.
    apply list_elem_of_fmap. by exists x.
Qed.

(** Every submission of an admissible sequence succeeds and the count
    goes up by their number, as long as it stays a stored INTEGER. *)
Lemma submit_reviews_count city_id subs :
  ∀ db c,
    cities db !! city_id = Some c →
    City.id c = city_id →
    City.deleted_at c = None →
    0 ≤ City.review_count c →
    City.review_count c + Z.of_nat (length subs) ≤ 2 ^ 63 - 1 →
    submissions_ok city_id db subs →
    ∃ out db' c',
      submit_reviews city_id subs db = (Return out, db') ∧
      length out = length subs ∧
      cities db' !! city_id = Some c' ∧
      City.review_count c' = City.review_count c + Z.of_nat (length subs).
Proof.
  induction subs as [|s0 rest IH]; intros db c Hc Hid Hd Hn Hmax Hok.
  - exists [], db, c. cbn. repeat split; try done. lia.
  - pose proof Hok as (_ & _ & Hall).
    apply Forall_cons in Hall as [(Hfresh & Hvalid & Hprior) _].
    cbn [length] in Hmax.
    destruct (average_after_add_returns (City.average_rating c)
                (City.review_count c) (rc_rating (sub_review s0)))
      as [a Ha]; [lia|by eapply review_base_ok_rating|].
    destruct (create_city_review_step (sub_env s0) city_id (sub_review s0)
                (sub_user s0) db c a Hc Hid Hd Ha) as [out0 Hstep];
      [apply sqlite_integer_spec; lia|done|done|done|].
    set (c1 := City.set_updated_at _ _) in Hstep.
    set (db1 := set_cities _ _) in Hstep.
    destruct (IH db1 c1) as (outs & db' & c' & Hrun & Hlen & Hc' & Hcount).
    + subst db1. cbn. apply lookup_insert_eq.
    + done.
    + done.
    + subst c1. cbn. lia.
    + subst c1. cbn. lia.
    + by apply submissions_ok_after_step.
    + exists (out0 :: outs), db', c'.
      split.
      { cbn [submit_reviews]. unfold bind at 1. rewrite Hstep.
        unfold bind at 1. rewrite Hrun. reflexivity. }
      split; [cbn; by rewrite Hlen|]. split; [done|].
      rewrite Hcount. subst c1. cbn. lia.
Qed.

(** *** The enumeration of the averages *)

Lemma same_aggregate_eq x y : same_aggregate x y = true → x = y.
Proof.
  destruct x as [s a], y as [s' a']. unfold same_aggregate. cbn.
  intros [Hs Ha]%andb_prop.
  apply Z.eqb_eq in Hs. apply FloatAxioms.Leibniz.eqb_spec in Ha. congruence.
Qed.

Lemma dedup_adjacent_elem x l : x ∈ l → x ∈ dedup_adjacent l.
Proof.
  induction l as [|a l IH]; [done|].
  intros Hx. cbn [dedup_adjacent]. destruct l as [|b l]; [done|].
  destruct (same_aggregate a b) eqn:Hsame.
  - apply same_aggregate_eq in Hsame as ->.
    apply IH. apply elem_of_cons in Hx as [->|Hx]; [apply list_elem_of_here|done].
  - apply elem_of_cons in Hx as [->|Hx]; [apply list_elem_of_here|].
    apply list_elem_of_further. by apply IH.
Qed.

Lemma next_level_elem k sts st r :
  st ∈ sts → r ∈ RATINGS →
  (st.1 + r, running_average st.2 k r) ∈ next_level k sts.
Proof.
  intros Hst Hr. unfold next_level. apply dedup_adjacent_elem.
  rewrite merge_sort_Permutation.
  apply list_elem_of_bind. exists st. split; [|done].
  unfold successors. apply list_elem_of_fmap. by exists r.
Qed.

Lemma explore_near_mean fuel k sts st :
  explore fuel k sts = true → st ∈ sts → near_mean k st = true.
Proof.
  intros Hex Hst.
  assert (forallb (near_mean k) sts = true) as Hall
    by (destruct fuel; cbn in Hex; by apply andb_prop in Hex as [? _]).
  rewrite forallb_forall in Hall. apply Hall. by apply list_elem_of_In.
Qed.

Lemma explore_next fuel k sts :
  explore (S fuel) k sts = true → explore fuel (k + 1) (next_level k sts) = true.
Proof. cbn [explore]. by intros [_ ?]%andb_prop. Qed.

Lemma near_mean_spec k s a :
  near_mean k (s, a) = true →
  PrimFloat.is_nan a = false ∧ PrimFloat.eqb a 0 = false ∧
  PrimFloat.leb
    (PrimFloat.abs (PrimFloat.sub a (PrimFloat.div (binary64 s) (binary64 k))))
    (PrimFloat.mul (binary64 k) 0x1p-52) = true ∧
  (k ≤ 7 → a = PrimFloat.div (binary64 s) (binary64 k)).
Proof.
  unfold near_mean. cbn [fst snd].
  intros [[[Hnan Hzero]%andb_prop Hnear]%andb_prop Hexact]%andb_prop.
  apply negb_true_iff in Hnan, Hzero.
  repeat split; try done.
  intros Hk. apply orb_prop in Hexact as [Hlarge|Heq].
  - apply Z.ltb_lt in Hlarge. lia.
  - by apply FloatAxioms.Leibniz.eqb_spec in Heq.
Qed.

Lemma rating_elem r : 1 ≤ r ≤ 5 → r ∈ RATINGS.
Proof.
  intros Hr. unfold RATINGS.
  assert (r = 1 ∨ r = 2 ∨ r = 3 ∨ r = 4 ∨ r = 5) as Hcases by lia.
  repeat (destruct Hcases as [->|Hcases];
          [repeat first [apply list_elem_of_here | apply list_elem_of_further]|]).
  subst. repeat first [apply list_elem_of_here | apply list_elem_of_further].
Qed.

(** One more review on a non-zero average is the binary64 computation. *)
Lemma average_after_add_running a k r :
  PrimFloat.eqb a 0 = false →
  0 ≤ k < 2 ^ 63 - 1 → 0 ≤ r < 2 ^ 63 →
  average_after_add (Some a) k r = Return (running_average a k r).
Proof.
  intros Ha Hk Hr. unfold average_after_add, or_zero, float_truthy.
  change PrimFloat.zero with 0%float. rewrite Ha. cbn [py_mul].
  rewrite (float_of_Z_small k) by lia. cbn [py_add].
  rewrite (float_of_Z_small r) by lia. cbn [py_truediv].
  rewrite (float_of_Z_small (k + 1)) by lia.
  by rewrite (proj2 (Z.eqb_neq (k + 1) 0)) by lia.
Qed.

(** The first review of a city without average or with a zero one. *)
Lemma average_after_add_first average r :
  average = None ∨ average = Some 0%float →
  1 ≤ r ≤ 5 →
  average_after_add average 0 r
  = Return (PrimFloat.div (binary64 r) (binary64 1)).
Proof.
  intros Havg Hr. unfold average_after_add, or_zero.
  assert (float_truthy average = None) as -> by (by destruct Havg as [->| ->]).
  cbn [py_mul py_add py_truediv]. rewrite Z.mul_0_l, Z.add_0_l.
  rewrite int_truediv_small by lia.
  by rewrite (proj2 (Z.ltb_ge r 0)) by lia.
Qed.

(** Along an admissible sequence of submissions the stored pair (sum of
    the ratings, average) stays among the enumerated ones. *)
Lemma submit_reviews_explore city_id subs :
  ∀ fuel k sts s a db c,
    explore fuel k sts = true →
    (s, a) ∈ sts →
    (length subs ≤ fuel)%nat →
    cities db !! city_id = Some c →
    City.id c = city_id →
    City.deleted_at c = None →
    City.average_rating c = Some a →
    City.review_count c = k →
    0 ≤ k →
    k + Z.of_nat (length subs) ≤ 2 ^ 63 - 1 →
    submissions_ok city_id db subs →
    ∃ out db' c' a',
      submit_reviews city_id subs db = (Return out, db') ∧
      cities db' !! city_id = Some c' ∧
      City.average_rating c' = Some a' ∧
      near_mean (k + Z.of_nat (length subs)) (s + sum_Z (ratings subs), a') = true.
Proof.
  induction subs as [|s0 rest IH];
    intros fuel k sts s a db c Hex Hst Hfuel Hc Hid Hd Havg Hcount Hk Hmax Hok.
  - exists [], db, c, a. cbn. rewrite !Z.add_0_r.
    split; [done|]. split; [done|]. split; [done|].
    by eapply explore_near_mean.
  - destruct fuel as [|fuel]; [cbn in Hfuel; lia|].
    cbn [length] in Hfuel, Hmax.
    pose proof Hok as (_ & _ & Hall).
    apply Forall_cons in Hall as [(Hfresh & Hvalid & Hprior) _].
    pose proof (review_base_ok_rating _ _ Hvalid) as Hrating.
    destruct (near_mean_spec _ _ _ (explore_near_mean _ _ _ _ Hex Hst))
      as (_ & Hnz & _).
    pose proof (next_level_elem k sts (s, a) _ Hst (rating_elem _ Hrating))
      as Hnext. cbn [fst snd] in Hnext.
    pose proof (explore_next _ _ _ Hex) as Hex'.
    destruct (near_mean_spec _ _ _ (explore_near_mean _ _ _ _ Hex' Hnext))
      as (Hnan & _).
    destruct (create_city_review_step (sub_env s0) city_id (sub_review s0)
                (sub_user s0) db c
                (running_average a k (rc_rating (sub_review s0))) Hc Hid Hd)
      as [out0 Hstep].
    { rewrite Havg, Hcount. apply average_after_add_running; [done|lia|lia]. }
    { apply sqlite_integer_spec. lia. }
    { done. }
    { done. }
    { done. }
    cbn [sqlite_real] in Hstep. rewrite Hnan in Hstep.
    set (c1 := City.set_updated_at _ _) in Hstep.
    set (db1 := set_cities _ _) in Hstep.
    destruct (IH fuel (k + 1) (next_level k sts)
                (s + rc_rating (sub_review s0))
                (running_average a k (rc_rating (sub_review s0))) db1 c1)
      as (outs & db' & c' & a' & Hrun & Hc' & Ha' & Hnear).
    + done.
    + done.
    + lia.
    + subst db1. cbn. apply lookup_insert_eq.
    + done.
    + done.
    + done.
    + subst c1. cbn. lia.
    + lia.
    + lia.
    + by apply submissions_ok_after_step.
    + exists (out0 :: outs), db', c', a'.
      split.
      { cbn [submit_reviews]. unfold bind at 1. rewrite Hstep.
        unfold bind at 1. rewrite Hrun. reflexivity. }
      split; [done|]. split; [done|].
      cbn [ratings map sum_Z foldr length].
      replace (k + Z.of_nat (S (length rest)))
        with (k + 1 + Z.of_nat (length rest)) by lia.
      replace (s + (rc_rating (sub_review s0) + foldr Z.add 0 (map (λ s1, rc_rating (sub_review s1)) rest)))
        with (s + rc_rating (sub_review s0) + sum_Z (ratings rest))
        by (unfold sum_Z, ratings; lia).
      done.
Qed.

(** Every pair that up to a hundred ratings can leave passes the check:
    the enumeration is run. *)
Lemma averages_explored : explore 99 1 first_level = true.
Proof. vm_compute. reflexivity. Qed.



Example mean_4_2 : mean [4; 2] = 3%float.
Proof. vm_compute. reflexivity. Qed.



(** * Further properties of the handlers and routes *)

(** ** Likes *)

(** On a post whose counter is a stored INTEGER, [toggle_like_post] flips
    exactly the caller's like of this post: it succeeds, the row exists
    afterwards iff it did not before, every other like row and every
    other post is as it was, and the returned post is the one now stored.
    The one exception is a counter at the top of the range, 2^63 - 1,
    with no like row of the caller: the commit raises [OverflowError] and
    nothing is written. *)
Theorem toggle_like_flips env p user_id db :
  - 2 ^ 63 ≤ Post.like_count p ≤ 2 ^ 63 - 1 →
  (likes db !! (user_id, Post.id p) = None →
   Post.like_count p = 2 ^ 63 - 1 →
   toggle_like_post env p user_id db = (Raise OverflowError, db)) ∧
  (is_Some (likes db !! (user_id, Post.id p)) ∨ Post.like_count p < 2 ^ 63 - 1 →
   ∃ p' db',
     toggle_like_post env p user_id db = (Return p', db') ∧
     (is_Some (likes db' !! (user_id, Post.id p))
      ↔ likes db !! (user_id, Post.id p) = None) ∧
     (∀ k, k ≠ (user_id, Post.id p) → likes db' !! k = likes db !! k) ∧
     posts db' !! Post.id p = Some p' ∧
     (∀ q, q ≠ Post.id p → posts db' !! q = posts db !! q)).
Proof.
  intros Hrange. split.
  - intros Hl Htop. apply toggle_like_overflow. rewrite Hl.
    apply not_true_iff_false. rewrite sqlite_integer_spec. lia.
  - intros Hok.
    destruct (likes db !! (user_id, Post.id p)) as [l|] eqn:Hl.
    + rewrite (toggle_like_present _ _ _ _ l Hl)
        by (apply sqlite_integer_spec; lia).
      eexists _, _. split; [reflexivity|]. cbn.
      rewrite lookup_delete_eq, lookup_insert_eq.
      split; [split; [by intros [? ?]|done]|].
      split; [intros k Hk; by rewrite lookup_delete_ne|].
      split; [done|]. intros q Hq. by rewrite lookup_insert_ne.
    + destruct Hok as [[? ?]|Hbelow]; [done|].
      rewrite (toggle_like_absent _ _ _ _ Hl)
        by (apply sqlite_integer_spec; lia).
      eexists _, _. split; [reflexivity|]. cbn.
      rewrite !lookup_insert_eq.
      split; [split; [done|by eexists]|].
      split; [intros k Hk; by rewrite lookup_insert_ne|].
      split; [done|]. intros q Hq. by rewrite lookup_insert_ne.
Qed.

Lemma toggle_like_flips_witness :
  toggle_like_post (Sample.env 3 "") Sample.post_popular "A" Sample.db_popular
  = (Raise OverflowError, Sample.db_popular) ∧
  ∃ p' db',
    toggle_like_post (Sample.env 3 "") Sample.post "A" Sample.db_posts
    = (Return p', db') ∧
    (is_Some (likes db' !! ("A", "p1"))
     ↔ likes Sample.db_posts !! ("A", "p1") = None) ∧
    (∀ k, k ≠ ("A", "p1") → likes db' !! k = likes Sample.db_posts !! k) ∧
    posts db' !! "p1" = Some p' ∧
    (∀ q, q ≠ "p1" → posts db' !! q = posts Sample.db_posts !! q).
Proof.
  assert (- 2 ^ 63 ≤ Post.like_count Sample.post_popular ≤ 2 ^ 63 - 1) as Htop
    by (cbn; lia).
  assert (- 2 ^ 63 ≤ Post.like_count Sample.post ≤ 2 ^ 63 - 1) as Hzero
    by (cbn; lia).
  assert (Post.like_count Sample.post < 2 ^ 63 - 1) as Hbelow by (cbn; lia).
  split.
  - exact (proj1 (toggle_like_flips (Sample.env 3 "") Sample.post_popular "A"
                    Sample.db_popular Htop) eq_refl eq_refl).
  - exact (proj2 (toggle_like_flips (Sample.env 3 "") Sample.post "A"
                    Sample.db_posts Hzero) (or_intror Hbelow)).
Defined.

Lemma like_rows_insert_same user_id post_id l db :
  likes db !! (user_id, post_id) = None →
  like_rows post_id (set_likes (insert (user_id, post_id) l) db)
  = S (like_rows post_id db).
Proof.
  intros Hl. unfold like_rows. cbn.
  rewrite map_filter_insert_True by done.
  apply map_size_insert_None.
  apply map_lookup_filter_None. by left.
Qed.

Lemma like_rows_delete_same user_id post_id l db :
  likes db !! (user_id, post_id) = Some l →
  like_rows post_id db
  = S (like_rows post_id (set_likes (delete (user_id, post_id)) db)).
Proof.
  intros Hl. unfold like_rows. cbn.
  rewrite map_filter_delete.
  assert (filter (λ kv : string * string * Like.t, kv.1.2 = post_id) (likes db)
            !! (user_id, post_id) = Some l) as Hin
    by (by apply map_lookup_filter_Some).
  rewrite map_size_delete_Some by eauto.
  assert (base.size (filter (λ kv : string * string * Like.t, kv.1.2 = post_id)
                       (likes db)) ≠ 0%nat) as Hpos.
  { intros Hz. apply map_size_empty_inv in Hz. rewrite Hz in Hin.
    by rewrite lookup_empty in Hin. }
  lia.
Qed.

Lemma like_rows_other user_id post_id q f db :
  q ≠ post_id →
  (f = delete (user_id, post_id) ∨ ∃ l, f = insert (user_id, post_id) l) →
  like_rows q (set_likes f db) = like_rows q db.
Proof.
  intros Hq Hf. unfold like_rows. cbn. f_equal.
  destruct Hf as [->|[l ->]].
  - rewrite map_filter_delete. apply delete_id.
    apply map_lookup_filter_None. right. intros x _ Heq. cbn in Heq. done.
  - apply map_filter_insert_not. intros y Heq. cbn in Heq. done.
Qed.

Lemma like_rows_set_posts q f db :
  like_rows q (set_posts f db) = like_rows q db.
Proof. reflexivity. Qed.

(** When every stored post counts exactly its like rows, it still does
    after [toggle_like_post] on a stored post: the increment and the
    floored decrement keep [like_count] equal to the number of like rows,
    and the other posts are not touched. *)
Theorem toggle_like_keeps_counts env p user_id db :
  like_counts_ok db →
  posts db !! Post.id p = Some p →
  like_counts_ok (toggle_like_post env p user_id db).2.
Proof.
  intros Hok Hp.
  destruct (sqlite_integer
              (if likes db !! (user_id, Post.id p) is Some _
               then Z.max 0 (Post.like_count p - 1) else Post.like_count p + 1))
    eqn:Hfits; [|by rewrite toggle_like_overflow].
  intros k q.
  destruct (likes db !! (user_id, Post.id p)) as [l|] eqn:Hl.
  - rewrite (toggle_like_present _ _ _ _ l Hl) by done. cbn.
    destruct (decide (k = Post.id p)) as [->|Hne].
    + rewrite lookup_insert_eq. intros [= <-]. cbn.
      rewrite like_rows_set_posts.
      pose proof (like_rows_delete_same _ _ _ _ Hl) as Hrows.
      rewrite (Hok _ _ Hp), Hrows. lia.
    + rewrite lookup_insert_ne by done. intros Hq.
      rewrite like_rows_set_posts, (like_rows_other user_id (Post.id p)) by eauto.
      by apply Hok.
  - rewrite (toggle_like_absent _ _ _ _ Hl) by done. cbn.
    destruct (decide (k = Post.id p)) as [->|Hne].
    + rewrite lookup_insert_eq. intros [= <-]. cbn.
      rewrite like_rows_set_posts, like_rows_insert_same by done.
      rewrite (Hok _ _ Hp). lia.
    + rewrite lookup_insert_ne by done. intros Hq.
      rewrite like_rows_set_posts, (like_rows_other user_id (Post.id p)) by eauto.
      by apply Hok.
Qed.

Lemma toggle_like_keeps_counts_witness :
  like_counts_ok
    (toggle_like_post (Sample.env 3 "") Sample.post "A" Sample.db_posts).2.
Proof.
  apply (toggle_like_keeps_counts (Sample.env 3 "") Sample.post "A"
           Sample.db_posts).
  - intros k p Hk. cbn in Hk.
    apply lookup_insert_Some in Hk as [[<- <-]|[_ Hk]].
    + vm_compute. reflexivity.
    + by rewrite lookup_empty in Hk.
  - reflexivity.
Defined.

(** ** Reviews *)

(** What [add_review_to_city] leaves in the store, whatever it answers:
    either nothing changed, or one review row was added under a key that
    was free and the city row was rewritten with the count incremented. *)
Lemma add_review_store env city review_in user_id db :
  (add_review_to_city env city review_in user_id db).2 = db ∨
  (first_where (reviewed_by (City.id city) user_id) (reviews db) = None ∧
   reviews db !! uuid4 env = None ∧
   ∃ average,
     (add_review_to_city env city review_in user_id db).2
     = set_cities
         (insert (City.id city)
            (City.set_updated_at (db_now env)
               (City.set_aggregates average
                  (City.review_count city + 1) city)))
         (set_reviews
            (insert (uuid4 env)
               (Review.mk (uuid4 env) (db_now env) (db_now env) None
                  (City.id city) user_id (rc_rating review_in)
                  (rc_comment review_in))) db)).
Proof.
  unfold add_review_to_city, bind, query.
  destruct (first_where _ (reviews db)) as [r|] eqn:Hfirst; [by left|].
  unfold lift.
  destruct (py_mul _ _) as [current_total|e]; [|by left].
  destruct (py_add _ _) as [new_total|e]; [|by left].
  destruct (py_truediv _ _) as [average|e]; [|by left].
  unfold insert_review_and_save_city, bind, query. cbn [Review.id].
  destruct (reviews db !! uuid4 env) eqn:Hfresh; [by left|].
  cbn [City.review_count City.set_aggregates Review.rating].
  destruct (sqlite_integer _ && sqlite_integer _); [|by left].
  right. split; [done|]. split; [done|]. exists (sqlite_real (Some average)).
  unfold commit, ret.
  by destruct (ReviewRead_model_validate _).
Qed.

(** [add_review_to_city] never touches another city, never alters or
    removes an existing review row, and leaves posts, likes and users
    alone, whatever its outcome. *)
Theorem add_review_frame env city review_in user_id db :
  let db' := (add_review_to_city env city review_in user_id db).2 in
  (∀ k, k ≠ City.id city → cities db' !! k = cities db !! k) ∧
  (∀ k r, reviews db !! k = Some r → reviews db' !! k = Some r) ∧
  posts db' = posts db ∧ likes db' = likes db ∧ users db' = users db.
Proof.
  cbv zeta.
  destruct (add_review_store env city review_in user_id db)
    as [->|(_ & Hfresh & average & ->)]; [done|]. cbn.
  split; [intros k Hk; by rewrite lookup_insert_ne|].
  split; [|done].
  intros k r Hk. rewrite lookup_insert_ne; [done|].
  intros <-. by rewrite Hfresh in Hk.
Qed.

(** Starting from a store whose review rows sit under their own ids with
    at most one row per (user, city), [add_review_to_city] leaves a store
    of the same kind, whatever its outcome: the duplicate check is what
    keeps a user to one review per city. *)
Theorem add_review_keeps_one_per_user env city review_in user_id db :
  reviews_keyed db →
  one_review_per_user db →
  reviews_keyed (add_review_to_city env city review_in user_id db).2 ∧
  one_review_per_user (add_review_to_city env city review_in user_id db).2.
Proof.
  intros Hkeyed Hone.
  destruct (add_review_store env city review_in user_id db)
    as [->|(Hnone & Hfresh & average & ->)]; [done|].
  set (new := Review.mk _ _ _ _ _ _ _ _).
  assert (∀ k r, reviews db !! k = Some r →
            ¬ (Review.city_id r = City.id city ∧ Review.user_id r = user_id))
    as Hother.
  { intros k r Hk [Hc Hu].
    pose proof (first_where_None _ _ k r Hnone Hk) as Hfalse.
    by rewrite (reviewed_by_true _ _ _ Hc Hu) in Hfalse. }
  split.
  - intros k r. cbn. intros Hk.
    apply lookup_insert_Some in Hk as [[<- <-]|[_ Hk]]; [done|by apply Hkeyed].
  - intros k1 k2 r1 r2. cbn. intros H1 H2 Hc Hu.
    apply lookup_insert_Some in H1 as [[<- <-]|[Hn1 H1]];
      apply lookup_insert_Some in H2 as [[<- <-]|[Hn2 H2]].
    + done.
    + exfalso. apply (Hother k2 r2 H2). by split.
    + exfalso. apply (Hother k1 r1 H1). by split.
    + by eapply Hone.
Qed.

Lemma add_review_keeps_one_per_user_witness :
  reviews_keyed
    (add_review_to_city (Sample.env 2 "review-B") Sample.paris_rated
       (mkReviewCreate 2 None) "B" Sample.db_rated).2 ∧
  one_review_per_user
    (add_review_to_city (Sample.env 2 "review-B") Sample.paris_rated
       (mkReviewCreate 2 None) "B" Sample.db_rated).2.
Proof.
  assert (∀ k r, reviews Sample.db_rated !! k = Some r →
            k = "review-A" ∧ r = Sample.review_A) as Hrows.
  { intros k r Hk. cbn in Hk.
    apply lookup_insert_Some in Hk as [[<- <-]|[_ Hk]]; [done|].
    by rewrite lookup_empty in Hk. }
  apply (add_review_keeps_one_per_user (Sample.env 2 "review-B")
           Sample.paris_rated (mkReviewCreate 2 None) "B" Sample.db_rated).
  - intros k r Hk. by destruct (Hrows k r Hk) as [-> ->].
  - intros k1 k2 r1 r2 H1 H2 _ _.
    destruct (Hrows k1 r1 H1) as [-> _]. by destruct (Hrows k2 r2 H2) as [-> _].
Defined.

Lemma review_rows_insert k r city_id db :
  reviews db !! k = None →
  review_rows city_id (set_reviews (insert k r) db)
  = if decide (Review.city_id r = city_id)
    then S (review_rows city_id db) else review_rows city_id db.
Proof.
  intros Hk. unfold review_rows. cbn. case_decide as Hc.
  - rewrite map_filter_insert_True by done.
    apply map_size_insert_None. apply map_lookup_filter_None. by left.
  - f_equal. apply map_filter_insert_not'; [done|].
    intros y Hy. by rewrite Hk in Hy.
Qed.

(** When every stored city counts exactly its review rows, it still does
    after [add_review_to_city] on a stored city, whatever the outcome: the
    count goes up by one exactly when a review row is added. *)
Theorem add_review_keeps_counts env city review_in user_id db :
  review_counts_ok db →
  cities db !! City.id city = Some city →
  review_counts_ok (add_review_to_city env city review_in user_id db).2.
Proof.
  intros Hok Hcity.
  destruct (add_review_store env city review_in user_id db)
    as [->|(_ & Hfresh & average & ->)]; [done|].
  intros k c. cbn -[review_rows]. intros Hk.
  change (review_rows k (set_cities ?f ?d)) with (review_rows k d).
  rewrite review_rows_insert by done. cbn [Review.city_id].
  apply lookup_insert_Some in Hk as [[<- <-]|[Hne Hk]].
  - rewrite decide_True by done. cbn. rewrite (Hok _ _ Hcity). lia.
  - rewrite decide_False by done. by apply Hok.
Qed.

Lemma add_review_keeps_counts_witness :
  review_counts_ok
    (add_review_to_city (Sample.env 2 "review-B") Sample.paris_rated
       (mkReviewCreate 2 None) "B" Sample.db_rated).2.
Proof.
  apply (add_review_keeps_counts (Sample.env 2 "review-B") Sample.paris_rated
           (mkReviewCreate 2 None) "B" Sample.db_rated).
  - intros k c Hk. cbn in Hk.
    apply lookup_insert_Some in Hk as [[<- <-]|[_ Hk]].
    + vm_compute. reflexivity.
    + by rewrite lookup_empty in Hk.
  - reflexivity.
Defined.

(** What [update_review] leaves in the store, whatever it answers: either
    nothing changed, or the review row was rewritten with at most its
    rating and comment changed and the row of its city with a new
    average. *)
Lemma update_review_store env review_id user_id review_in db :
  (update_review env review_id user_id review_in db).2 = db ∨
  ∃ r c r' average,
    reviews db !! review_id = Some r ∧
    Review.user_id r = user_id ∧
    cities db !! Review.city_id r = Some c ∧
    Review.id r' = Review.id r ∧
    Review.city_id r' = Review.city_id r ∧
    Review.user_id r' = Review.user_id r ∧
    Review.created_at r' = Review.created_at r ∧
    Review.rating r' = default (Review.rating r) (ru_rating review_in) ∧
    Review.comment r'
    = (if ru_comment review_in is Some s then Some s else Review.comment r) ∧
    (update_review env review_id user_id review_in db).2
    = set_cities
        (insert (City.id c)
           (City.set_updated_at (db_now env)
              (City.set_aggregates average (City.review_count c) c)))
        (set_reviews (insert (Review.id r) r') db).
Proof.
  unfold update_review, bind, query.
  destruct (reviews db !! review_id) as [r|] eqn:Hr; [|by left].
  destruct (decide (Review.user_id r = user_id)) as [Hu|Hu];
    [|rewrite bool_decide_eq_true_2 by done; by left].
  rewrite bool_decide_eq_false_2 by (intros Hne; by apply Hne).
  destruct (cities db !! Review.city_id r) as [c|] eqn:Hc; [|by left].
  unfold lift.
  destruct (py_mul _ _) as [total_before|e]; [|by left].
  destruct (py_add _ _) as [total_after|e]; [|by left].
  destruct (py_truediv _ _) as [average|e]; [|by left].
  unfold save_review_and_city.
  destruct (sqlite_integer _ && sqlite_integer _); [|by left].
  right. unfold bind, commit, ret.
  set (r2 := Review.set_updated_at _ _).
  exists r, c, r2, (sqlite_real (Some average)).
  split; [done|]. split; [done|]. split; [done|].
  repeat split; try (subst r2;
    destruct (ru_rating review_in), (ru_comment review_in); reflexivity).
Qed.

Lemma review_rows_replace k r r' city_id db :
  reviews db !! k = Some r →
  Review.city_id r' = Review.city_id r →
  review_rows city_id (set_reviews (insert k r') db) = review_rows city_id db.
Proof.
  intros Hk Hc. unfold review_rows. cbn.
  rewrite map_filter_insert. cbn. case_decide as Hp.
  - apply map_size_insert_Some. exists r.
    apply map_lookup_filter_Some. split; [done|]. cbn. by rewrite <- Hc.
  - f_equal. rewrite map_filter_delete. apply delete_id.
    apply map_lookup_filter_None. right. intros x Hx. cbn.
    rewrite Hk in Hx. injection Hx as <-. by rewrite <- Hc.
Qed.

(** [update_review] keeps the store well-formed, whatever its outcome:
    rows stay under their own ids, each user keeps at most one review per
    city, and every city still counts exactly its review rows (the update
    moves no review to another city or user and changes no count). *)
Theorem update_review_keeps_invariants env review_id user_id review_in db :
  reviews_keyed db → cities_keyed db →
  one_review_per_user db → review_counts_ok db →
  let db' := (update_review env review_id user_id review_in db).2 in
  reviews_keyed db' ∧ cities_keyed db' ∧
  one_review_per_user db' ∧ review_counts_ok db'.
Proof.
  intros Hrk Hck Hone Hcount. cbv zeta.
  destruct (update_review_store env review_id user_id review_in db)
    as [->|(r & c & r' & average & Hr & _ & Hc & Hid & Hcity & Huser & _ & _ & _ & ->)];
    [done|].
  pose proof (Hrk _ _ Hr) as Hrid. pose proof (Hck _ _ Hc) as Hcid.
  rewrite Hrid.
  split; [|split; [|split]].
  - intros k x. cbn. intros Hk.
    apply lookup_insert_Some in Hk as [[<- <-]|[_ Hk]]; [congruence|by apply Hrk].
  - intros k x. cbn. intros Hk.
    apply lookup_insert_Some in Hk as [[<- <-]|[_ Hk]]; [done|by apply Hck].
  - intros k1 k2 r1 r2. cbn. intros H1 H2 Hsc Hsu.
    apply lookup_insert_Some in H1 as [[<- <-]|[Hn1 H1]];
      apply lookup_insert_Some in H2 as [[<- <-]|[Hn2 H2]].
    + done.
    + apply (Hone review_id k2 r r2 Hr H2); congruence.
    + apply (Hone k1 review_id r1 r H1 Hr); congruence.
    + by eapply Hone.
  - intros k x. cbn -[review_rows]. intros Hk.
    change (review_rows k (set_cities ?f ?d)) with (review_rows k d).
    rewrite (review_rows_replace _ r) by done.
    apply lookup_insert_Some in Hk as [[<- <-]|[_ Hk]].
    + cbn. rewrite Hcid. by apply Hcount.
    + by apply Hcount.
Qed.

Lemma sample_db_rated_rows k r :
  reviews Sample.db_rated !! k = Some r → k = "review-A" ∧ r = Sample.review_A.
Proof.
  intros Hk. cbn in Hk.
  apply lookup_insert_Some in Hk as [[<- <-]|[_ Hk]]; [done|].
  by rewrite lookup_empty in Hk.
Qed.

Lemma sample_db_rated_cities k c :
  cities Sample.db_rated !! k = Some c → k = "c1" ∧ c = Sample.paris_rated.
Proof.
  intros Hk. cbn in Hk.
  apply lookup_insert_Some in Hk as [[<- <-]|[_ Hk]]; [done|].
  by rewrite lookup_empty in Hk.
Qed.

Lemma update_review_keeps_invariants_witness :
  let db' := (update_review (Sample.env 2 "") "review-A" "A"
                (mkReviewUpdate (Some 2) (Some "So-so")) Sample.db_rated).2 in
  reviews_keyed db' ∧ cities_keyed db' ∧
  one_review_per_user db' ∧ review_counts_ok db'.
Proof.
  apply (update_review_keeps_invariants (Sample.env 2 "") "review-A" "A"
           (mkReviewUpdate (Some 2) (Some "So-so")) Sample.db_rated).
  - intros k r Hk. by destruct (sample_db_rated_rows k r Hk) as [-> ->].
  - intros k c Hk. by destruct (sample_db_rated_cities k c Hk) as [-> ->].
  - intros k1 k2 r1 r2 H1 H2 _ _.
    destruct (sample_db_rated_rows k1 r1 H1) as [-> _].
    by destruct (sample_db_rated_rows k2 r2 H2) as [-> _].
  - intros k c Hk. destruct (sample_db_rated_cities k c Hk) as [-> ->].
    vm_compute. reflexivity.
Defined.

Lemma average_after_update_single r_old r_new :
  1 ≤ r_old ≤ 5 → 1 ≤ r_new ≤ 5 →
  average_after_update (Some (binary64 r_old)) 1 (r_new - r_old)
  = Return (binary64 r_new).
Proof.
  intros Ho Hn.
  assert (r_old = 1 ∨ r_old = 2 ∨ r_old = 3 ∨ r_old = 4 ∨ r_old = 5) as Hco by lia.
  assert (r_new = 1 ∨ r_new = 2 ∨ r_new = 3 ∨ r_new = 4 ∨ r_new = 5) as Hcn by lia.
  destruct Hco as [->|[->|[->|[->| ->]]]];
    destruct Hcn as [->|[->|[->|[->| ->]]]]; vm_compute; reflexivity.
Qed.

Lemma binary64_rating_number r :
  1 ≤ r ≤ 5 → PrimFloat.is_nan (binary64 r) = false.
Proof.
  intros Hr.
  assert (r = 1 ∨ r = 2 ∨ r = 3 ∨ r = 4 ∨ r = 5) as Hc by lia.
  destruct Hc as [->|[->|[->|[->| ->]]]]; vm_compute; reflexivity.
Qed.

(** A city with a single review whose average is that review's rating:
    when the author changes the rating (both ratings between 1 and 5),
    the stored average becomes exactly the new rating and the count stays
    one. *)
Theorem update_only_review_sets_average env review_id review_in db r c r_new :
  reviews db !! review_id = Some r →
  cities db !! Review.city_id r = Some c →
  City.review_count c = 1 →
  City.average_rating c = Some (binary64 (Review.rating r)) →
  1 ≤ Review.rating r ≤ 5 →
  ru_rating review_in = Some r_new →
  1 ≤ r_new ≤ 5 →
  ∃ c',
    cities (update_review env review_id (Review.user_id r) review_in db).2
      !! City.id c = Some c' ∧
    City.review_count c' = 1 ∧
    City.average_rating c' = Some (binary64 r_new).
Proof.
  intros Hr Hc Hone Havg Hold Hin Hnew.
  destruct (update_review_by_author_store env review_id review_in db r c
              (binary64 r_new) Hr Hc)
    as (r' & _ & _ & ->).
  { rewrite Hin. change (default (Review.rating r) (Some r_new)) with r_new.
    apply sqlite_integer_spec. lia. }
  { by rewrite Hone. }
  { rewrite Hone, Havg, Hin. cbn [default].
    by apply average_after_update_single. }
  cbn. rewrite lookup_insert_eq. eexists. split; [reflexivity|]. cbn.
  split; [done|]. by rewrite binary64_rating_number.
Qed.

Lemma update_only_review_sets_average_witness :
  ∃ c',
    cities (update_review (Sample.env 2 "") "review-A" "A"
              (mkReviewUpdate (Some 2) None) Sample.db_rated).2 !! "c1"
    = Some c' ∧
    City.review_count c' = 1 ∧
    City.average_rating c' = Some 2%float.
Proof.
  apply (update_only_review_sets_average (Sample.env 2 "") "review-A"
           (mkReviewUpdate (Some 2) None) Sample.db_rated Sample.review_A
           Sample.paris_rated 2); try reflexivity; cbn; lia.
Defined.

(** ** Soft-deleted rows and the routes *)

(** Once a city is soft-deleted it can no longer be reviewed: the review
    route answers 404 "City not found" and writes nothing, as it does for
    an id that names no city. *)
Theorem deleted_city_rejects_reviews env1 env2 c review_in current_user db :
  City.deleted_at c = None →
  let db1 := (delete_city env1 c db).2 in
  create_city_review env2 (City.id c) review_in current_user db1
  = (Raise (HTTPException 404 "City not found"), db1).
Proof.
  intros Hd. cbv zeta.
  unfold delete_city. rewrite Hd.
  unfold save_city, create_city_review, get_city_by_id, bind, commit, ret, query.
  cbn. by rewrite lookup_insert_eq.
Qed.

Lemma deleted_city_rejects_reviews_witness :
  let db1 := (delete_city (Sample.env 5 "") Sample.paris Sample.db_paris).2 in
  create_city_review (Sample.env 6 "review-A") "c1" (mkReviewCreate 4 None)
    (Sample.user "A") db1
  = (Raise (HTTPException 404 "City not found"), db1).
Proof.
  apply (deleted_city_rejects_reviews (Sample.env 5 "")
           (Sample.env 6 "review-A") Sample.paris (mkReviewCreate 4 None)
           (Sample.user "A") Sample.db_paris).
  reflexivity.
Defined.

(** The route that restores a comment can never do so: it looks the
    comment up among the active ones and then refuses it for not being
    deleted. Every request is answered 404 or 400 and the store is never
    written. *)
Theorem restore_comment_route_never_restores env post_id comment_id current_user db :
  ∃ e,
    PostRoutes.restore_comment env post_id comment_id current_user db
    = (Raise e, db) ∧
    (e = HTTPException 404 "Comment not found" ∨
     e = HTTPException 400 "Comment does not belong to the specified post" ∨
     e = HTTPException 400 "Comment is not deleted").
Proof.
  unfold PostRoutes.restore_comment, PostRoutes.comment_of_post,
    get_comment_by_id, bind, query.
  destruct (comments db !! comment_id) as [c|]; [|eauto].
  destruct (Comment.deleted_at c) eqn:Hd; [eauto|].
  case_bool_decide; [eauto|]. unfold ret. rewrite Hd. eauto 6.
Qed.

(** Deleting through the routes is not repeatable: after a successful
    delete of an active stored city, flight or post (the post by its
    author), the same request is answered 404 and changes nothing, since
    the routes only find active rows. *)
Theorem delete_route_then_not_found env1 env2 db :
  (∀ c, cities db !! City.id c = Some c → City.deleted_at c = None →
     ∃ db1,
       CityRoutes.delete_city env1 (City.id c) db
       = (Return "City successfully deleted", db1) ∧
       CityRoutes.delete_city env2 (City.id c) db1
       = (Raise (HTTPException 404 "City not found"), db1)) ∧
  (∀ f, flights db !! Flight.id f = Some f → Flight.deleted_at f = None →
     ∃ db1,
       FlightRoutes.delete_flight env1 (Flight.id f) db
       = (Return "Flight successfully deleted", db1) ∧
       FlightRoutes.delete_flight env2 (Flight.id f) db1
       = (Raise (HTTPException 404 "Flight not found"), db1)) ∧
  (∀ p u, posts db !! Post.id p = Some p → Post.deleted_at p = None →
     User.id u = Post.user_id p →
     ∃ db1,
       PostRoutes.delete_post env1 (Post.id p) u db
       = (Return "Post successfully deleted", db1) ∧
       PostRoutes.delete_post env2 (Post.id p) u db1
       = (Raise (HTTPException 404 "Post not found"), db1)).
Proof.
  repeat split.
  - intros c Hc Hd.
    unfold CityRoutes.delete_city, get_city_by_id, delete_city, save_city,
      bind, query, commit, ret.
    rewrite Hc, Hd. cbn. rewrite Hd. cbn.
    eexists. split; [reflexivity|]. cbn. by rewrite lookup_insert_eq.
  - intros f Hf Hd.
    unfold FlightRoutes.delete_flight, get_flight_by_id, soft_delete_flight,
      save_flight, bind, query, commit, ret.
    rewrite Hf, Hd. cbn. rewrite Hd. cbn.
    eexists. split; [reflexivity|]. cbn. by rewrite lookup_insert_eq.
  - intros p u Hp Hd Hu.
    unfold PostRoutes.delete_post, get_post_by_id, soft_delete_post,
      save_post, bind, query, commit, ret.
    rewrite Hp, Hd. cbn. rewrite Hu.
    rewrite bool_decide_eq_false_2 by (intros Hne; by apply Hne).
    rewrite Hd. cbn.
    eexists. split; [reflexivity|]. cbn. by rewrite lookup_insert_eq.
Qed.

Lemma delete_route_then_not_found_witness :
  ∃ db1,
    PostRoutes.delete_post (Sample.env 5 "") "p1" (Sample.user "A")
      Sample.db_posts = (Return "Post successfully deleted", db1) ∧
    PostRoutes.delete_post (Sample.env 6 "") "p1" (Sample.user "A") db1
    = (Raise (HTTPException 404 "Post not found"), db1).
Proof.
  destruct (delete_route_then_not_found (Sample.env 5 "") (Sample.env 6 "")
              Sample.db_posts) as (_ & _ & Hp).
  apply (Hp Sample.post (Sample.user "A")); reflexivity.
Defined.

(** ** Creating posts and comments *)

(** A post can only be created for a flight that exists and is not
    soft-deleted: otherwise [create_post] answers 404 naming the flight id
    and writes nothing. For an active flight (and a fresh post id) the
    post is stored with [like_count = 0], no deletion stamp and the caller
    as author, [get_post_by_id] finds it, and no other post is touched. *)
Theorem create_post_needs_active_flight env post_in user_id db :
  ((flights db !! pc_flight_id post_in = None ∨
    ∃ f t, flights db !! pc_flight_id post_in = Some f ∧
           Flight.deleted_at f = Some t) →
   create_post env post_in user_id db
   = (Raise (HTTPException 404
        ("Flight with ID " +:+ pc_flight_id post_in +:+ " not found.")), db)) ∧
  (∀ f, flights db !! pc_flight_id post_in = Some f →
     Flight.deleted_at f = None →
     posts db !! uuid4 env = None →
     ∃ p db',
       create_post env post_in user_id db = (Return p, db') ∧
       Post.id p = uuid4 env ∧ Post.like_count p = 0 ∧
       Post.deleted_at p = None ∧ Post.user_id p = user_id ∧
       Post.flight_id p = pc_flight_id post_in ∧
       Post.title p = pc_title post_in ∧
       Post.description p = pc_description post_in ∧
       get_post_by_id (uuid4 env) db' = (Return (Some p), db') ∧
       (∀ k, k ≠ uuid4 env → posts db' !! k = posts db !! k)).
Proof.
  split.
  - intros Hflight. unfold create_post, get_flight_by_id, bind, query.
    destruct Hflight as [->|(f & t & -> & ->)]; reflexivity.
  - intros f Hf Hd Hfresh.
    unfold create_post, get_flight_by_id, insert_post, bind, query, commit, ret.
    rewrite Hf, Hd. cbn. rewrite Hfresh.
    eexists _, _. split; [reflexivity|]. cbn.
    repeat split.
    + unfold get_post_by_id, query. cbn. by rewrite lookup_insert_eq.
    + intros k Hk. by rewrite lookup_insert_ne.
Qed.

Lemma create_post_needs_active_flight_witness :
  ∃ p db',
    create_post (Sample.env 7 "p2") (mkPostCreate "Landing" "Bumpy" "f1") "B"
      Sample.db_posts = (Return p, db') ∧
    Post.id p = "p2" ∧ Post.like_count p = 0 ∧
    Post.deleted_at p = None ∧ Post.user_id p = "B" ∧
    Post.flight_id p = "f1" ∧ Post.title p = "Landing" ∧
    Post.description p = "Bumpy" ∧
    get_post_by_id "p2" db' = (Return (Some p), db') ∧
    (∀ k, k ≠ "p2" → posts db' !! k = posts Sample.db_posts !! k).
Proof.
  destruct (create_post_needs_active_flight (Sample.env 7 "p2")
              (mkPostCreate "Landing" "Bumpy" "f1") "B" Sample.db_posts)
    as [_ Hok].
  apply (Hok Sample.flight); reflexivity.
Defined.

(** [create_comment] stores the comment under its fresh id for the given
    post and author without looking at the post at all (existence and
    deletion of the post are left to the caller); the comment is then
    found by [get_comment_by_id] until it is soft-deleted by its author. *)
Theorem create_comment_then_get env1 env2 comment_in post_id user_id db :
  comments db !! uuid4 env1 = None →
  ∃ c db',
    create_comment env1 comment_in post_id user_id db = (Return c, db') ∧
    Comment.id c = uuid4 env1 ∧ Comment.post_id c = post_id ∧
    Comment.user_id c = user_id ∧ Comment.content c = cc_content comment_in ∧
    posts db' = posts db ∧
    get_comment_by_id (uuid4 env1) db' = (Return (Some c), db') ∧
    get_comment_by_id (uuid4 env1) (soft_delete_comment env2 c user_id db').2
    = (Return None, (soft_delete_comment env2 c user_id db').2).
Proof.
  intros Hfresh.
  unfold create_comment, bind, query, commit, ret. cbn [Comment.id].
  rewrite Hfresh.
  eexists _, _. split; [reflexivity|]. cbn.
  repeat split.
  - unfold get_comment_by_id, query. cbn. by rewrite lookup_insert_eq.
  - unfold soft_delete_comment. cbn.
    rewrite bool_decide_eq_false_2 by (intros Hne; by apply Hne).
    unfold save_comment, get_comment_by_id, bind, query, commit, ret. cbn.
    by rewrite lookup_insert_eq.
Qed.

Lemma create_comment_then_get_witness :
  ∃ c db',
    create_comment (Sample.env 7 "k2") (mkCommentCreate "Agreed") "p1" "B"
      Sample.db_posts = (Return c, db') ∧
    Comment.id c = "k2" ∧ Comment.post_id c = "p1" ∧
    Comment.user_id c = "B" ∧ Comment.content c = "Agreed" ∧
    posts db' = posts Sample.db_posts ∧
    get_comment_by_id "k2" db' = (Return (Some c), db') ∧
    get_comment_by_id "k2"
      (soft_delete_comment (Sample.env 8 "") c "B" db').2
    = (Return None, (soft_delete_comment (Sample.env 8 "") c "B" db').2).
Proof.
  apply (create_comment_then_get (Sample.env 7 "k2") (Sample.env 8 "")
           (mkCommentCreate "Agreed") "p1" "B" Sample.db_posts).
  reflexivity.
Defined.


(** ** Accounts *)

Section AccountProperties.
Variable get_password_hash : string → string.
Variable verify_password : string → string → bool.
Variable jwt_encode : gmap string pyval → string.
Variable jwt_decode : string → option (gmap string pyval).
Variable valid_email : string → bool.
Variable normalize_email : string → string.
Variable valid_uuid : string → bool.
Variable ACCESS_TOKEN_EXPIRE_MINUTES : Z.
Variable REFRESH_TOKEN_EXPIRE_MINUTES : Z.

#[local] Abbreviation register env data :=
  (register_new_user get_password_hash jwt_encode valid_email normalize_email
     valid_uuid ACCESS_TOKEN_EXPIRE_MINUTES REFRESH_TOKEN_EXPIRE_MINUTES
     env data).

Lemma get_user_by_email_None email db :
  (∀ k u, users db !! k = Some u → User.email u ≠ email) →
  get_user_by_email email db = (Return None, db).
Proof.
  intros Hnone. unfold get_user_by_email, query. f_equal. f_equal.
  apply first_where_None_iff. intros k u Hk. unfold email_is.
  apply bool_decide_eq_false_2. by eapply Hnone.
Qed.

(** What a registration leaves in the store, whatever it answers: nothing
    changed, or one user row added under a free id with an email no row
    had. *)
Lemma register_store env user_data db :
  (register env user_data db).2 = db ∨
  (users db !! uuid4 env = None ∧
   first_where (email_is (uc_email user_data)) (users db) = None ∧
   users (register env user_data db).2
   = <[uuid4 env :=
         User.mk (uuid4 env) (db_now env) (db_now env) None
           (uc_email user_data) (get_password_hash (uc_password user_data))]>
       (users db) ∧
   cities (register env user_data db).2 = cities db ∧
   reviews (register env user_data db).2 = reviews db ∧
   posts (register env user_data db).2 = posts db ∧
   likes (register env user_data db).2 = likes db).
Proof.
  unfold register_new_user, get_user_by_email, create_user, bind, query.
  destruct (first_where _ (users db)) eqn:Hfirst; [by left|].
  cbn [User.id]. rewrite Hfirst.
  destruct (users db !! uuid4 env) eqn:Hfresh; [by left|].
  right. unfold commit, ret, lift.
  match goal with
  | |- context [UserOut_model_validate ?a ?b ?c ?u] =>
      destruct (UserOut_model_validate a b c u)
  end; done.
Qed.

(** Registration with an email that some user row already carries, be
    the row soft-deleted or not, is refused with 400 and writes
    nothing. *)
Theorem register_duplicate_email env user_data db k u :
  users db !! k = Some u →
  User.email u = uc_email user_data →
  register env user_data db
  = (Raise (HTTPException 400 "An account with this email already exists."),
     db).
Proof.
  intros Hk He. unfold register_new_user, get_user_by_email, bind, query.
  destruct (first_where_is_Some (email_is (uc_email user_data)) (users db) k u Hk)
    as [u' ->]; [|done].
  unfold email_is. by rewrite bool_decide_eq_true_2.
Qed.

(** Registration keeps emails unique among the user rows, whatever its
    outcome. *)
Theorem register_keeps_emails_unique env user_data db :
  emails_unique db →
  emails_unique (register env user_data db).2.
Proof.
  intros Huniq.
  destruct (register_store env user_data db)
    as [->|(Hfresh & Hnone & Husers & _)]; [done|].
  intros k1 k2 u1 u2. rewrite Husers. intros H1 H2 He.
  assert (∀ k u, users db !! k = Some u → User.email u ≠ uc_email user_data)
    as Hother.
  { intros k u Hk Heq.
    pose proof (first_where_None _ _ k u Hnone Hk) as Hfalse.
    unfold email_is in Hfalse. by rewrite bool_decide_eq_true_2 in Hfalse. }
  apply lookup_insert_Some in H1 as [[<- <-]|[Hn1 H1]];
    apply lookup_insert_Some in H2 as [[<- <-]|[Hn2 H2]].
  - done.
  - exfalso. by apply (Hother k2 u2 H2).
  - exfalso. by apply (Hother k1 u1 H1).
  - by eapply Huniq.
Qed.

(** [authenticate_user] never writes. It returns only a stored user with
    the given email whose hash verifies the password; every other case,
    unknown email and wrong password alike, is the one 401 "Incorrect
    email or password". *)
Theorem authenticate_user_sound email password db :
  (∃ u k,
     authenticate_user verify_password email password db = (Return u, db) ∧
     users db !! k = Some u ∧ User.email u = email ∧
     verify_password password (User.hashed_password u) = true) ∨
  authenticate_user verify_password email password db
  = (Raise (HTTPException 401 "Incorrect email or password"), db).
Proof.
  unfold authenticate_user, get_user_by_email, bind, query.
  destruct (first_where _ (users db)) as [u|] eqn:Hfirst; [|by right].
  apply first_where_Some in Hfirst as [He [k Hk]].
  unfold email_is in He. apply bool_decide_eq_true_1 in He.
  destruct (verify_password password (User.hashed_password u)) eqn:Hpw;
    [left|by right].
  exists u, k. done.
Qed.

(** [get_current_active_user] never writes, and when it returns a user,
    the token decoded to claims whose subject is an address the validator
    accepts, the email of the user is the normal form of that subject,
    and the user is a stored row: no token resolves to a user it does not
    name, though the subject may spell the address differently. *)
Theorem get_current_active_user_sound token db u db' :
  get_current_active_user jwt_decode valid_email normalize_email token db
  = (Return u, db') →
  db' = db ∧
  ∃ claims subject k,
    jwt_decode token = Some claims ∧
    claims !! "sub" = Some (PyStr subject) ∧
    valid_email subject = true ∧
    User.email u = normalize_email subject ∧
    users db !! k = Some u.
Proof.
  unfold get_current_active_user, verify_token, get_user_by_email, bind,
    lift, query, ret, raise.
  destruct (jwt_decode token) as [claims|]; [|done].
  destruct (claims !! "sub") as [[| |email|]|] eqn:Hsub; try done.
  destruct (valid_email email) eqn:Hvalid; [|done].
  destruct (first_where _ (users db)) as [u'|] eqn:Hfirst; [|done].
  intros [= -> <-]. split; [done|].
  apply first_where_Some in Hfirst as [He [k Hk]].
  unfold email_is in He. apply bool_decide_eq_true_1 in He.
  exists claims, email, k. done.
Qed.

Lemma register_Return env user_data db resp db' :
  register env user_data db = (Return resp, db') →
  first_where (email_is (uc_email user_data)) (users db) = None ∧
  users db !! uuid4 env = None ∧
  valid_email (uc_email user_data) = true ∧
  db' = with_user (registered_user get_password_hash env user_data) db ∧
  resp = mkAuthResponse
           (issue_tokens jwt_encode ACCESS_TOKEN_EXPIRE_MINUTES
              REFRESH_TOKEN_EXPIRE_MINUTES env (registered_user get_password_hash env user_data))
           (mkUserOut (normalize_email (uc_email user_data)) (uuid4 env)
              (db_now env)).
Proof.
  unfold register_new_user, get_user_by_email, create_user, bind, query.
  destruct (first_where _ (users db)) eqn:Hfirst; [done|].
  cbn [User.id]. rewrite Hfirst.
  destruct (users db !! uuid4 env) eqn:Hfresh; [done|].
  unfold commit, ret, lift, UserOut_model_validate. cbn.
  destruct (valid_email (uc_email user_data)); [|done].
  destruct (valid_uuid (uuid4 env)); [|done]. cbn.
  intros [= <- <-]. done.
Qed.

Lemma register_succeeds env user_data db :
  (∀ k u, users db !! k = Some u → User.email u ≠ uc_email user_data) →
  users db !! uuid4 env = None →
  valid_email (uc_email user_data) = true →
  valid_uuid (uuid4 env) = true →
  ∃ resp,
    register env user_data db
    = (Return resp, with_user (registered_user get_password_hash env user_data) db).
Proof.
  intros Hnone Hfresh Hemail Huuid.
  unfold register_new_user, bind. rewrite (get_user_by_email_None _ _ Hnone).
  unfold create_user, bind, query. cbn [User.id]. rewrite Hfresh.
  assert (first_where (email_is (uc_email user_data)) (users db) = None) as ->.
  { apply first_where_None_iff. intros k u Hk. unfold email_is.
    apply bool_decide_eq_false_2. by eapply Hnone. }
  unfold commit, ret, lift, UserOut_model_validate. cbn.
  rewrite Hemail, Huuid. cbn. eexists. reflexivity.
Qed.

Lemma registered_user_lookup env user_data db :
  first_where (email_is (uc_email user_data)) (users db) = None →
  get_user_by_email (uc_email user_data)
    (with_user (registered_user get_password_hash env user_data) db)
  = (Return (Some (registered_user get_password_hash env user_data)),
     with_user (registered_user get_password_hash env user_data) db).
Proof.
  intros Hnone.
  apply (get_user_by_email_unique _ (uuid4 env) (registered_user get_password_hash env user_data)).
  - cbn. apply lookup_insert_eq.
  - intros k u. cbn. intros Hk He.
    apply lookup_insert_Some in Hk as [[_ <-]|[_ Hk]]; [done|].
    pose proof (first_where_None _ _ k u Hnone Hk) as Hfalse.
    unfold email_is in Hfalse. by rewrite bool_decide_eq_true_2 in Hfalse.
Qed.


(** The access token handed out at registration authenticates as the new
    user: if it decodes to claims whose subject is the registered email
    (an [EmailStr] value, so in normal form),
    [get_current_active_user] returns the user just stored. *)
Theorem registered_token_authenticates env user_data db resp db' claims :
  normalize_email (uc_email user_data) = uc_email user_data →
  register env user_data db = (Return resp, db') →
  jwt_decode (access_token (ar_token resp)) = Some claims →
  claims !! "sub" = Some (PyStr (uc_email user_data)) →
  ∃ u,
    get_current_active_user jwt_decode valid_email normalize_email
      (access_token (ar_token resp)) db' = (Return u, db') ∧
    users db' !! uo_id (ar_user resp) = Some u ∧
    User.email u = uc_email user_data.
Proof.
  intros Hnormal Hreg Hdecode Hsub.
  destruct (register_Return _ _ _ _ _ Hreg) as (Hfirst & _ & Hemail & -> & ->).
  pose proof (registered_user_lookup env user_data db Hfirst) as Hget.
  exists (registered_user get_password_hash env user_data).
  split; [|split; [cbn; apply lookup_insert_eq|done]].
  unfold get_current_active_user, verify_token, bind, lift.
  rewrite Hdecode, Hsub, Hemail, Hnormal. by rewrite Hget.
Qed.

End AccountProperties.


Lemma sample_db_ghost_users k u :
  users Sample.db_ghost !! k = Some u → k = "u9" ∧ u = Sample.ghost.
Proof.
  intros Hk. cbn in Hk. by apply lookup_singleton_Some in Hk as [<- <-].
Qed.

Lemma register_duplicate_email_witness :
  register_new_user Fixture.get_password_hash Fixture.jwt_encode
    Fixture.valid_email Fixture.normalize_email Fixture.valid_uuid 30 10080
    (Sample.env 4 "u10")
    (mkUserCreate "ghost@example.com" "boo") Sample.db_ghost
  = (Raise (HTTPException 400 "An account with this email already exists."),
     Sample.db_ghost).
Proof.
  apply register_duplicate_email with (k := "u9") (u := Sample.ghost);
    reflexivity.
Defined.

Lemma register_keeps_emails_unique_witness :
  emails_unique
    (register_new_user Fixture.get_password_hash Fixture.jwt_encode
       Fixture.valid_email Fixture.normalize_email Fixture.valid_uuid 30 10080
    (Sample.env 4 "u10")
       Fixture.ada Sample.db_ghost).2.
Proof.
  apply register_keeps_emails_unique.
  intros k1 k2 u1 u2 H1 H2 _.
  destruct (sample_db_ghost_users k1 u1 H1) as [-> _].
  by destruct (sample_db_ghost_users k2 u2 H2) as [-> _].
Defined.

(** A token whose subject spells the domain in capitals resolves to the
    user whose stored email is the normal form. *)
Lemma get_current_active_user_sound_witness :
  Sample.db_ghost = Sample.db_ghost ∧
  ∃ claims subject k,
    Sample.jwt_decode "token-of-GHOST" = Some claims ∧
    claims !! "sub" = Some (PyStr subject) ∧
    Sample.valid_email subject = true ∧
    User.email Sample.ghost = Sample.normalize_email subject ∧
    users Sample.db_ghost !! k = Some Sample.ghost.
Proof.
  apply (get_current_active_user_sound Sample.jwt_decode Sample.valid_email
           Sample.normalize_email "token-of-GHOST" Sample.db_ghost Sample.ghost
           Sample.db_ghost).
  vm_compute. reflexivity.
Defined.


Lemma registered_token_authenticates_witness :
  ∃ resp db' u,
    register_new_user Fixture.get_password_hash Fixture.jwt_encode
      Fixture.valid_email Fixture.normalize_email Fixture.valid_uuid 30 10080
    (Sample.env 4 "u10")
      Fixture.ada Sample.db_ghost = (Return resp, db') ∧
    get_current_active_user Fixture.jwt_decode Fixture.valid_email
      Fixture.normalize_email (access_token (ar_token resp)) db'
    = (Return u, db') ∧
    users db' !! uo_id (ar_user resp) = Some u ∧
    User.email u = "ada@example.com".
Proof.
  assert (∀ k u, users Sample.db_ghost !! k = Some u →
            User.email u ≠ uc_email Fixture.ada) as Hnone.
  { intros k u Hk. by destruct (sample_db_ghost_users k u Hk) as [_ ->]. }
  destruct (register_succeeds Fixture.get_password_hash Fixture.jwt_encode
              Fixture.valid_email Fixture.normalize_email Fixture.valid_uuid
              30 10080
              (Sample.env 4 "u10") Fixture.ada Sample.db_ghost Hnone
              eq_refl eq_refl eq_refl) as [resp Hreg].
  pose proof (register_Return _ _ _ _ _ _ _ _ _ _ _ _ Hreg)
    as (_ & _ & _ & _ & Hresp).
  assert (Fixture.jwt_decode (access_token (ar_token resp))
          = Some {[ "sub" := PyStr "ada@example.com" ]}) as Hdecode.
  { rewrite Hresp. vm_compute; reflexivity. }
  destruct (registered_token_authenticates Fixture.get_password_hash
              Fixture.jwt_encode Fixture.jwt_decode Fixture.valid_email
              Fixture.normalize_email Fixture.valid_uuid 30 10080
              (Sample.env 4 "u10") Fixture.ada Sample.db_ghost resp _ _
              eq_refl Hreg Hdecode eq_refl)
    as (u & Hget & Hu & He).
  eexists resp, _, u.
  split; [exact Hreg|]. split; [exact Hget|]. split; [exact Hu|exact He].
Defined.

(** ** Listings *)

Lemma StronglySorted_sublist {A} (R : relation A) (l1 l2 : list A) :
  l1 `sublist_of` l2 → StronglySorted R l2 → StronglySorted R l1.
Proof.
  induction 1 as [|x l1 l2 Hsub IH|x l1 l2 Hsub IH]; intros Hs.
  - constructor.
  - apply StronglySorted_inv in Hs as [Hs Hall]. constructor; [by apply IH|].
    rewrite Forall_forall in Hall |- *. intros y Hy. apply Hall.
    by eapply elem_of_sublist.
  - apply StronglySorted_inv in Hs as [Hs _]. by apply IH.
Qed.

Lemma offset_limit_sublist {A} (offset size : Z) (rows : list A) :
  offset_limit offset size rows `sublist_of` rows.
Proof.
  unfold offset_limit. etrans; [apply sublist_take|apply sublist_drop].
Qed.

Lemma offset_limit_length {A} (offset size : Z) (rows : list A) :
  (length (offset_limit offset size rows) ≤ Z.to_nat size)%nat.
Proof. unfold offset_limit. rewrite length_take. lia. Qed.

Lemma offset_limit_first_page {A} (size : Z) (rows : list A) :
  Z.of_nat (length rows) ≤ size → offset_limit 0 size rows = rows.
Proof.
  intros Hsize. unfold offset_limit. cbn. apply take_ge. lia.
Qed.

#[local] Instance earliest_departure_trans : Transitive earliest_departure.
Proof. intros a b c. unfold earliest_departure. lia. Qed.
#[local] Instance earliest_departure_total : Total earliest_departure.
Proof. intros a b. unfold earliest_departure. lia. Qed.
#[local] Instance newest_first_trans : Transitive newest_first.
Proof. intros a b c. unfold newest_first. lia. Qed.
#[local] Instance newest_first_total : Total newest_first.
Proof. intros a b. unfold newest_first. lia. Qed.

Lemma active_rows_elem {K} `{Countable K} {V} (P : V → Prop)
    `{∀ v, Decision (P v)} (m : gmap K V) v :
  v ∈ filter P (map_to_list m).*2 ↔ P v ∧ ∃ k, m !! k = Some v.
Proof.
  rewrite list_elem_of_filter, list_elem_of_fmap. split.
  - intros [HP [[k v'] [-> Hin]]]. split; [done|].
    exists k. by apply elem_of_map_to_list.
  - intros [HP [k Hk]]. split; [done|].
    exists (k, v). split; [done|]. by apply elem_of_map_to_list.
Qed.

Lemma flights_page_unfold pg sz db :
  flights_page pg sz db
  = (let active :=
       filter (λ f : Flight.t, Flight.deleted_at f = None)
         (map_to_list (flights db)).*2 in
     (Return
        (mkPage
           (offset_limit ((pg - 1) * sz) sz
              (merge_sort earliest_departure active))
           (Z.of_nat (length active)) pg sz), db)).
Proof. reflexivity. Qed.


Lemma posts_page_unfold pg sz flight_id db :
  posts_page pg sz flight_id db
  = (let active :=
       filter (λ p : Post.t, Post.deleted_at p = None)
         (map_to_list (posts db)).*2 in
     let selected :=
       match flight_id with
       | Some fid =>
           if bool_decide (fid = "") then active
           else filter (λ p : Post.t, Post.flight_id p = fid) active
       | None => active
       end in
     (Return
        (mkPage
           (offset_limit ((pg - 1) * sz) sz (merge_sort newest_first selected))
           (Z.of_nat (length selected)) pg sz), db)).
Proof.
  destruct flight_id as [fid|]; [|reflexivity].
  unfold posts_page, call. cbv zeta.
  change (bind_keywords _ _ _ _)
    with (Return (<["flight_id" := PyStr fid]>
                    (<["size" := PyInt sz]>
                       (<["page" := PyInt pg]>
                          (<["db" := PySession]> (∅ : gmap string pyval)))))).
  cbv iota.
  change (fill_defaults _ _ _)
    with (Return (<["flight_id" := PyStr fid]>
                    (<["size" := PyInt sz]>
                       (<["page" := PyInt pg]>
                          (<["db" := PySession]> (∅ : gmap string pyval)))))).
  cbv iota. cbn [fn_code get_posts_paginated].
  unfold get_posts_paginated_code, str_filter.
  rewrite lookup_insert_eq.
  change (int_arg _ "page") with (@Return Z pg).
  change (int_arg _ "size") with (@Return Z sz).
  unfold_handler. by destruct (bool_decide (fid = "")).
Qed.

Lemma selected_post_elem flight_id db p :
  p ∈ (match flight_id with
       | Some fid =>
           if bool_decide (fid = "")
           then filter (λ p : Post.t, Post.deleted_at p = None)
                  (map_to_list (posts db)).*2
           else filter (λ p : Post.t, Post.flight_id p = fid)
                  (filter (λ p : Post.t, Post.deleted_at p = None)
                     (map_to_list (posts db)).*2)
       | None =>
           filter (λ p : Post.t, Post.deleted_at p = None)
             (map_to_list (posts db)).*2
       end)
  ↔ selected_post flight_id p ∧ ∃ k, posts db !! k = Some p.
Proof.
  unfold selected_post.
  destruct flight_id as [fid|]; [case_bool_decide as Hfid|].
  - rewrite (active_rows_elem (λ p, Post.deleted_at p = None)). tauto.
  - rewrite list_elem_of_filter,
      (active_rows_elem (λ p, Post.deleted_at p = None)).
    tauto.
  - rewrite (active_rows_elem (λ p, Post.deleted_at p = None)). tauto.
Qed.



(** ** Flights *)

Lemma check_cities_exist_found (S : gset (option string)) (m : gmap string City.t) :
  length (filter (λ k, Some k ∈ S) (map_to_list m).*1) = base.size S
  ↔ ∀ x, x ∈ S → ∃ k, x = Some k ∧ is_Some (m !! k).
Proof.
  set (found := filter (λ k, Some k ∈ S) (map_to_list m).*1).
  set (F := list_to_set (Some <$> found) : gset (option string)).
  assert (NoDup (Some <$> found)) as Hnd.
  { apply (NoDup_fmap_2 _). apply NoDup_filter, NoDup_fst_map_to_list. }
  assert (base.size F = length found) as Hsize.
  { unfold F. rewrite size_list_to_set by done. apply length_fmap. }
  assert (∀ x, x ∈ F ↔ ∃ k, x = Some k ∧ Some k ∈ S ∧ is_Some (m !! k)) as HF.
  { intros x. unfold F. rewrite elem_of_list_to_set, list_elem_of_fmap. split.
    - intros (k & -> & Hk). exists k. split; [done|].
      apply list_elem_of_filter in Hk as [HS Hk]. split; [done|].
      apply list_elem_of_fmap in Hk as ([k' c] & -> & Hin).
      exists c. by apply elem_of_map_to_list.
    - intros (k & -> & HS & [c Hc]). exists k. split; [done|].
      apply list_elem_of_filter. split; [done|].
      apply list_elem_of_fmap. exists (k, c). split; [done|].
      by apply elem_of_map_to_list. }
  assert (F ⊆ S) as Hsub.
  { intros x Hx. apply HF in Hx as (k & -> & HS & _). done. }
  rewrite <- Hsize. split.
  - intros Heq x Hx.
    assert (F = S) as HFS by (apply set_subseteq_size_eq; [done|lia]).
    rewrite <- HFS in Hx. apply HF in Hx as (k & -> & _ & Hk). eauto.
  - intros Hall. f_equal. apply set_eq. intros x. split; [apply Hsub|].
    intros Hx. apply HF. destruct (Hall x Hx) as (k & -> & Hk). eauto.
Qed.

Lemma check_cities_exist_cases origin destination db :
  (check_cities_exist origin destination db = (Return tt, db) ∧
   ∃ ko kd, origin = Some ko ∧ destination = Some kd ∧
            is_Some (cities db !! ko) ∧ is_Some (cities db !! kd)) ∨
  (check_cities_exist origin destination db
   = (Raise (HTTPException 404 "Origin or destination city not found."), db) ∧
   ¬ ∃ ko kd, origin = Some ko ∧ destination = Some kd ∧
              is_Some (cities db !! ko) ∧ is_Some (cities db !! kd)).
Proof.
  unfold check_cities_exist, bind, query.
  pose proof (check_cities_exist_found ({[origin]} ∪ {[destination]}) (cities db))
    as Hfound.
  case_bool_decide as Hlen.
  - right. split; [done|].
    intros (ko & kd & -> & -> & Ho & Hd).
    apply Hlen, Hfound. intros x Hx.
    apply elem_of_union in Hx as [Hx|Hx]; apply elem_of_singleton in Hx as ->;
      eauto.
  - left. split; [done|].
    destruct (proj1 Hfound Hlen origin) as (ko & -> & Ho);
      [apply elem_of_union_l; by apply elem_of_singleton|].
    destruct (proj1 Hfound Hlen destination) as (kd & -> & Hd);
      [apply elem_of_union_r; by apply elem_of_singleton|].
    eauto 6.
Qed.

(** [check_cities_exist] passes exactly when both ids name a city row,
    soft-deleted or not (one row is enough when they are the same id);
    otherwise, a null id included, it answers 404. It never writes. *)
Theorem check_cities_exist_iff origin destination db :
  ((∃ ko kd, origin = Some ko ∧ destination = Some kd ∧
             is_Some (cities db !! ko) ∧ is_Some (cities db !! kd)) →
   check_cities_exist origin destination db = (Return tt, db)) ∧
  (¬ (∃ ko kd, origin = Some ko ∧ destination = Some kd ∧
               is_Some (cities db !! ko) ∧ is_Some (cities db !! kd)) →
   check_cities_exist origin destination db
   = (Raise (HTTPException 404 "Origin or destination city not found."), db)).
Proof.
  destruct (check_cities_exist_cases origin destination db)
    as [[-> Hboth]|[-> Hnot]].
  - split; [done|]. intros Hnot. by destruct (Hnot Hboth).
  - split; [|done]. intros Hboth. by destruct (Hnot Hboth).
Qed.

Lemma apply_column_Return {A V} (set : V → A → A) field x a' :
  apply_column set field x = Return a' →
  ∃ a, x = Return a ∧ a' = patch_column set field a.
Proof.
  destruct x as [a|e]; [|by destruct field as [[v|]|]].
  destruct field as [[v|]|]; cbn; intros [= <-]; eauto.
Qed.

Lemma apply_nullable_Return {A V} (set : option V → A → A) field x a' :
  apply_nullable set field x = Return a' →
  ∃ a, x = Return a ∧ a' = patch_nullable set field a.
Proof.
  destruct x as [a|e]; [|by destruct field].
  destruct field as [v|]; cbn; intros [= <-]; eauto.
Qed.

Lemma patch_column_proj {A V B} (proj : A → B) (set : V → A → A) field a :
  (∀ v a, proj (set v a) = proj a) →
  proj (patch_column set field a) = proj a.
Proof. intros Hset. destruct field as [[v|]|]; cbn; [apply Hset|done|done]. Qed.

Lemma patch_nullable_proj {A V B} (proj : A → B) (set : option V → A → A)
    field a :
  (∀ v a, proj (set v a) = proj a) →
  proj (patch_nullable set field a) = proj a.
Proof. intros Hset. destruct field as [v|]; cbn; [apply Hset|done]. Qed.

(** A flight update that goes through keeps the id and both the creation
    and the deletion stamp, and the flight number unless a new one is
    given. *)
Lemma apply_flight_update_Return flight_in f f' :
  apply_flight_update flight_in f = Return f' →
  Flight.id f' = Flight.id f ∧
  Flight.created_at f' = Flight.created_at f ∧
  Flight.deleted_at f' = Flight.deleted_at f ∧
  Flight.flight_number f'
  = (if fu_flight_number flight_in is Some (Some n) then n
     else Flight.flight_number f).
Proof.
  unfold apply_flight_update. intros H.
  apply apply_column_Return in H as (f7 & H & ->).
  apply apply_column_Return in H as (f6 & H & ->).
  apply apply_column_Return in H as (f5 & H & ->).
  apply apply_column_Return in H as (f4 & H & ->).
  apply apply_column_Return in H as (f3 & H & ->).
  apply apply_nullable_Return in H as (f2 & H & ->).
  apply apply_column_Return in H as (f1 & H & ->).
  apply apply_column_Return in H as (f0 & [= <-] & ->).
  repeat split;
    repeat first [ rewrite patch_column_proj by done
                 | rewrite patch_nullable_proj by done ]; try done.
  unfold patch_column. by destruct (fu_flight_number flight_in) as [[n|]|].
Qed.

Lemma flight_number_free n db :
  first_where (has_flight_number n) (flights db) = None
  ↔ ∀ k f, flights db !! k = Some f → Flight.flight_number f ≠ n.
Proof.
  rewrite first_where_None_iff. unfold has_flight_number. split.
  - intros Hall k f Hk Heq. specialize (Hall k f Hk).
    by rewrite bool_decide_eq_true_2 in Hall.
  - intros Hall k f Hk. apply bool_decide_eq_false_2. by eapply Hall.
Qed.



(** What [update_flight] leaves in the store, whatever it answers. *)
Lemma update_flight_store env f flight_in db :
  (update_flight env f flight_in db).2 = db ∨
  ∃ f',
    apply_flight_update flight_in f = Return f' ∧
    (∀ n, fu_flight_number flight_in = Some (Some n) →
       n ≠ Flight.flight_number f →
       first_where (has_flight_number n) (flights db) = None) ∧
    (update_flight env f flight_in db).2
    = set_flights
        (insert (Flight.id f') (Flight.set_updated_at (db_now env) f')) db.
Proof.
  unfold update_flight, bind, query.
  match goal with
  | |- context [match ?e with Some _ => raise _ | None => _ end db] =>
      destruct e as [x|] eqn:Hexisting
  end; [by left|].
  match goal with
  | |- context [(if ?b then check_cities_exist ?o ?d else ret tt) db] =>
      destruct b;
      [destruct (check_cities_exist o d db) as [[[]|e] db1] eqn:Hcheck|]
  end.
  - assert (db1 = db) as ->.
    { unfold check_cities_exist, bind, query in Hcheck.
      case_bool_decide; by injection Hcheck. }
    unfold lift at 1.
    destruct (apply_flight_update flight_in f) as [f'|e] eqn:Hupd; [|by left].
    right. exists f'. split; [done|]. split; [|reflexivity].
    intros n Hn Hne. rewrite Hn in Hexisting.
    by rewrite bool_decide_eq_true_2 in Hexisting.
  - assert (db1 = db) as ->.
    { unfold check_cities_exist, bind, query in Hcheck.
      case_bool_decide; by injection Hcheck. }
    by left.
  - unfold ret at 1. unfold lift at 1.
    destruct (apply_flight_update flight_in f) as [f'|e] eqn:Hupd; [|by left].
    right. exists f'. split; [done|]. split; [|reflexivity].
    intros n Hn Hne. rewrite Hn in Hexisting.
    by rewrite bool_decide_eq_true_2 in Hexisting.
Qed.

Lemma create_flight_store env flight_in db :
  (create_flight env flight_in db).2 = db ∨
  ∃ f,
    Flight.flight_number f = fc_flight_number flight_in ∧
    first_where (has_flight_number (fc_flight_number flight_in)) (flights db)
    = None ∧
    flights db !! uuid4 env = None ∧
    (create_flight env flight_in db).2 = set_flights (insert (uuid4 env) f) db.
Proof.
  unfold create_flight, bind, query.
  destruct (first_where _ (flights db)) eqn:Hfree; [by left|].
  destruct (check_cities_exist _ _ db) as [[[]|e] db1] eqn:Hcheck.
  - assert (db1 = db) as ->.
    { unfold check_cities_exist, bind, query in Hcheck.
      case_bool_decide; by injection Hcheck. }
    cbn [Flight.id].
    destruct (flights db !! uuid4 env) eqn:Hfresh; [by left|].
    right. eexists. split; [|split; [done|split; [done|reflexivity]]]. done.
  - assert (db1 = db) as ->.
    { unfold check_cities_exist, bind, query in Hcheck.
      case_bool_decide; by injection Hcheck. }
    by left.
Qed.

(** Flight numbers stay unique among the flight rows: [create_flight]
    and, for a stored flight, [update_flight] leave no two rows with the
    same number, whatever their outcome. *)
Theorem flight_handlers_keep_numbers_unique env db :
  flight_numbers_unique db →
  (∀ flight_in, flight_numbers_unique (create_flight env flight_in db).2) ∧
  (∀ f flight_in, flights db !! Flight.id f = Some f →
     flight_numbers_unique (update_flight env f flight_in db).2).
Proof.
  intros Huniq. split.
  - intros flight_in.
    destruct (create_flight_store env flight_in db)
      as [->|(f & Hn & Hfree & Hfresh & ->)]; [done|].
    pose proof (proj1 (flight_number_free _ _) Hfree) as Hno. clear Hfree.
    rename Hno into Hfree.
    intros k1 k2 f1 f2. cbn. intros H1 H2 Heq.
    apply lookup_insert_Some in H1 as [[<- <-]|[Hn1 H1]];
      apply lookup_insert_Some in H2 as [[<- <-]|[Hn2 H2]].
    + done.
    + exfalso. apply (Hfree k2 f2 H2). congruence.
    + exfalso. apply (Hfree k1 f1 H1). congruence.
    + by eapply Huniq.
  - intros f flight_in Hf.
    destruct (update_flight_store env f flight_in db)
      as [->|(f' & Hupd & Hfree & ->)]; [done|].
    apply apply_flight_update_Return in Hupd as (Hid & _ & _ & Hnum).
    rewrite Hid.
    assert (∀ k2 f2, flights db !! k2 = Some f2 →
              Flight.flight_number f2 = Flight.flight_number f' →
              k2 = Flight.id f) as Hsame.
    { intros k2 f2 H2 Heq. rewrite Hnum in Heq.
      destruct (fu_flight_number flight_in) as [[n|]|] eqn:Hfu;
        try (by apply (Huniq k2 (Flight.id f) f2 f)).
      destruct (decide (n = Flight.flight_number f)) as [->|Hne];
        [by apply (Huniq k2 (Flight.id f) f2 f)|].
      exfalso. specialize (Hfree n eq_refl Hne).
      by apply (proj1 (flight_number_free _ _) Hfree k2 f2 H2). }
    intros k1 k2 f1 f2. cbn. intros H1 H2 Heq.
    apply lookup_insert_Some in H1 as [[<- <-]|[Hn1 H1]];
      apply lookup_insert_Some in H2 as [[<- <-]|[Hn2 H2]].
    + done.
    + symmetry. apply (Hsame k2 f2 H2). by rewrite <- Heq.
    + by apply (Hsame k1 f1 H1).
    + by eapply Huniq.
Qed.

Lemma sample_db_posts_flights k f :
  flights Sample.db_posts !! k = Some f → k = "f1" ∧ f = Sample.flight.
Proof.
  intros Hk. cbn in Hk.
  apply lookup_insert_Some in Hk as [[<- <-]|[_ Hk]]; [done|].
  by rewrite lookup_empty in Hk.
Qed.

Lemma flight_handlers_keep_numbers_unique_witness :
  flight_numbers_unique
    (create_flight (Sample.env 3 "f2")
       (mkFlightCreate "AZ200" "ITA" None "c1" "c1" SCHEDULED 30 40)
       Sample.db_posts).2 ∧
  flight_numbers_unique
    (update_flight (Sample.env 3 "") Sample.flight
       (mkFlightUpdate (Some (Some "AZ101")) None None None None None None None)
       Sample.db_posts).2.
Proof.
  destruct (flight_handlers_keep_numbers_unique (Sample.env 3 "f2")
              Sample.db_posts) as [Hc _].
  { intros k1 k2 f1 f2 H1 H2 _.
    destruct (sample_db_posts_flights k1 f1 H1) as [-> _].
    by destruct (sample_db_posts_flights k2 f2 H2) as [-> _]. }
  destruct (flight_handlers_keep_numbers_unique (Sample.env 3 "")
              Sample.db_posts) as [_ Hu].
  { intros k1 k2 f1 f2 H1 H2 _.
    destruct (sample_db_posts_flights k1 f1 H1) as [-> _].
    by destruct (sample_db_posts_flights k2 f2 H2) as [-> _]. }
  split; [apply Hc|apply Hu; reflexivity].
Defined.

Lemma apply_column_Raise {A V} (set : V → A → A) field x e :
  apply_column set field x = Raise e → e = IntegrityError ∨ x = Raise e.
Proof.
  destruct x as [a|e']; [|destruct field as [[v|]|]; cbn; by right].
  destruct field as [[v|]|]; cbn; intros H; try discriminate.
  injection H as <-. by left.
Qed.

Lemma apply_nullable_Raise {A V} (set : option V → A → A) field x e :
  apply_nullable set field x = Raise e → x = Raise e.
Proof. destruct x as [a|e'], field as [v|]; cbn; intros H; done. Qed.

(** A flight update fails only on a null for a NOT NULL column. *)
Lemma apply_flight_update_Raise flight_in f e :
  apply_flight_update flight_in f = Raise e → e = IntegrityError.
Proof.
  unfold apply_flight_update. intros H.
  repeat (apply apply_column_Raise in H as [H|H]; [done|]).
  apply apply_nullable_Raise in H.
  repeat (apply apply_column_Raise in H as [H|H]; [done|]).
  done.
Qed.

(** Renumbering a flight to a number another row carries is refused with
    400 and writes nothing, while sending the flight's own number again
    is never such a conflict. *)
Theorem update_flight_number_taken env f flight_in db n :
  fu_flight_number flight_in = Some (Some n) →
  (n ≠ Flight.flight_number f →
   (∃ k f2, flights db !! k = Some f2 ∧ Flight.flight_number f2 = n) →
   update_flight env f flight_in db
   = (Raise (HTTPException 400
               "Flight with this flight number already exists."), db)) ∧
  (n = Flight.flight_number f →
   (update_flight env f flight_in db).1
   ≠ Raise (HTTPException 400
              "Flight with this flight number already exists.")).
Proof.
  intros Hfu. split.
  - intros Hne (k & f2 & Hk & Hn).
    unfold update_flight, bind, query. rewrite Hfu.
    rewrite bool_decide_eq_true_2 by done.
    destruct (first_where_is_Some (has_flight_number n) (flights db) k f2 Hk)
      as [x ->]; [|done].
    unfold has_flight_number. by rewrite bool_decide_eq_true_2.
  - intros -> Heq. revert Heq.
    unfold update_flight, bind, query. rewrite Hfu.
    rewrite bool_decide_eq_false_2 by (intros Hne; by apply Hne).
    unfold check_cities_exist, bind, query, raise, ret, lift, save_flight,
      bind, commit, ret.
    destruct (apply_flight_update flight_in f) as [f'|e] eqn:Hupd;
      [|apply apply_flight_update_Raise in Hupd as ->];
      repeat case_bool_decide; repeat case_match; cbn; congruence.
Qed.

Lemma update_flight_number_taken_witness :
  update_flight (Sample.env 3 "") Sample.flight (Fixture.renumber "AZ200")
    Fixture.db_two_flights
  = (Raise (HTTPException 400
              "Flight with this flight number already exists."),
     Fixture.db_two_flights) ∧
  (update_flight (Sample.env 3 "") Sample.flight (Fixture.renumber "AZ100")
     Fixture.db_two_flights).1
  ≠ Raise (HTTPException 400 "Flight with this flight number already exists.").
Proof.
  split.
  - apply (update_flight_number_taken (Sample.env 3 "") Sample.flight
             (Fixture.renumber "AZ200") Fixture.db_two_flights "AZ200" eq_refl).
    + discriminate.
    + exists "f2", Fixture.flight2. split; reflexivity.
  - apply (update_flight_number_taken (Sample.env 3 "") Sample.flight
             (Fixture.renumber "AZ100") Fixture.db_two_flights "AZ100" eq_refl).
    reflexivity.
Defined.

(** ** Partial updates by the author *)

(** [update_post] by the author writes exactly the fields the request
    carries: title and description take the values given and keep theirs
    when absent; [like_count], author, flight, creation and deletion
    stamps are never changed, and no other post and no like row is
    touched. A null for either field is refused by the store
    ([IntegrityError]) and nothing is written. *)
Theorem update_post_by_author env p post_in db :
  (pu_title post_in = Some None ∨ pu_description post_in = Some None →
   update_post env p post_in (Post.user_id p) db = (Raise IntegrityError, db)) ∧
  (pu_title post_in ≠ Some None → pu_description post_in ≠ Some None →
   ∃ p',
     update_post env p post_in (Post.user_id p) db
     = (Return p', set_posts (insert (Post.id p) p') db) ∧
     Post.title p' = patched_title post_in p ∧
     Post.description p' = patched_description post_in p ∧
     Post.id p' = Post.id p ∧ Post.like_count p' = Post.like_count p ∧
     Post.user_id p' = Post.user_id p ∧ Post.flight_id p' = Post.flight_id p ∧
     Post.created_at p' = Post.created_at p ∧
     Post.deleted_at p' = Post.deleted_at p).
Proof.
  unfold update_post, patched_title, patched_description.
  rewrite bool_decide_eq_false_2 by (intros Hne; by apply Hne).
  unfold bind, lift, save_post, commit, ret.
  split.
  - intros [Ht|Hd].
    + rewrite Ht. cbn. by destruct (pu_description post_in) as [[d|]|].
    + rewrite Hd. by destruct (pu_title post_in) as [[t|]|].
  - intros Ht Hd.
    destruct (pu_title post_in) as [[t|]|], (pu_description post_in) as [[d|]|];
      try done; cbn; eexists; (split; [reflexivity|]); done.
Qed.

Lemma update_post_by_author_witness :
  ∃ p',
    update_post (Sample.env 7 "") Sample.post
      (mkPostUpdate (Some (Some "Lift-off")) None) "A" Sample.db_posts
    = (Return p', set_posts (insert "p1" p') Sample.db_posts) ∧
    Post.title p' = "Lift-off" ∧ Post.description p' = "Smooth" ∧
    Post.id p' = "p1" ∧ Post.like_count p' = 0 ∧
    Post.user_id p' = "A" ∧ Post.flight_id p' = "f1" ∧
    Post.created_at p' = 0 ∧ Post.deleted_at p' = None.
Proof.
  destruct (update_post_by_author (Sample.env 7 "") Sample.post
              (mkPostUpdate (Some (Some "Lift-off")) None) Sample.db_posts)
    as [_ Hok].
  apply Hok; discriminate.
Defined.

(** ** Cities and their photos *)

Lemma city_name_free n db :
  first_where (has_name n) (cities db) = None
  ↔ ∀ k c, cities db !! k = Some c → City.name c ≠ n.
Proof.
  rewrite first_where_None_iff. unfold has_name. split.
  - intros Hall k c Hk Heq. specialize (Hall k c Hk).
    by rewrite bool_decide_eq_true_2 in Hall.
  - intros Hall k c Hk. apply bool_decide_eq_false_2. by eapply Hall.
Qed.

Lemma new_photos_city env fresh city_id photos ph :
  ph ∈ new_photos env fresh city_id photos → Photo.city_id ph = city_id.
Proof.
  unfold new_photos. intros Hin.
  apply list_elem_of_lookup in Hin as [i Hi].
  rewrite list_lookup_imap in Hi.
  destruct (photos !! i); [|done]. cbn in Hi. by injection Hi as <-.
Qed.

Lemma new_photos_length env fresh city_id photos :
  length (new_photos env fresh city_id photos) = length photos.
Proof. unfold new_photos. apply length_imap. Qed.

Lemma insert_photos_lookup_inv rows table k ph :
  insert_photos rows table !! k = Some ph →
  ph ∈ rows ∨ table !! k = Some ph.
Proof.
  induction rows as [|r rows IH]; cbn; [by right|].
  intros Hk. apply lookup_insert_Some in Hk as [[_ <-]|[_ Hk]].
  - left. apply list_elem_of_here.
  - destruct (IH Hk) as [Hin|Ht]; [left; by apply list_elem_of_further|by right].
Qed.

Lemma insert_photos_lookup_new rows table ph :
  NoDup (Photo.id <$> rows) → ph ∈ rows →
  insert_photos rows table !! Photo.id ph = Some ph.
Proof.
  induction rows as [|r rows IH]; cbn; [by intros _ ?%not_elem_of_nil|].
  intros Hnd Hin. apply NoDup_cons in Hnd as [Hr Hnd].
  apply elem_of_cons in Hin as [->|Hin]; [apply lookup_insert_eq|].
  rewrite lookup_insert_ne; [by apply IH|].
  intros Heq. apply Hr. rewrite Heq. apply list_elem_of_fmap. by exists ph.
Qed.

Lemma insert_photos_lookup_old rows table k :
  k ∉ Photo.id <$> rows → insert_photos rows table !! k = table !! k.
Proof.
  induction rows as [|r rows IH]; cbn; [done|].
  intros Hk. apply not_elem_of_cons in Hk as [Hne Hk].
  rewrite lookup_insert_ne by done. by apply IH.
Qed.

Lemma photos_storable_spec env fresh city_id photos :
  photos_storable (new_photos env fresh city_id photos) = true
  ↔ ∀ ph, ph ∈ photos → - 2 ^ 63 ≤ pb_position ph ≤ 2 ^ 63 - 1.
Proof.
  unfold photos_storable, new_photos. rewrite forallb_forall. split.
  - intros Hall ph Hin. apply list_elem_of_lookup in Hin as [i Hi].
    apply sqlite_integer_spec.
    apply (Hall (Photo.mk (fresh i) (db_now env) (db_now env) None city_id
                   (pb_url ph) (pb_caption ph) (pb_position ph))).
    apply list_elem_of_In, list_elem_of_lookup. exists i.
    rewrite list_lookup_imap, Hi. reflexivity.
  - intros Hall row Hin. apply list_elem_of_In, list_elem_of_lookup in Hin as [i Hi].
    rewrite list_lookup_imap in Hi.
    destruct (photos !! i) as [ph|] eqn:Hph; [|done].
    cbn in Hi. injection Hi as <-. cbn.
    apply sqlite_integer_spec, Hall. by eapply list_elem_of_lookup_2.
Qed.

(** [create_city] refuses a name that any city row carries, soft-deleted
    rows included, with 400 and writes nothing. With a free name, fresh
    ids and photo positions that fit an INTEGER, the city is stored
    active with no reviews ([review_count] 0, average 0.0) and is found
    by [get_city_by_id]; every photo of the payload becomes a row of this
    city, and every photo row of this city comes from the payload when it
    had none before. *)
Theorem create_city_outcome env fresh city_in st :
  (∀ k c, cities (st_db st) !! k = Some c → City.name c = cic_name city_in →
     create_city env fresh city_in st
     = (Raise (HTTPException 400 "City with this name already exists"), st)) ∧
  ((∀ k c, cities (st_db st) !! k = Some c → City.name c ≠ cic_name city_in) →
   cities (st_db st) !! uuid4 env = None →
   photos_insertable
     (new_photos env fresh (uuid4 env) (default [] (cic_photos city_in)))
     (st_photos st) →
   (∀ ph, ph ∈ default [] (cic_photos city_in) →
      - 2 ^ 63 ≤ pb_position ph ≤ 2 ^ 63 - 1) →
   ∃ c st',
     create_city env fresh city_in st = (Return c, st') ∧
     City.id c = uuid4 env ∧ City.name c = cic_name city_in ∧
     City.deleted_at c = None ∧ City.review_count c = 0 ∧
     City.average_rating c = Some 0%float ∧
     get_city_by_id (uuid4 env) (st_db st') = (Return (Some c), st_db st') ∧
     reviews (st_db st') = reviews (st_db st) ∧
     (∀ ph,
        ph ∈ new_photos env fresh (uuid4 env) (default [] (cic_photos city_in)) →
        st_photos st' !! Photo.id ph = Some ph ∧ Photo.city_id ph = uuid4 env) ∧
     (∀ k ph, st_photos st' !! k = Some ph →
        ph ∈ new_photos env fresh (uuid4 env) (default [] (cic_photos city_in)) ∨
        st_photos st !! k = Some ph)).
Proof.
  split.
  - intros k c Hk Hn. unfold create_city.
    destruct (first_where_is_Some (has_name (cic_name city_in))
                (cities (st_db st)) k c Hk) as [c' ->]; [|done].
    unfold has_name. by rewrite bool_decide_eq_true_2.
  - intros Hfree Hfresh Hins Hpos. unfold create_city.
    rewrite (proj2 (city_name_free _ _) Hfree). cbn [City.id].
    rewrite (proj2 (photos_storable_spec _ _ _ _) Hpos). cbn [negb].
    rewrite bool_decide_eq_true_2 by done.
    eexists _, _. split; [reflexivity|]. cbn.
    split; [done|]. split; [done|]. split; [done|]. split; [done|].
    split; [done|].
    split; [unfold get_city_by_id, query; cbn; by rewrite lookup_insert_eq|].
    split; [done|]. split.
    + intros ph Hin. split; [|by eapply new_photos_city].
      apply insert_photos_lookup_new; [apply Hins|done].
    + intros k ph. apply insert_photos_lookup_inv.
Qed.

Lemma sample_db_paris_cities k c :
  cities Sample.db_paris !! k = Some c → k = "c1" ∧ c = Sample.paris.
Proof.
  intros Hk. cbn in Hk.
  apply lookup_insert_Some in Hk as [[<- <-]|[_ Hk]]; [done|].
  by rewrite lookup_empty in Hk.
Qed.

Lemma create_city_outcome_witness :
  ∃ c st',
    create_city (Sample.env 2 "c2") Fixture.fresh Fixture.lyon
      Fixture.store_paris = (Return c, st') ∧
    City.id c = "c2" ∧ City.review_count c = 0 ∧
    City.average_rating c = Some 0%float ∧
    get_city_by_id "c2" (st_db st') = (Return (Some c), st_db st') ∧
    ∃ ph, st_photos st' !! "photo-a" = Some ph ∧ Photo.city_id ph = "c2".
Proof.
  destruct (create_city_outcome (Sample.env 2 "c2") Fixture.fresh Fixture.lyon
              Fixture.store_paris) as [_ Hok].
  destruct Hok as (c & st' & Hrun & Hid & _ & _ & Hcount & Havg & Hget & _ & Hnew & _).
  - intros k c Hk. by destruct (sample_db_paris_cities k c Hk) as [_ ->].
  - reflexivity.
  - split; [apply (bool_decide_unpack _); vm_compute; exact I|].
    repeat constructor.
  - intros ph Hin. cbn in Hin. apply list_elem_of_singleton in Hin as ->.
    cbn. lia.
  - exists c, st'. split; [exact Hrun|]. split; [exact Hid|].
    split; [exact Hcount|]. split; [exact Havg|]. split; [exact Hget|].
    eexists. apply (Hnew (Photo.mk "photo-a" 2 2 None "c2"
                            "https://img.example/lyon.jpg" None 0)).
    apply list_elem_of_here.
Defined.

Lemma apply_city_update_Return city_in c c' :
  apply_city_update city_in c = Return c' →
  City.id c' = City.id c ∧
  City.created_at c' = City.created_at c ∧
  City.deleted_at c' = City.deleted_at c ∧
  City.average_rating c' = City.average_rating c ∧
  City.review_count c' = City.review_count c ∧
  City.name c'
  = (if ciu_name city_in is Some (Some n) then n else City.name c).
Proof.
  unfold apply_city_update. intros H.
  apply apply_nullable_Return in H as (c4 & H & ->).
  apply apply_nullable_Return in H as (c3 & H & ->).
  apply apply_nullable_Return in H as (c2 & H & ->).
  apply apply_column_Return in H as (c1 & H & ->).
  apply apply_column_Return in H as (c0 & [= <-] & ->).
  repeat split;
    repeat first [ rewrite patch_column_proj by done
                 | rewrite patch_nullable_proj by done ]; try done.
  unfold patch_column. by destruct (ciu_name city_in) as [[n|]|].
Qed.

(** What [update_city] leaves in the store, whatever it answers. *)
Lemma update_city_store env fresh c city_in st :
  (update_city env fresh c city_in st).2 = st ∨
  ∃ c',
    apply_city_update city_in c = Return c' ∧
    (∀ n, name_attr city_in = Some n → n ≠ City.name c →
       first_where (has_name n) (cities (st_db st)) = None) ∧
    photos_insertable
      (if photos_attr city_in is Some photos
       then new_photos env fresh (City.id c) photos else [])
      (st_photos st) ∧
    (update_city env fresh c city_in st).2
    = mkStore
        (set_cities
           (insert (City.id c') (City.set_updated_at (db_now env) c'))
           (st_db st))
        (insert_photos
           (if photos_attr city_in is Some photos
            then new_photos env fresh (City.id c) photos else [])
           (if photos_attr city_in is Some _
            then filter (λ kv : string * Photo.t, Photo.city_id kv.2 ≠ City.id c)
                   (st_photos st)
            else st_photos st)).
Proof.
  unfold update_city.
  match goal with
  | |- context [match ?e with Some _ => (Raise _, st) | None => _ end] =>
      destruct e as [x|] eqn:Hexisting
  end; [by left|].
  destruct (apply_city_update city_in c) as [c'|e] eqn:Hupd; [|by left].
  destruct (photos_storable _); [|by left]. cbn [negb].
  case_bool_decide as Hins; [|by left].
  right. exists c'. split; [done|]. split; [|split; [done|reflexivity]].
  intros n Hn Hne. rewrite Hn in Hexisting.
  by rewrite bool_decide_eq_true_2 in Hexisting.
Qed.

Lemma update_city_Return env fresh c city_in st r st' :
  update_city env fresh c city_in st = (Return r, st') →
  ∃ c',
    apply_city_update city_in c = Return c' ∧
    photos_insertable
      (if photos_attr city_in is Some photos
       then new_photos env fresh (City.id c) photos else [])
      (st_photos st) ∧
    st' = mkStore
            (set_cities
               (insert (City.id c') (City.set_updated_at (db_now env) c'))
               (st_db st))
            (insert_photos
               (if photos_attr city_in is Some photos
                then new_photos env fresh (City.id c) photos else [])
               (if photos_attr city_in is Some _
                then filter
                       (λ kv : string * Photo.t, Photo.city_id kv.2 ≠ City.id c)
                       (st_photos st)
                else st_photos st)) ∧
    CityRead_model_validate (City.set_updated_at (db_now env) c') st' = Return r.
Proof.
  unfold update_city.
  match goal with
  | |- context [match ?e with Some _ => (Raise _, st) | None => _ end] =>
      destruct e as [x|] eqn:Hexisting
  end; [done|].
  destruct (apply_city_update city_in c) as [c'|e] eqn:Hupd; [|done].
  destruct (photos_storable _); [|done]. cbn [negb].
  case_bool_decide as Hins; [|done].
  intros [= Hval <-]. exists c'. done.
Qed.

(** A successful [update_city] treats the photos by what the request
    says about them. When the request does not mention photos, the
    default empty list applies and every photo of the city is removed;
    an explicit null leaves the photo table as it was; a list replaces
    the city's photos by rows built from it. Photos of other cities are
    never touched. *)
Theorem update_city_photos env fresh c city_in st r st' :
  update_city env fresh c city_in st = (Return r, st') →
  match ciu_photos city_in with
  | None =>
      ∀ k ph, st_photos st' !! k = Some ph → Photo.city_id ph ≠ City.id c
  | Some None => st_photos st' = st_photos st
  | Some (Some photos) =>
      (∀ k ph, st_photos st' !! k = Some ph → Photo.city_id ph = City.id c →
         ph ∈ new_photos env fresh (City.id c) photos) ∧
      (∀ ph, ph ∈ new_photos env fresh (City.id c) photos →
         st_photos st' !! Photo.id ph = Some ph)
  end ∧
  (∀ k ph, Photo.city_id ph ≠ City.id c →
     st_photos st' !! k = Some ph ↔ st_photos st !! k = Some ph).
Proof.
  intros Hrun.
  apply update_city_Return in Hrun as (c' & _ & [Hnd Hfresh] & -> & _).
  unfold photos_attr in *. cbn [st_photos].
  destruct (ciu_photos city_in) as [[photos|]|]; cbn [default] in *.
  - split; [split|].
    + intros k ph Hk Hc.
      apply insert_photos_lookup_inv in Hk as [Hin|Hk]; [done|].
      apply map_lookup_filter_Some in Hk as [_ Hne]. cbn in Hne. done.
    + intros ph Hin. by apply insert_photos_lookup_new.
    + intros k ph Hc. split.
      * intros Hk. apply insert_photos_lookup_inv in Hk as [Hin|Hk].
        -- by apply new_photos_city in Hin.
        -- by apply map_lookup_filter_Some in Hk as [Hk _].
      * intros Hk. rewrite insert_photos_lookup_old.
        -- by apply map_lookup_filter_Some.
        -- intros Hin. apply list_elem_of_fmap in Hin as (ph' & -> & Hin).
           rewrite Forall_forall in Hfresh. by rewrite (Hfresh ph' Hin) in Hk.
  - done.
  - split.
    + intros k ph Hk. cbn in Hk.
      by apply map_lookup_filter_Some in Hk as [_ Hne].
    + intros k ph Hc. cbn. rewrite map_lookup_filter_Some. cbn. tauto.
Qed.

Lemma update_city_photos_witness :
  ∃ r st',
    update_city (Sample.env 4 "") Fixture.fresh Sample.paris Fixture.describe
      Fixture.store_paris = (Return r, st') ∧
    st_photos Fixture.store_paris !! "photo-0" = Some Fixture.old_photo ∧
    cr_description r = Some "City of light" ∧
    cr_photos r = [] ∧
    ∀ k ph, st_photos st' !! k = Some ph → Photo.city_id ph ≠ "c1".
Proof.
  assert (∃ r st',
            update_city (Sample.env 4 "") Fixture.fresh Sample.paris
              Fixture.describe Fixture.store_paris = (Return r, st') ∧
            cr_description r = Some "City of light" ∧ cr_photos r = [])
    as (r & st' & Hrun & Hdesc & Hphotos).
  { eexists _, _. split; [vm_compute; reflexivity|]. split; reflexivity. }
  exists r, st'. split; [exact Hrun|]. split; [reflexivity|].
  split; [exact Hdesc|]. split; [exact Hphotos|].
  exact (proj1 (update_city_photos (Sample.env 4 "") Fixture.fresh Sample.paris
                  Fixture.describe Fixture.store_paris r st' Hrun)).
Defined.

Lemma create_city_store env fresh city_in st :
  (create_city env fresh city_in st).2 = st ∨
  ∃ c,
    City.name c = cic_name city_in ∧
    first_where (has_name (cic_name city_in)) (cities (st_db st)) = None ∧
    cities (st_db (create_city env fresh city_in st).2)
    = <[uuid4 env := c]> (cities (st_db st)).
Proof.
  unfold create_city.
  destruct (first_where _ (cities (st_db st))) eqn:Hfree; [by left|].
  destruct (photos_storable _); [|by left]. cbn [negb].
  case_bool_decide; [|by left].
  right. eexists. split; [|split; [done|reflexivity]]. done.
Qed.

(** City names stay unique among the city rows: [create_city] and, for a
    stored city, [update_city] leave no two rows with the same name,
    whatever their outcome. *)
Theorem city_handlers_keep_names_unique env fresh st :
  city_names_unique (st_db st) →
  (∀ city_in,
     city_names_unique (st_db (create_city env fresh city_in st).2)) ∧
  (∀ c city_in, cities (st_db st) !! City.id c = Some c →
     city_names_unique (st_db (update_city env fresh c city_in st).2)).
Proof.
  intros Huniq. split.
  - intros city_in.
    destruct (create_city_store env fresh city_in st)
      as [->|(c & Hn & Hfree & Hcities)]; [done|].
    pose proof (proj1 (city_name_free _ _) Hfree) as Hno.
    intros k1 k2 c1 c2. rewrite Hcities. intros H1 H2 Heq.
    apply lookup_insert_Some in H1 as [[<- <-]|[Hn1 H1]];
      apply lookup_insert_Some in H2 as [[<- <-]|[Hn2 H2]].
    + done.
    + exfalso. apply (Hno k2 c2 H2). congruence.
    + exfalso. apply (Hno k1 c1 H1). congruence.
    + by eapply Huniq.
  - intros c city_in Hc.
    destruct (update_city_store env fresh c city_in st)
      as [->|(c' & Hupd & Hfree & _ & ->)]; [done|].
    apply apply_city_update_Return in Hupd as (Hid & _ & _ & _ & _ & Hname).
    rewrite Hid. cbn [st_db].
    assert (∀ k2 c2, cities (st_db st) !! k2 = Some c2 →
              City.name c2 = City.name c' → k2 = City.id c) as Hsame.
    { intros k2 c2 H2 Heq. rewrite Hname in Heq.
      destruct (ciu_name city_in) as [[n|]|] eqn:Hcu;
        try (by apply (Huniq k2 (City.id c) c2 c)).
      destruct (decide (n = City.name c)) as [->|Hne];
        [by apply (Huniq k2 (City.id c) c2 c)|].
      exfalso.
      assert (name_attr city_in = Some n) as Hattr
        by (unfold name_attr; by rewrite Hcu).
      specialize (Hfree n Hattr Hne).
      by apply (proj1 (city_name_free _ _) Hfree k2 c2 H2). }
    intros k1 k2 c1 c2. cbn. intros H1 H2 Heq.
    apply lookup_insert_Some in H1 as [[<- <-]|[Hn1 H1]];
      apply lookup_insert_Some in H2 as [[<- <-]|[Hn2 H2]].
    + done.
    + symmetry. apply (Hsame k2 c2 H2). by rewrite <- Heq.
    + by apply (Hsame k1 c1 H1).
    + by eapply Huniq.
Qed.

Lemma city_handlers_keep_names_unique_witness :
  city_names_unique
    (st_db (create_city (Sample.env 2 "c2") Fixture.fresh Fixture.lyon
              Fixture.store_paris).2) ∧
  city_names_unique
    (st_db (update_city (Sample.env 4 "") Fixture.fresh Sample.paris
              Fixture.describe Fixture.store_paris).2).
Proof.
  destruct (city_handlers_keep_names_unique (Sample.env 2 "c2") Fixture.fresh
              Fixture.store_paris) as [Hc _].
  { intros k1 k2 c1 c2 H1 H2 _.
    destruct (sample_db_paris_cities k1 c1 H1) as [-> _].
    by destruct (sample_db_paris_cities k2 c2 H2) as [-> _]. }
  destruct (city_handlers_keep_names_unique (Sample.env 4 "") Fixture.fresh
              Fixture.store_paris) as [_ Hu].
  { intros k1 k2 c1 c2 H1 H2 _.
    destruct (sample_db_paris_cities k1 c1 H1) as [-> _].
    by destruct (sample_db_paris_cities k2 c2 H2) as [-> _]. }
  split; [apply Hc|apply Hu; reflexivity].
Defined.

Lemma CityRead_model_validate_Return c st r :
  CityRead_model_validate c st = Return r →
  cr_id r = City.id c ∧ cr_name r = City.name c ∧
  cr_review_count r = City.review_count c ∧
  cr_average_rating r = City.average_rating c ∧
  cr_deleted_at r = City.deleted_at c.
Proof.
  unfold CityRead_model_validate.
  destruct (_ && _); [|done].
  destruct (collect (ReviewRead_model_validate <$> _)); [|done].
  destruct (collect (PhotoRead_model_validate <$> _)); [|done].
  by intros [= <-].
Qed.

(** [update_city] cannot reach the aggregates or the soft-delete state:
    when it returns, the stored city has the [review_count],
    [average_rating], creation stamp and [deleted_at] of the city it was
    given, the response shows the same values, and no review row is
    touched. *)
Theorem update_city_keeps_aggregates env fresh c city_in st r st' :
  update_city env fresh c city_in st = (Return r, st') →
  ∃ c',
    cities (st_db st') !! City.id c = Some c' ∧
    City.review_count c' = City.review_count c ∧
    City.average_rating c' = City.average_rating c ∧
    City.deleted_at c' = City.deleted_at c ∧
    City.created_at c' = City.created_at c ∧
    cr_id r = City.id c ∧
    cr_review_count r = City.review_count c ∧
    cr_average_rating r = City.average_rating c ∧
    reviews (st_db st') = reviews (st_db st).
Proof.
  intros Hrun.
  apply update_city_Return in Hrun as (c' & Hupd & _ & -> & Hval).
  apply apply_city_update_Return in Hupd as (Hid & Hcr & Hdel & Havg & Hcnt & _).
  apply CityRead_model_validate_Return in Hval as (Hrid & _ & Hrc & Hra & _).
  cbn in Hrid, Hrc, Hra.
  eexists. cbn. rewrite Hid, lookup_insert_eq. split; [reflexivity|]. cbn.
  repeat split; congruence.
Qed.

Lemma update_city_keeps_aggregates_witness :
  ∃ r st' c',
    update_city (Sample.env 4 "") Fixture.fresh Sample.paris Fixture.describe
      Fixture.store_paris = (Return r, st') ∧
    cities (st_db st') !! "c1" = Some c' ∧
    City.review_count c' = 0 ∧ City.average_rating c' = Some 0%float ∧
    City.deleted_at c' = None ∧ cr_id r = "c1" ∧ cr_review_count r = 0.
Proof.
  assert (∃ r st',
            update_city (Sample.env 4 "") Fixture.fresh Sample.paris
              Fixture.describe Fixture.store_paris = (Return r, st'))
    as (r & st' & Hrun).
  { eexists _, _. vm_compute. reflexivity. }
  destruct (update_city_keeps_aggregates (Sample.env 4 "") Fixture.fresh
              Sample.paris Fixture.describe Fixture.store_paris r st' Hrun)
    as (c' & Hc & Hcnt & Havg & Hdel & _ & Hid & Hrc & _).
  exists r, st', c'.
  split; [exact Hrun|]. split; [exact Hc|]. split; [exact Hcnt|].
  split; [exact Havg|]. split; [exact Hdel|]. split; [exact Hid|exact Hrc].
Defined.

Lemma check_cities_exist_iff_witness :
  check_cities_exist (Some "c1") (Some "c1") Sample.db_paris
  = (Return tt, Sample.db_paris) ∧
  check_cities_exist (Some "c1") None Sample.db_paris
  = (Raise (HTTPException 404 "Origin or destination city not found."),
     Sample.db_paris).
Proof.
  split.
  - apply (check_cities_exist_iff (Some "c1") (Some "c1") Sample.db_paris).
    exists "c1", "c1". repeat split; by eexists.
  - apply (check_cities_exist_iff (Some "c1") None Sample.db_paris).
    intros (ko & kd & _ & Hd & _). discriminate.
Defined.


